(** * Bunwork: the routing and dispatch engine

    A shallow embedding of the trie-based Bunwork dispatcher
    (route registration, route matching with named parameters, the
    middleware pipeline, blueprint merge and the static-file fallback),
    followed by the properties proved about it.

    JavaScript values are embedded as follows.
    - A [string] is the sequence of its bytes.  The operations used by the
      dispatcher ([split] on "/", [startsWith], [slice] behind a matched
      prefix) act the same on the UTF-8 bytes as on UTF-16 code units.
    - A [Map] is a [gmap]: the dispatcher only calls [has], [get] and [set]
      on its maps and never iterates over them.
    - A plain object used as a dictionary and iterated with [for .. in] or
      [Object.entries] is a list of own properties kept in enumeration
      order (array-index keys in ascending order first, then the other
      keys in creation order).
    - Handlers and middlewares are first-class functions; they are Rocq
      functions from the request to their completion.  A function that
      never completes is outside the model.
    - A [throw] is the [Thrown] completion. *)

From Stdlib Require Import Ascii.
From stdpp Require Import gmap strings list fin_maps.

Set Default Proof Using "Type".
Set Warnings "-register-all,-clear-no-such-hyp".


(** ** Completions *)

Inductive JsError : Type :=
  | Error (msg : string)
  | TypeError (msg : string).

Inductive Completion (A : Type) : Type :=
  | Normal (a : A)
  | Thrown (e : JsError).
Arguments Normal {A} a.
Arguments Thrown {A} e.

(** ** Strings *)

Module JsString.

(** [s.startsWith(pre)] *)
Fixpoint startsWith (s pre : string) {struct pre} : bool :=
  match pre, s with
  | "", _ => true
  | String _ _, "" => false
  | String a pre', String b s' =>
      if decide (a = b) then startsWith s' pre' else false
  end.

(** [s.slice(n)] for [0 <= n] *)
Fixpoint slice (n : nat) (s : string) : string :=
  match n, s with
  | 0, _ => s
  | S _, "" => ""
  | S n', String _ s' => slice n' s'
  end.

(** [s.split(sep)] for a one-character separator: the pieces between the
    separators, empty pieces included; the empty string gives [[""]]. *)
Fixpoint split (sep : ascii) (s : string) : list string :=
  match s with
  | "" => [""]
  | String c s' =>
      if decide (c = sep) then "" :: split sep s'
      else match split sep s' with
           | piece :: pieces => String c piece :: pieces
           | [] => [String c ""]
           end
  end.

(** [pieces.filter(Boolean)] on strings: the empty string is the only
    falsy string. *)
Definition filter_Boolean (pieces : list string) : list string :=
  filter (λ piece, piece ≠ "") pieces.

(** [path.split("/").filter(Boolean)] *)
Definition segments (path : string) : list string :=
  filter_Boolean (split "/" path).

Definition upper (c : ascii) : ascii :=
  let n := nat_of_ascii c in
  if decide (97 ≤ n ≤ 122) then ascii_of_nat (n - 32) else c.

(** [s.toUpperCase()] on the ASCII letters; a request method is an HTTP
    token, so it has no other letters. *)
Fixpoint toUpperCase (s : string) : string :=
  match s with
  | "" => ""
  | String c s' => String (upper c) (toUpperCase s')
  end.

(** does the character occur in the string *)
Fixpoint contains (c : ascii) (s : string) : bool :=
  match s with
  | "" => false
  | String a s' => if decide (a = c) then true else contains c s'
  end.

End JsString.

(** ** Plain objects used as dictionaries

    [JsObject V] lists the own enumerable properties of an object in the
    order in which [for .. in] and [Object.entries] visit them: the keys
    that are array indices (canonical decimal numerals below [2^32 - 1])
    in ascending numeric order, then every other key in the order of its
    creation.  Assigning to an existing key keeps its place. *)

Module JsObject.

Definition t (V : Type) : Type := list (string * V).

Fixpoint digits (s : string) (acc : N) : option N :=
  match s with
  | "" => Some acc
  | String c s' =>
      match Ascii.is_nat c with
      | Some d => digits s' (10 * acc + N.of_nat d)%N
      | None => None
      end
  end.

(** the numeric value of a key that is an array index *)
Definition array_index (k : string) : option N :=
  match k with
  | "" => None
  | String "0" "" => Some 0%N
  | String "0" _ => None
  | _ => match digits k 0 with
         | Some v => if decide (v < 2 ^ 32 - 1)%N then Some v else None
         | None => None
         end
  end.

Section ops.
Context {V : Type}.

(** [o[k]] *)
Fixpoint get (k : string) (o : t V) : option V :=
  match o with
  | [] => None
  | (k', v) :: o' => if decide (k = k') then Some v else get k o'
  end.

Definition has (k : string) (o : t V) : bool :=
  match get k o with Some _ => true | None => false end.

Fixpoint update (k : string) (v : V) (o : t V) : t V :=
  match o with
  | [] => []
  | (k', v') :: o' =>
      if decide (k = k') then (k, v) :: o' else (k', v') :: update k v o'
  end.

(** a new array-index key goes before the first key that is not a
    smaller array index *)
Fixpoint add_index (i : N) (k : string) (v : V) (o : t V) : t V :=
  match o with
  | [] => [(k, v)]
  | (k', v') :: o' =>
      match array_index k' with
      | Some j =>
          if decide (j < i)%N then (k', v') :: add_index i k v o'
          else (k, v) :: (k', v') :: o'
      | None => (k, v) :: (k', v') :: o'
      end
  end.

(** [o[k] = v] for an ordinary property name [k] *)
Definition set (k : string) (v : V) (o : t V) : t V :=
  if has k o then update k v o
  else match array_index k with
       | Some i => add_index i k v o
       | None => o ++ [(k, v)]
       end.

(** [Object.entries(o)], and the order of [for (k in o)] *)
Definition entries (o : t V) : list (string * V) := o.
End ops.

End JsObject.

(** ** Requests and responses *)

Inductive Body : Type :=
  | Text (s : string)
  | Bytes (b : list Byte.byte)
  | NoBody.

Record Response : Type := mkResponse { body : Body; status : nat }.

(** [Record<string, string>]: only read and written by key.  Writing a
    string to the name [__proto__] of an object literal creates no
    property (see [bindParam]). *)
Abbreviation Params := (gmap string string).

(** What the dispatcher reads from a [Request]: its method and the
    [pathname] of its URL; [params] is the optional field that [IRequest]
    adds. *)
Record IRequest : Type := mkRequest {
  method : string;
  pathname : string;
  params : option Params }.

(** [req.params = params] *)
Definition setParams (params : Params) (req : IRequest) : IRequest :=
  mkRequest (method req) (pathname req) (Some params).

Definition Handler : Type := IRequest → Completion Response.

(** A middleware called with the request and a [next] callback either
    returns (after an awaited promise, if it returned one), having called
    [next] or not and having possibly stored properties in the request, or
    throws. *)
Inductive MiddlewareResult : Type :=
  | Returned (nextCalled : bool) (req : IRequest)
  | Raised (e : JsError).

Definition Middleware : Type := IRequest → MiddlewareResult.

(** ** The route tree *)

Inductive Method : Type := GET | POST.

Global Instance Method_eq_dec : EqDecision Method.
Proof. solve_decision. Defined.

Inductive RouteNode : Type := mkRouteNode {
  children : gmap string RouteNode;
  paramName : option string;
  handler : option Handler }.

Abbreviation RouteMap := (gmap string RouteNode).

(** [createRouteTree()]: one root map for each of GET and POST. *)
Record RouteTree : Type := mkRouteTree { GET_root : RouteMap; POST_root : RouteMap }.

Definition createRouteTree : RouteTree := mkRouteTree ∅ ∅.

(** [routes[method].root] *)
Definition root (m : Method) (routes : RouteTree) : RouteMap :=
  match m with GET => GET_root routes | POST => POST_root routes end.

Definition with_root (m : Method) (r : RouteMap) (routes : RouteTree) : RouteTree :=
  match m with
  | GET => mkRouteTree r (POST_root routes)
  | POST => mkRouteTree (GET_root routes) r
  end.

(** The key under which a pattern segment is stored: every segment that
    starts with ":" shares the key ":". *)
Definition segmentKey (part : string) : string :=
  if JsString.startsWith part ":" then ":" else part.

(** The loop of [addRoute] over the segments of the pattern, from the map
    [current] on.  The node of each segment is fetched or created, a
    dynamic segment stores its name in it, and the node of the last segment
    receives the handler.  The source updates the nodes in place; no node
    is shared between two maps, so each map on the way is rebuilt here. *)
Fixpoint addParts (parts : list string) (h : Handler) (current : RouteMap) : RouteMap :=
  match parts with
  | [] => current
  | part :: rest =>
      let key := segmentKey part in
      let node :=
        match current !! key with
        | Some node => node
        | None => mkRouteNode ∅ None None
        end in
      let node :=
        if JsString.startsWith part ":"
        then mkRouteNode (children node) (Some (JsString.slice 1 part)) (handler node)
        else node in
      let node :=
        match rest with
        | [] => mkRouteNode (children node) (paramName node) (Some h)
        | _ :: _ => mkRouteNode (addParts rest h (children node)) (paramName node) (handler node)
        end in
      <[key := node]> current
  end.

(** [if (node.paramName) params[node.paramName] = part]: the empty name is
    falsy, and assigning a string to [__proto__] leaves an object literal
    without that property. *)
Definition bindParam (node : RouteNode) (part : string) (params : Params) : Params :=
  match paramName node with
  | Some name =>
      if decide (name = "") then params
      else if decide (name = "__proto__") then params
      else <[name := part]> params
  | None => params
  end.

(** The loop of [matchRoute]; [None] is its [return null]. *)
Fixpoint matchParts (parts : list string) (current : RouteMap) (params : Params)
    (node : option RouteNode) : option (RouteMap * Params * option RouteNode) :=
  match parts with
  | [] => Some (current, params, node)
  | part :: rest =>
      match current !! part with
      | Some node' => matchParts rest (children node') params (Some node')
      | None =>
          match current !! ":" with
          | Some node' =>
              matchParts rest (children node') (bindParam node' part params) (Some node')
          | None => None
          end
      end
  end.

(** ** Blueprint *)

Module Blueprint.

(** [routes.GET] and [routes.POST] are plain objects from the prefixed
    path to [{ handler }]; the wrapper has this one field, so the handler
    stands for it.  The objects are modelled for ordinary property
    names: the name [__proto__] is not one (assigning an object to it
    replaces the prototype instead of creating a property). *)
Record t : Type := mk {
  prefix : string;
  GET_routes : JsObject.t Handler;
  POST_routes : JsObject.t Handler;
  middlewares : list Middleware }.

Definition new (prefix : string) : t := mk prefix [] [] [].

Definition middleware (fn : Middleware) (this : t) : t :=
  mk (prefix this) (GET_routes this) (POST_routes this) (middlewares this ++ [fn]).

(** [this.routes.GET[`${this.prefix}${path}`] = { handler }], for a key
    other than [__proto__] (that assignment would replace the prototype of
    the table and store nothing) *)
Definition get (path : string) (h : Handler) (this : t) : t :=
  mk (prefix this) (JsObject.set (prefix this +:+ path) h (GET_routes this))
     (POST_routes this) (middlewares this).

(** the same for [routes.POST], with the same proviso *)
Definition post (path : string) (h : Handler) (this : t) : t :=
  mk (prefix this) (GET_routes this)
     (JsObject.set (prefix this +:+ path) h (POST_routes this)) (middlewares this).

Definition getRoutes (this : t) (m : Method) : JsObject.t Handler :=
  match m with GET => GET_routes this | POST => POST_routes this end.

Definition getMiddlewares (this : t) : list Middleware := middlewares this.

End Blueprint.

(** ** The external collaborators of [handle]

    [join] is [path.join]; [readFile p] is [await file(p).arrayBuffer()],
    which resolves to the bytes of the file or rejects. *)
Record Host : Type := mkHost {
  join : string → string → string;
  readFile : string → Completion (list Byte.byte) }.

(** What [handle] calls, in the order of the calls. *)
Inductive Event : Type :=
  | CallMiddleware (fn : Middleware)
  | CallHandler (h : Handler)
  | ReadFile (filePath : string).

(** The result of [runMiddlewares]: [null] (with the request as the
    middlewares left it), the blocking response, or a thrown error. *)
Inductive ChainResult : Type :=
  | Passed (req : IRequest)
  | Blocked (res : Response)
  | Failed (e : JsError).

(** ** Bunwork *)

Module Bunwork.

Record t : Type := mk {
  middlewares : list Middleware;
  routes : RouteTree;
  staticRoutes : JsObject.t string }.

Definition new : t := mk [] createRouteTree [].

Definition middleware (fn : Middleware) (this : t) : t :=
  mk (middlewares this ++ [fn]) (routes this) (staticRoutes this).

(** [addRoute] throws when the pattern is not "/" and has no segment;
    nothing has been stored by then. *)
Definition addRoute (m : Method) (path : string) (h : Handler) (this : t) : Completion t :=
  if decide (path = "/") then
    Normal (mk (middlewares this)
               (with_root m (<["/" := mkRouteNode ∅ None (Some h)]> (root m (routes this)))
                          (routes this))
               (staticRoutes this))
  else
    match JsString.segments path with
    | [] => Thrown (Error "Failed to add route handler. Node is undefined.")
    | parts =>
        Normal (mk (middlewares this)
                   (with_root m (addParts parts h (root m (routes this))) (routes this))
                   (staticRoutes this))
    end.

Definition get (path : string) (h : Handler) (this : t) : Completion t :=
  addRoute GET path h this.

Definition post (path : string) (h : Handler) (this : t) : Completion t :=
  addRoute POST path h this.

Definition matchRoute (m : Method) (path : string) (this : t) : option (Handler * Params) :=
  let parts := if decide (path = "/") then [] else JsString.segments path in
  match matchParts parts (root m (routes this)) ∅ None with
  | None => None
  | Some (current, params, node) =>
      let node := match node with Some _ => node | None => current !! "/" end in
      match node with
      | Some n =>
          match handler n with
          | Some h => Some (h, params)
          | None => None
          end
      | None => None
      end
  end.

(** [this.staticRoutes[route] = directoryPath]; a string assigned to
    [__proto__] creates no property. *)
Definition static (route directoryPath : string) (this : t) : t :=
  if decide (route = "__proto__") then this
  else mk (middlewares this) (routes this)
          (JsObject.set route directoryPath (staticRoutes this)).

(** The inner loop of [registerBlueprint] for one method: [addRoute] for
    each path of the blueprint, until one call throws. *)
Fixpoint addRoutes (m : Method) (entries : list (string * Handler)) (this : t)
    : t * Completion unit :=
  match entries with
  | [] => (this, Normal tt)
  | (path, h) :: rest =>
      match addRoute m path h this with
      | Normal this' => addRoutes m rest this'
      | Thrown e => (this, Thrown e)
      end
  end.

(** The result carries the state reached, also when an [addRoute] threw
    on the way. *)
Definition registerBlueprint (blueprint : Blueprint.t) (this : t) : t * Completion unit :=
  let this := mk (middlewares this ++ Blueprint.getMiddlewares blueprint)
                 (routes this) (staticRoutes this) in
  let blueprintRoutes := Blueprint.getRoutes blueprint in
  match addRoutes GET (JsObject.entries (blueprintRoutes GET)) this with
  | (this, Normal _) => addRoutes POST (JsObject.entries (blueprintRoutes POST)) this
  | (this, Thrown e) => (this, Thrown e)
  end.

Definition blockedResponse : Response :=
  mkResponse (Text "Middleware blocked the request") 403.

Fixpoint runMiddlewares (mws : list Middleware) (req : IRequest)
    : ChainResult * list Event :=
  match mws with
  | [] => (Passed req, [])
  | middleware :: rest =>
      match middleware req with
      | Raised e => (Failed e, [CallMiddleware middleware])
      | Returned nextCalled req' =>
          if nextCalled then
            let '(result, calls) := runMiddlewares rest req' in
            (result, CallMiddleware middleware :: calls)
          else (Blocked blockedResponse, [CallMiddleware middleware])
      end
  end.

(** The loop of [handle] over [Object.entries(this.staticRoutes)]: the
    first prefix of the path decides; [None] when the loop ends without
    one. *)
Fixpoint serveStatic (host : Host) (entries : list (string * string)) (pathname : string)
    : option (Response * list Event) :=
  match entries with
  | [] => None
  | (staticRoute, dirPath) :: rest =>
      if JsString.startsWith pathname staticRoute then
        let filePath :=
          join host dirPath (JsString.slice (String.length staticRoute) pathname) in
        Some (match readFile host filePath with
              | Normal bytes => mkResponse (Bytes bytes) 200
              | Thrown _ => mkResponse (Text "File Not Found") 404
              end, [ReadFile filePath])
      else serveStatic host rest pathname
  end.

(** [req.method.toUpperCase() as "GET" | "POST"]: the cast checks
    nothing; for any other method [this.routes[method]] is undefined. *)
Definition methodOf (method : string) : option Method :=
  if decide (method = "GET") then Some GET
  else if decide (method = "POST") then Some POST
  else None.

Definition handle (host : Host) (this : t) (req : IRequest)
    : Completion Response * list Event :=
  let url_pathname := pathname req in
  let method := JsString.toUpperCase (method req) in
  match runMiddlewares (middlewares this) req with
  | (Failed e, calls) => (Thrown e, calls)
  | (Blocked blockedRes, calls) => (Normal blockedRes, calls)
  | (Passed req, calls) =>
      match methodOf method with
      | None =>
          (* matchRoute reads [this.routes[method].root] *)
          (Thrown (TypeError "undefined is not an object"), calls)
      | Some m =>
          match matchRoute m url_pathname this with
          | Some (h, params) =>
              (h (setParams params req), calls ++ [CallHandler h])
          | None =>
              match serveStatic host (JsObject.entries (staticRoutes this)) url_pathname with
              | Some (res, reads) => (Normal res, calls ++ reads)
              | None => (Normal (mkResponse (Text "Not Found") 404), calls)
              end
          end
      end
  end.

End Bunwork.

(** * Specification vocabulary

    The definitions below are not part of the program: they name the
    notions the properties are stated with. *)

(** The node at a position of a root map: the position is the list of the
    keys followed from the root. *)
Fixpoint nodeAt (keys : list string) (current : RouteMap) : option RouteNode :=
  match keys with
  | [] => None
  | key :: keys' =>
      match current !! key with
      | None => None
      | Some node =>
          match keys' with
          | [] => Some node
          | _ :: _ => nodeAt keys' (children node)
          end
      end
  end.

(** the node found under a key, or the one [addRoute] creates *)
Definition nodeOrNew (found : option RouteNode) : RouteNode :=
  default (mkRouteNode ∅ None None) found.

Definition handlerAt (keys : list string) (current : RouteMap) : option Handler :=
  nodeAt keys current ≫= handler.

Definition paramNameAt (keys : list string) (current : RouteMap) : option string :=
  nodeAt keys current ≫= paramName.

(** The position at which a pattern terminates: the key "/" of the root
    map for the pattern "/", the keys of its segments otherwise; a pattern
    with no segment has none ([addRoute] throws). *)
Definition patternKeys (path : string) : option (list string) :=
  if decide (path = "/") then Some ["/"]
  else match JsString.segments path with
       | [] => None
       | parts => Some (segmentKey <$> parts)
       end.

(** The parameter name a pattern gives to the node at a position, when the
    position is on the path of the pattern and its segment there is
    dynamic. *)
Fixpoint namedBy (parts keys : list string) : option string :=
  match parts, keys with
  | part :: rest, key :: keys' =>
      if decide (key = segmentKey part) then
        match keys' with
        | [] => if JsString.startsWith part ":" then Some (JsString.slice 1 part) else None
        | _ :: _ => namedBy rest keys'
        end
      else None
  | _, _ => None
  end.

(** A request segment is taken through a key: its own text, or the
    dynamic key. *)
Definition keyTaken (key part : string) : Prop := key = part ∨ key = ":".

(** Every key that starts with ":" is the dynamic key ":" itself. *)
Definition dynamicKeysShared (current : RouteMap) : Prop :=
  ∀ keys key,
    is_Some (nodeAt (keys ++ [key]) current) →
    JsString.startsWith key ":" = true → key = ":".

(** Two root maps with the same nodes and the same parameter names, and
    the same handlers at every position outside [changed]. *)
Definition sameRoutesExcept (changed : list string → Prop) (c1 c2 : RouteMap) : Prop :=
  ∀ keys,
    (is_Some (nodeAt keys c1) ↔ is_Some (nodeAt keys c2)) ∧
    paramNameAt keys c1 = paramNameAt keys c2 ∧
    (¬ changed keys → handlerAt keys c1 = handlerAt keys c2).

(** What a successful [addRoute] does to the root map of its method. *)
Definition storeRoute (path : string) (h : Handler) (current : RouteMap) : RouteMap :=
  if decide (path = "/") then <["/" := mkRouteNode ∅ None (Some h)]> current
  else addParts (JsString.segments path) h current.

(** ** Registration histories *)

(** The calls that configure a dispatcher. *)
Inductive Registration : Type :=
  | Get (path : string) (h : Handler)
  | Post (path : string) (h : Handler)
  | Use (fn : Middleware)
  | Static (route directoryPath : string)
  | RegisterBlueprint (blueprint : Blueprint.t).

(** One call; a call that throws leaves the state it had reached. *)
Definition register (call : Registration) (app : Bunwork.t) : Bunwork.t :=
  match call with
  | Get path h =>
      match Bunwork.get path h app with Normal app' => app' | Thrown _ => app end
  | Post path h =>
      match Bunwork.post path h app with Normal app' => app' | Thrown _ => app end
  | Use fn => Bunwork.middleware fn app
  | Static route directoryPath => Bunwork.static route directoryPath app
  | RegisterBlueprint blueprint => (Bunwork.registerBlueprint blueprint app).1
  end.

Definition configure (calls : list Registration) (app : Bunwork.t) : Bunwork.t :=
  foldl (λ app call, register call app) app calls.

(** [addRoute] accepts the pattern "/" and the patterns with a segment. *)
Definition routable (path : string) : bool :=
  match patternKeys path with Some _ => true | None => false end.

(** The patterns stored by the loop of [registerBlueprint] over the paths
    of one method: those before the first one that [addRoute] rejects. *)
Fixpoint storedOf (entries : list (string * Handler)) : list string :=
  match entries with
  | [] => []
  | (path, _) :: rest => if routable path then path :: storedOf rest else []
  end.

(** The patterns a call registers for a method. *)
Definition stored (m : Method) (call : Registration) : list string :=
  match call, m with
  | Get path h, GET => storedOf [(path, h)]
  | Post path h, POST => storedOf [(path, h)]
  | RegisterBlueprint blueprint, GET => storedOf (Blueprint.GET_routes blueprint)
  | RegisterBlueprint blueprint, POST =>
      if forallb (λ entry, routable entry.1) (Blueprint.GET_routes blueprint)
      then storedOf (Blueprint.POST_routes blueprint) else []
  | _, _ => []
  end.

Definition registered (m : Method) (calls : list Registration) : list string :=
  calls ≫= stored m.

(** The invariant of the root map of a method, for the patterns registered
    for that method. *)
Record routeInvariant (current : RouteMap) (patterns : list string) : Prop := {
  inv_handler keys :
    is_Some (handlerAt keys current) ↔
    ∃ path, path ∈ patterns ∧ patternKeys path = Some keys;
  inv_dynamic : dynamicKeysShared current;
  inv_paramName keys key :
    is_Some (paramNameAt (keys ++ [key]) current) → key = ":";
  inv_root keys : keys ≠ [] → nodeAt ("/" :: keys) current = None }.

(** What [matchRoute] returns from the state in which its loop ended. *)
Definition landing (result : option (RouteMap * Params * option RouteNode))
    : option (Handler * Params) :=
  match result with
  | None => None
  | Some (current, params, node) =>
      match (match node with Some _ => node | None => current !! "/" end) with
      | Some n =>
          match handler n with
          | Some h => Some (h, params)
          | None => None
          end
      | None => None
      end
  end.

(** A dispatcher in a state that registration calls can produce. *)
Definition Configured (app : Bunwork.t) : Prop :=
  ∃ calls, app = configure calls Bunwork.new.

(** A literal segment of a pattern: one that does not start with ":". *)
Definition literalSegment (part : string) : Prop :=
  JsString.startsWith part ":" = false.

(** A pattern segment matches a request segment: it is dynamic, or it is
    the same text. *)
Definition segmentMatches (patternPart requestPart : string) : Prop :=
  JsString.startsWith patternPart ":" = true ∨ patternPart = requestPart.

(** A pattern matches a request path: they have the same number of
    segments and every pattern segment matches the request segment at its
    place. *)
Definition patternMatches (pattern path : string) : Prop :=
  Forall2 segmentMatches (JsString.segments pattern) (JsString.segments path).

(** Every middleware of the list returns after calling [next]; [req'] is
    the request after the last one. *)
Fixpoint allContinue (mws : list Middleware) (req req' : IRequest) : Prop :=
  match mws with
  | [] => req' = req
  | fn :: rest => ∃ req1, fn req = Returned true req1 ∧ allContinue rest req1 req'
  end.

(** [n] slashes *)
Fixpoint slashes (n : nat) : string :=
  match n with
  | 0 => ""
  | S n' => String "/" (slashes n')
  end.

(** The first property of an object, in enumeration order, whose key
    passes a test. *)
Fixpoint firstWith {V : Type} (test : string → bool) (o : JsObject.t V)
    : option (string * V) :=
  match o with
  | [] => None
  | (k, v) :: o' => if test k then Some (k, v) else firstWith test o'
  end.

(** The static routes that a history registers, in the order of the
    calls. *)
Definition staticCalls (calls : list Registration) : list (string * string) :=
  calls ≫= λ call,
    match call with
    | Static route directoryPath => [(route, directoryPath)]
    | _ => []
    end.

(** What [handle] answers from the static route [(route, dirPath)]. *)
Definition staticResponse (host : Host) (route dirPath pathname : string)
    : Response * list Event :=
  let filePath := join host dirPath (JsString.slice (String.length route) pathname) in
  (match readFile host filePath with
   | Normal bytes => mkResponse (Bytes bytes) 200
   | Thrown _ => mkResponse (Text "File Not Found") 404
   end, [ReadFile filePath]).

(** The paths of one method that the loop of [registerBlueprint] passes to
    an [addRoute] that accepts them: those before the first rejected one. *)
Fixpoint accepted (entries : list (string * Handler)) : list (string * Handler) :=
  match entries with
  | [] => []
  | (path, h) :: rest => if routable path then (path, h) :: accepted rest else []
  end.

(** [registerBlueprint] as calls on the dispatcher itself: the middlewares
    of the blueprint, then a [get] for each stored GET path and, when none
    of them was rejected, a [post] for each stored POST path. *)
Definition mergedCalls (blueprint : Blueprint.t) : list Registration :=
  (Use <$> Blueprint.getMiddlewares blueprint) ++
  ((λ entry, Get entry.1 entry.2) <$>
     accepted (JsObject.entries (Blueprint.getRoutes blueprint GET))) ++
  (if forallb (λ entry, routable entry.1)
        (JsObject.entries (Blueprint.getRoutes blueprint GET))
   then (λ entry, Post entry.1 entry.2) <$>
          accepted (JsObject.entries (Blueprint.getRoutes blueprint POST))
   else []).

(** * Examples

    The dispatchers, requests and collaborators on which the properties
    are exercised. *)

Definition respond (text : string) : Handler :=
  λ _, Normal (mkResponse (Text text) 200).

(** answers with the value of the parameter [name] *)
Definition echoParam (name : string) : Handler :=
  λ req, Normal (mkResponse (Text (default "" (params req ≫= (.!! name)))) 200).

Definition GETRequest (pathname : string) : IRequest := mkRequest "GET" pathname None.

(** [/users/:id] registered before [/users/me] *)
Definition usersCalls : list Registration :=
  [Get "/users/:id" (echoParam "id"); Get "/users/me" (respond "me")].

Definition usersApp : Bunwork.t := configure usersCalls Bunwork.new.

(** [/hello/:name] alone *)
Definition helloCalls : list Registration := [Get "/hello/:name" (echoParam "name")].

Definition helloApp : Bunwork.t := configure helloCalls Bunwork.new.

(** a middleware that calls [next] *)
Definition logger : Middleware := λ req, Returned true req.

(** a middleware that returns without calling [next] *)
Definition denyAll : Middleware := λ req, Returned false req.

(** a middleware that throws *)
Definition faulty : Middleware := λ _, Raised (Error "unexpected").

Definition guardedApp : Bunwork.t :=
  configure [Use logger; Use denyAll; Use faulty; Get "/" (respond "home");
             Static "/" "./public"] Bunwork.new.

(** a host whose only readable file is [./public/assets/logo.png] *)
Definition publicHost : Host :=
  mkHost (λ dirPath rest,
            if JsString.startsWith rest "/" then dirPath +:+ rest
            else dirPath +:+ "/" +:+ rest)
         (λ filePath,
            if decide (filePath = "./public/assets/logo.png") then Normal []
            else Thrown (Error "ENOENT")).

(** three static routes; the first prefix of [/assets/logo.png] is the
    second one registered, and only the third one has the file *)
Definition assetsCalls : list Registration :=
  [Use logger; Static "/downloads" "./files"; Static "/assets" "./cache";
   Static "/" "./public"].

Definition assetsApp : Bunwork.t := configure assetsCalls Bunwork.new.

(** the blueprint of the users example: prefix [/users], one middleware,
    the route [/:id] *)
Definition usersBlueprint : Blueprint.t :=
  Blueprint.get "/:id" (echoParam "id")
    (Blueprint.middleware denyAll (Blueprint.new "/users")).

Definition blueprintApp : Bunwork.t :=
  register (RegisterBlueprint usersBlueprint)
    (configure [Use logger; Get "/" (respond "home")] Bunwork.new).

(** * The table dispatcher and the router

    [core.ts] is the dispatcher without a route tree: its routes are a
    plain object from the path to an object from the method to the
    handler, and a request is matched by the exact text of its pathname.
    [router.ts] collects routes in a table of the same shape and replays
    them on a dispatcher. *)

(** [method] as the property key it is used as *)
Definition methodName (m : Method) : string :=
  match m with GET => "GET" | POST => "POST" end.

Module Core.

(** [routes] is read with [this.routes[path]], which also finds the
    members of [Object.prototype]; the table is modelled for registered
    paths that are none of them, as every path that starts with "/" is
    (the pathname of a URL always does). *)
Record t : Type := mk {
  middlewares : list Middleware;
  routes : JsObject.t (JsObject.t Handler);
  staticRoutes : JsObject.t string }.

Definition new : t := mk [] [] [].

Definition middleware (fn : Middleware) (this : t) : t :=
  mk (middlewares this ++ [fn]) (routes this) (staticRoutes this).

Definition addRoute (method : Method) (path : string) (handler : Handler) (this : t) : t :=
  let routes :=
    if JsObject.has path (routes this) then routes this
    else JsObject.set path [] (routes this) in
  let byMethod := default [] (JsObject.get path routes) in
  mk (middlewares this)
     (JsObject.set path (JsObject.set (methodName method) handler byMethod) routes)
     (staticRoutes this).

Definition get (path : string) (handler : Handler) (this : t) : t :=
  addRoute GET path handler this.

Definition post (path : string) (handler : Handler) (this : t) : t :=
  addRoute POST path handler this.

Definition static (route directoryPath : string) (this : t) : t :=
  if decide (route = "__proto__") then this
  else mk (middlewares this) (routes this)
          (JsObject.set route directoryPath (staticRoutes this)).

(** the same loop as in the tree dispatcher *)
Definition runMiddlewares (this : t) (req : IRequest) : ChainResult * list Event :=
  Bunwork.runMiddlewares (middlewares this) req.

(** [this.routes[path] && this.routes[path][method]] *)
Definition routeHandler (path method : string) (this : t) : option Handler :=
  match JsObject.get path (routes this) with
  | Some byMethod => JsObject.get method byMethod
  | None => None
  end.

Definition handleStaticRoute (host : Host) (this : t) (path : string)
    : Response * list Event :=
  match Bunwork.serveStatic host (JsObject.entries (staticRoutes this)) path with
  | Some answer => answer
  | None => (mkResponse (Text "Not Found") 404, [])
  end.

(** [method] is only used as a property key, so the unchecked cast to
    ["GET" | "POST"] does no harm here. *)
Definition handle (host : Host) (this : t) (req : IRequest)
    : Completion Response * list Event :=
  let method := JsString.toUpperCase (method req) in
  let path := pathname req in
  match runMiddlewares this req with
  | (Failed e, calls) => (Thrown e, calls)
  | (Blocked blockedRes, calls) => (Normal blockedRes, calls)
  | (Passed req, calls) =>
      match routeHandler path method this with
      | Some routeHandler => (routeHandler req, calls ++ [CallHandler routeHandler])
      | None =>
          let '(res, reads) := handleStaticRoute host this path in
          (Normal res, calls ++ reads)
      end
  end.

End Core.

(** What [Router.applyTo] needs of the dispatcher it is applied to. *)
Class Dispatcher (A : Type) : Type := {
  app_get : string → Handler → A → Completion A;
  app_post : string → Handler → A → Completion A;
  app_middleware : Middleware → A → A }.

Global Instance Bunwork_Dispatcher : Dispatcher Bunwork.t := {|
  app_get := Bunwork.get;
  app_post := Bunwork.post;
  app_middleware := Bunwork.middleware |}.

Global Instance Core_Dispatcher : Dispatcher Core.t := {|
  app_get := λ path h app, Normal (Core.get path h app);
  app_post := λ path h app, Normal (Core.post path h app);
  app_middleware := Core.middleware |}.

Module Router.

(** the table has the shape of [Core.routes], with the same proviso *)
Record t : Type := mk {
  routes : JsObject.t (JsObject.t Handler);
  middlewares : list Middleware }.

Definition new : t := mk [] [].

Definition use (middleware : Middleware) (this : t) : t :=
  mk (routes this) (middlewares this ++ [middleware]).

Definition addRoute (method : Method) (path : string) (handler : Handler) (this : t) : t :=
  let routes :=
    if JsObject.has path (routes this) then routes this
    else JsObject.set path [] (routes this) in
  let byMethod := default [] (JsObject.get path routes) in
  mk (JsObject.set path (JsObject.set (methodName method) handler byMethod) routes)
     (middlewares this).

Definition get (path : string) (handler : Handler) (this : t) : t :=
  addRoute GET path handler this.

Definition post (path : string) (handler : Handler) (this : t) : t :=
  addRoute POST path handler this.

Section applyTo.
Context {A : Type} `{Dispatcher A}.

(** the inner loop of [applyTo], over the methods of one path; a method
    other than GET and POST is skipped *)
Fixpoint applyMethods (path : string) (byMethod : list (string * Handler)) (app : A)
    : A * Completion unit :=
  match byMethod with
  | [] => (app, Normal tt)
  | (method, handler) :: rest =>
      if decide (method = "GET") then
        match app_get path handler app with
        | Normal app' => applyMethods path rest app'
        | Thrown e => (app, Thrown e)
        end
      else if decide (method = "POST") then
        match app_post path handler app with
        | Normal app' => applyMethods path rest app'
        | Thrown e => (app, Thrown e)
        end
      else applyMethods path rest app
  end.

(** the loop over the paths *)
Fixpoint applyRoutes (routes : list (string * JsObject.t Handler)) (app : A)
    : A * Completion unit :=
  match routes with
  | [] => (app, Normal tt)
  | (path, byMethod) :: rest =>
      match applyMethods path (JsObject.entries byMethod) app with
      | (app', Normal _) => applyRoutes rest app'
      | (app', Thrown e) => (app', Thrown e)
      end
  end.

(** The result carries the state of the dispatcher, also when one of its
    calls threw on the way. *)
Definition applyTo (this : t) (app : A) : A * Completion unit :=
  match applyRoutes (JsObject.entries (routes this)) app with
  | (app', Normal _) =>
      (foldl (λ app mw, app_middleware mw app) app' (middlewares this), Normal tt)
  | (app', Thrown e) => (app', Thrown e)
  end.
End applyTo.

End Router.

(** * More specification vocabulary *)

(** The walk of [matchRoute] told as a relation: [keys] are the keys
    through which the segments [parts] are taken from [current] on.  A
    segment is taken through the key with its own text when there is one,
    and through the dynamic key only when there is none. *)
Fixpoint takenFrom (current : RouteMap) (keys parts : list string) : Prop :=
  match keys, parts with
  | [], [] => True
  | key :: keys', part :: parts' =>
      match current !! key with
      | Some node =>
          (key = part ∨ key = ":" ∧ current !! part = None) ∧
          takenFrom (children node) keys' parts'
      | None => False
      end
  | _, _ => False
  end.

(** The parameters bound on the way: each segment taken through the
    dynamic key, and not through its own text, is bound to the name
    stored in the dynamic child. *)
Fixpoint boundFrom (current : RouteMap) (keys parts : list string) (params : Params)
    : Params :=
  match keys, parts with
  | key :: keys', part :: parts' =>
      match current !! key with
      | Some node =>
          boundFrom (children node) keys' parts'
            (if decide (key = part) then params else bindParam node part params)
      | None => params
      end
  | _, _ => params
  end.

(** The calls on a dispatcher that [Router.applyTo] makes for the methods
    of one path. *)
Fixpoint methodCalls (path : string) (byMethod : list (string * Handler))
    : list Registration :=
  match byMethod with
  | [] => []
  | (method, h) :: rest =>
      if decide (method = "GET") then Get path h :: methodCalls path rest
      else if decide (method = "POST") then Post path h :: methodCalls path rest
      else methodCalls path rest
  end.

(** The route calls of [Router.applyTo], in the order of the loops. *)
Definition routeCalls (routes : JsObject.t (JsObject.t Handler)) : list Registration :=
  JsObject.entries routes ≫= λ entry, methodCalls entry.1 (JsObject.entries entry.2).

(** the pattern of a route call, if it is one *)
Definition callPattern (call : Registration) : option string :=
  match call with
  | Get path _ | Post path _ => Some path
  | _ => None
  end.

(** a call that [addRoute] does not reject *)
Definition callAccepted (call : Registration) : bool :=
  match callPattern call with
  | Some path => routable path
  | None => true
  end.

(** the calls before the first rejected one *)
Fixpoint acceptedCalls (calls : list Registration) : list Registration :=
  match calls with
  | [] => []
  | call :: rest => if callAccepted call then call :: acceptedCalls rest else []
  end.

(** The key of the root map that a request path asks for first: the text
    of its first segment, or "/" when it has no segment. *)
Definition entryKey (path : string) : string :=
  match JsString.segments path with
  | [] => "/"
  | part :: _ => part
  end.

(** The routes a call stores for a method, with their handlers, in the
    order in which they are stored. *)
Definition storedRoutes (m : Method) (call : Registration) : list (string * Handler) :=
  match call, m with
  | Get path h, GET => accepted [(path, h)]
  | Post path h, POST => accepted [(path, h)]
  | RegisterBlueprint blueprint, GET => accepted (Blueprint.GET_routes blueprint)
  | RegisterBlueprint blueprint, POST =>
      if forallb (λ entry, routable entry.1) (Blueprint.GET_routes blueprint)
      then accepted (Blueprint.POST_routes blueprint) else []
  | _, _ => []
  end.

(** The root map after a list of routes has been stored in it. *)
Definition storeAll (entries : list (string * Handler)) (current : RouteMap) : RouteMap :=
  foldl (λ current entry, storeRoute entry.1 entry.2 current) current entries.

(** The middlewares a call adds to the dispatcher. *)
Definition addedMiddlewares (call : Registration) : list Middleware :=
  match call with
  | Use fn => [fn]
  | RegisterBlueprint blueprint => Blueprint.getMiddlewares blueprint
  | _ => []
  end.

(** The value given by the last element of a list that gives one, or the
    initial value. *)
Fixpoint lastWith {A B : Type} (f : A → option B) (l : list A) (init : option B)
    : option B :=
  match l with
  | [] => init
  | a :: l' => lastWith f l' (match f a with Some b => Some b | None => init end)
  end.

(** The handler a route call stores in a table for a path and a method,
    if it is a call for that pair. *)
Definition tableEntry (path method : string) (call : Registration) : option Handler :=
  match call with
  | Get path' h => if decide (path = path' ∧ method = "GET") then Some h else None
  | Post path' h => if decide (path = path' ∧ method = "POST") then Some h else None
  | _ => None
  end.

(** The path with the given segments, a slash before each. *)
Fixpoint joined (parts : list string) : string :=
  match parts with
  | [] => ""
  | part :: rest => "/" +:+ part +:+ joined rest
  end.

(** A plain path: "/" itself, or a slash before each of its segments, at
    least one, and nothing else; and no segment that starts with ":". *)
Definition plainPath (path : string) : bool :=
  forallb (λ part, negb (JsString.startsWith part ":")) (JsString.segments path) &&
  (bool_decide (path = "/") ||
   negb (bool_decide (path = "")) && bool_decide (path = joined (JsString.segments path))).

(** The position a request path asks for: its segments, or the key "/"
    when it has none. *)
Definition requestKeys (path : string) : list string :=
  match JsString.segments path with
  | [] => ["/"]
  | parts => parts
  end.

(** a route call with a plain path *)
Definition plainCall (call : Registration) : Prop :=
  match call with
  | Get path _ | Post path _ => plainPath path = true
  | _ => False
  end.

(** * More examples *)

Definition POSTRequest (pathname : string) : IRequest := mkRequest "POST" pathname None.

(** a handler that throws *)
Definition broken : Handler := λ _, Thrown (Error "handler failed").

(** a middleware that stores a parameter object in the request *)
Definition tagger : Middleware :=
  λ req, Returned true (setParams {["seen" := "yes"]} req).

(** a blueprint whose second GET path has no segment *)
Definition halfBlueprint : Blueprint.t :=
  Blueprint.post "/c" (respond "c")
    (Blueprint.get "/b" (respond "b")
       (Blueprint.get "//" (respond "none")
          (Blueprint.get "/a" (respond "a")
             (Blueprint.middleware logger (Blueprint.new ""))))).

(** a router with two paths, the first with both methods *)
Definition usersRouter : Router.t :=
  Router.use logger
    (Router.get "/about" (respond "about")
       (Router.post "/users" (respond "created")
          (Router.get "/users" (respond "list") Router.new))).

(** a router whose second path has no segment *)
Definition halfRouter : Router.t :=
  Router.use logger
    (Router.get "//" (respond "none")
       (Router.get "/users" (respond "list") Router.new)).

(** a dispatcher whose middleware stores [params] before the route
    [/hello/:name] is matched *)
Definition taggedApp : Bunwork.t :=
  configure [Use tagger; Get "/hello/:name" (echoParam "name"); Static "/" "./public"]
    Bunwork.new.

(** a dispatcher whose second middleware throws *)
Definition faultyApp : Bunwork.t :=
  configure [Use logger; Use faulty; Use denyAll; Get "/" (respond "home")] Bunwork.new.

(** a dispatcher with a handler that throws *)
Definition brokenApp : Bunwork.t :=
  configure [Use logger; Get "/boom" broken] Bunwork.new.

(** [/a/:x/b] beside [/a/me/c]: the request [/a/me/b] fits the first
    pattern only *)
Definition siblingCalls : list Registration :=
  [Get "/a/:x/b" (respond "dynamic"); Get "/a/me/c" (respond "literal")].

Definition siblingApp : Bunwork.t := configure siblingCalls Bunwork.new.

(** [/users/:id], and then a longer pattern with another name at the
    same place *)
Definition renamedApp : Bunwork.t :=
  configure [Get "/users/:id" (echoParam "id");
             Get "/users/:name/posts" (respond "posts")] Bunwork.new.

(** table dispatchers *)
Definition tableApp : Core.t :=
  Core.post "/users" (respond "created") (Core.get "/users" (respond "list") Core.new).

Definition brokenTable : Core.t := Core.get "/boom" broken Core.new.


(** [/u/:id] registered, then a longer pattern with another name at the
    same place, then [/u/:id] again *)
Definition firstCalls : list Registration :=
  [Get "/u/:id" (respond "first"); Get "/u/:name/posts" (echoParam "name")].

Definition againCalls : list Registration :=
  firstCalls ++ [Get "/u/:id" (respond "second")].

(** * Facts about strings *)

Section StringFacts.
Import JsString.

Lemma split_nonempty sep s : split sep s ≠ [].
Proof.
  destruct s as [|c s]; simpl; [done|].
  case_decide; [done|]. by destruct (split sep s).
Qed.

Lemma split_contains sep s piece : piece ∈ split sep s → contains sep piece = false.
Proof.
  revert piece. induction s as [|c s IH]; intros piece; simpl.
  - by intros ->%list_elem_of_singleton.
  - case_decide as Hc.
    + intros [->| ?]%elem_of_cons; [done|auto].
    + destruct (split sep s) as [|p ps] eqn:E; [by apply split_nonempty in E|].
      intros [->| ?]%elem_of_cons.
      * simpl. rewrite decide_False by done. apply IH. left.
      * apply IH. by right.
Qed.

Lemma segments_spec path part :
  part ∈ segments path → part ≠ "" ∧ contains "/" part = false.
Proof.
  unfold segments, filter_Boolean. rewrite list_elem_of_filter.
  intros [? ?]. eauto using split_contains.
Qed.

Lemma segments_slash path : segments (String "/" path) = segments path.
Proof. done. Qed.

Lemma split_app_sep sep s : split sep (s +:+ String sep "") = split sep s ++ [""].
Proof.
  induction s as [|c s IH]; simpl.
  - by rewrite decide_True.
  - case_decide; [by rewrite IH|].
    rewrite IH. by destruct (split sep s) eqn:E; [apply split_nonempty in E|].
Qed.

Lemma segments_app_slash path : segments (path +:+ "/") = segments path.
Proof.
  unfold segments, filter_Boolean. rewrite split_app_sep, filter_app.
  by rewrite filter_cons_False, filter_nil, app_nil_r by naive_solver.
Qed.

Lemma append_assoc (s1 s2 s3 : string) : (s1 +:+ s2) +:+ s3 = s1 +:+ s2 +:+ s3.
Proof.
  induction s1 as [|c s1 IH]; [done|].
  change (String c ((s1 +:+ s2) +:+ s3) = String c (s1 +:+ s2 +:+ s3)). by rewrite IH.
Qed.

Lemma append_empty_r (s : string) : s +:+ "" = s.
Proof.
  induction s as [|c s IH]; [done|].
  change (String c (s +:+ "") = String c s). by rewrite IH.
Qed.

Lemma segments_slashes_l n path : segments (slashes n +:+ path) = segments path.
Proof.
  induction n as [|n IH]; [done|]. cbn [slashes].
  change (segments (String "/" (slashes n +:+ path)) = segments path).
  by rewrite segments_slash.
Qed.

Lemma segments_slashes_r n path : segments (path +:+ slashes n) = segments path.
Proof.
  revert path. induction n as [|n IH]; intros path; cbn [slashes].
  - by rewrite append_empty_r.
  - change (String "/" (slashes n)) with ("/" +:+ slashes n).
    by rewrite <-append_assoc, IH, segments_app_slash.
Qed.

Lemma segmentKey_not_slash path part : part ∈ segments path → segmentKey part ≠ "/".
Proof.
  intros [Hne Hc]%segments_spec. unfold segmentKey.
  destruct (startsWith part ":"); [done|].
  intros ->. done.
Qed.

End StringFacts.

(** * Facts about plain objects *)

Section ObjectFacts.
Context {V : Type}.
Implicit Types (o : JsObject.t V) (test : string → bool).

Lemma firstWith_test test o r d : firstWith test o = Some (r, d) → test r = true.
Proof.
  induction o as [|[k v] o IH]; [done|]. cbn.
  destruct (test k) eqn:Hk; [|done]. by intros [= <- _].
Qed.

Lemma firstWith_get test o r d : firstWith test o = Some (r, d) → JsObject.get r o = Some d.
Proof.
  induction o as [|[k v] o IH]; [done|]. cbn.
  destruct (test k) eqn:Hk.
  - intros [= <- <-]. by rewrite decide_True.
  - intros Hfirst. rewrite decide_False; [by apply IH|].
    intros <-. apply firstWith_test in Hfirst. congruence.
Qed.

Lemma firstWith_has test o k :
  JsObject.has k o = true → test k = true → is_Some (firstWith test o).
Proof.
  unfold JsObject.has. induction o as [|[k' v'] o IH]; [done|]. cbn.
  destruct (decide (k = k')) as [<-|].
  - by intros _ ->.
  - intros. destruct (test k'); [done|]. by apply IH.
Qed.

Lemma firstWith_update test o k v :
  firstWith test (JsObject.update k v o) =
    match firstWith test o with
    | Some (r, d) => Some (r, if decide (k = r) then v else d)
    | None => None
    end.
Proof.
  induction o as [|[k' v'] o IH]; [done|]. cbn.
  destruct (decide (k = k')) as [<-|Hk]; cbn.
  - destruct (test k) eqn:Htest; [by rewrite decide_True|].
    destruct (firstWith test o) as [[r d]|] eqn:Hfirst; [|done].
    rewrite decide_False; [done|]. intros ->.
    apply firstWith_test in Hfirst. congruence.
  - destruct (test k'); [by rewrite decide_False|done].
Qed.

Lemma firstWith_add_index test o i k v :
  test k = false → firstWith test (JsObject.add_index i k v o) = firstWith test o.
Proof.
  intros Hk. induction o as [|[k' v'] o IH]; cbn; [by rewrite Hk|].
  destruct (JsObject.array_index k'); [case_decide|]; cbn; rewrite ?Hk, ?IH; done.
Qed.

Lemma firstWith_app test o k v :
  firstWith test (o ++ [(k, v)]) =
    match firstWith test o with
    | Some found => Some found
    | None => if test k then Some (k, v) else None
    end.
Proof. induction o as [|[k' v'] o IH]; [done|]. cbn. by destruct (test k'). Qed.

(** The first property that passes a test after an assignment, when no
    array index passes the test. *)
Lemma firstWith_set test o k v :
  (∀ k', test k' = true → JsObject.array_index k' = None) →
  firstWith test (JsObject.set k v o) =
    match firstWith test o with
    | Some (r, d) => Some (r, if decide (k = r) then v else d)
    | None => if test k then Some (k, v) else None
    end.
Proof.
  intros Hordinary. unfold JsObject.set.
  destruct (JsObject.has k o) eqn:Hhas.
  - rewrite firstWith_update. destruct (firstWith test o) as [[r d]|] eqn:Hfirst; [done|].
    destruct (test k) eqn:Htest; [|done].
    destruct (firstWith_has test o k Hhas Htest) as [? ?]. congruence.
  - assert (∀ r d, firstWith test o = Some (r, d) → k ≠ r) as Hfresh.
    { intros r d Hfirst%firstWith_get ->. unfold JsObject.has in Hhas. by rewrite Hfirst in Hhas. }
    destruct (JsObject.array_index k) as [i|] eqn:Hindex.
    + assert (test k = false) as Htest.
      { destruct (test k) eqn:Htest; [|done]. apply Hordinary in Htest. congruence. }
      rewrite firstWith_add_index, Htest by done.
      destruct (firstWith test o) as [[r d]|] eqn:Hfirst; [|done].
      by rewrite decide_False by eauto.
    + rewrite firstWith_app. destruct (firstWith test o) as [[r d]|] eqn:Hfirst; [|done].
      by rewrite decide_False by eauto.
Qed.

Lemma get_update o k v k' :
  JsObject.get k' (JsObject.update k v o) =
    if decide (k' = k)
    then match JsObject.get k o with Some _ => Some v | None => None end
    else JsObject.get k' o.
Proof.
  induction o as [|[k1 v1] o IH]; [by case_decide|].
  cbn [JsObject.get JsObject.update].
  destruct (decide (k = k1)) as [<-|]; cbn [JsObject.get JsObject.update]; rewrite ?IH;
    repeat case_decide; simplify_eq; done.
Qed.

Lemma get_add_index o i k v k' :
  JsObject.get k o = None →
  JsObject.get k' (JsObject.add_index i k v o) =
    if decide (k' = k) then Some v else JsObject.get k' o.
Proof.
  induction o as [|[k1 v1] o IH]; cbn [JsObject.get JsObject.add_index]; [done|].
  intros Hfresh. destruct (decide (k = k1)) as [<-|]; [done|].
  destruct (JsObject.array_index k1) as [j|]; [destruct (decide (j < i)%N)|];
    cbn [JsObject.get JsObject.add_index]; rewrite ?IH by done;
    repeat case_decide; simplify_eq; done.
Qed.

Lemma get_app o k v k' :
  JsObject.get k o = None →
  JsObject.get k' (o ++ [(k, v)]) =
    if decide (k' = k) then Some v else JsObject.get k' o.
Proof.
  induction o as [|[k1 v1] o IH]; cbn [JsObject.get app]; [done|].
  intros Hfresh. destruct (decide (k = k1)) as [<-|]; [done|].
  rewrite IH by done. repeat case_decide; simplify_eq; done.
Qed.

(** Reading after an assignment. *)
Lemma get_set o k v k' :
  JsObject.get k' (JsObject.set k v o) =
    if decide (k' = k) then Some v else JsObject.get k' o.
Proof.
  unfold JsObject.set, JsObject.has.
  destruct (JsObject.get k o) eqn:Hk.
  - rewrite get_update, Hk. by case_decide.
  - destruct (JsObject.array_index k); [by apply get_add_index|by apply get_app].
Qed.

End ObjectFacts.

(** * Facts about the route tree *)

Section TrieFacts.

Lemma nodeAt_empty keys : nodeAt keys ∅ = None.
Proof. by destruct keys. Qed.

Lemma nodeAt_cons key keys current :
  nodeAt (key :: keys) current =
    node ← current !! key;
    match keys with [] => Some node | _ => nodeAt keys (children node) end.
Proof. simpl. by destruct (current !! key). Qed.

Lemma prefix_cons_iff {A} (x y : A) l1 l2 :
  x :: l1 `prefix_of` y :: l2 ↔ x = y ∧ l1 `prefix_of` l2.
Proof.
  split.
  - eauto using prefix_cons_inv_1, prefix_cons_inv_2.
  - intros [-> ?]. by apply prefix_cons.
Qed.

Lemma prefix_nil_iff {A} (l : list A) : l `prefix_of` [] ↔ l = [].
Proof. split; [apply prefix_nil_inv|intros ->; apply prefix_nil]. Qed.

Lemma nodeAt_singleton key current : nodeAt [key] current = current !! key.
Proof. simpl. by destruct (current !! key). Qed.

Lemma nodeAt_cons_cons key key' keys current :
  nodeAt (key :: key' :: keys) current =
    nodeAt (key' :: keys) (children (nodeOrNew (current !! key))).
Proof. simpl. by destruct (current !! key). Qed.

Lemma nodeOrNew_Some node : nodeOrNew (Some node) = node.
Proof. done. Qed.

(** One round of the loop of [addRoute], as one [set] on the current map. *)
Lemma addParts_cons part rest h current :
  let found := nodeOrNew (current !! segmentKey part) in
  addParts (part :: rest) h current =
    <[segmentKey part :=
        mkRouteNode
          (addParts rest h (children found))
          (if JsString.startsWith part ":" then Some (JsString.slice 1 part)
           else paramName found)
          (match rest with [] => Some h | _ :: _ => handler found end)]> current.
Proof.
  cbn [addParts]. unfold nodeOrNew.
  by destruct (current !! segmentKey part), (JsString.startsWith part ":"), rest.
Qed.

Lemma handlerAt_addParts parts h keys current :
  parts ≠ [] →
  handlerAt keys (addParts parts h current) =
    if decide (keys = segmentKey <$> parts) then Some h else handlerAt keys current.
Proof.
  unfold handlerAt.
  revert keys current. induction parts as [|part rest IH]; intros keys current Hne; [done|].
  destruct keys as [|key keys]; [by rewrite decide_False|].
  rewrite addParts_cons, fmap_cons. cbv zeta.
  destruct (decide (key = segmentKey part)) as [->|Hkey].
  - destruct keys as [|key' keys].
    + rewrite !nodeAt_singleton, lookup_insert_eq. cbn [mbind option_bind handler].
      destruct rest as [|part' rest].
      * by rewrite decide_True.
      * rewrite decide_False by done. by destruct (current !! segmentKey part).
    + rewrite !nodeAt_cons_cons, lookup_insert_eq, nodeOrNew_Some. cbn [children].
      destruct rest as [|part' rest].
      * by rewrite decide_False.
      * rewrite IH by done. repeat case_decide; simplify_list_eq; done.
  - rewrite decide_False by congruence.
    destruct keys; by rewrite ?nodeAt_singleton, ?nodeAt_cons_cons, lookup_insert_ne.
Qed.

Lemma nodeAt_addParts_is_Some parts h keys current :
  is_Some (nodeAt keys (addParts parts h current)) ↔
    is_Some (nodeAt keys current) ∨ (keys ≠ [] ∧ keys `prefix_of` (segmentKey <$> parts)).
Proof.
  revert keys current. induction parts as [|part rest IH]; intros keys current.
  { simpl. rewrite prefix_nil_iff. naive_solver. }
  destruct keys as [|key keys].
  { simpl. rewrite is_Some_alt. naive_solver. }
  rewrite addParts_cons, fmap_cons, prefix_cons_iff. cbv zeta.
  destruct (decide (key = segmentKey part)) as [->|Hkey].
  - destruct keys as [|key' keys].
    + rewrite !nodeAt_singleton, lookup_insert_eq.
      split; [|done]. intros _. right. eauto using prefix_nil.
    + rewrite !nodeAt_cons_cons, lookup_insert_eq, nodeOrNew_Some. cbn [children].
      rewrite IH. naive_solver.
  - destruct keys; rewrite ?nodeAt_singleton, ?nodeAt_cons_cons, lookup_insert_ne by done;
      naive_solver.
Qed.

Lemma paramNameAt_addParts parts h keys current :
  paramNameAt keys (addParts parts h current) =
    match namedBy parts keys with
    | Some name => Some name
    | None => paramNameAt keys current
    end.
Proof.
  unfold paramNameAt.
  revert keys current. induction parts as [|part rest IH]; intros keys current; [done|].
  destruct keys as [|key keys]; [done|].
  rewrite addParts_cons. cbv zeta. cbn [namedBy].
  destruct (decide (key = segmentKey part)) as [->|Hkey].
  - destruct keys as [|key' keys].
    + rewrite !nodeAt_singleton, lookup_insert_eq. cbn [mbind option_bind paramName].
      destruct (JsString.startsWith part ":"); [done|].
      by destruct (current !! segmentKey part).
    + rewrite !nodeAt_cons_cons, lookup_insert_eq, nodeOrNew_Some. cbn [children].
      by rewrite IH.
  - destruct keys; by rewrite ?nodeAt_singleton, ?nodeAt_cons_cons, lookup_insert_ne.
Qed.

Lemma nodeAt_app keys keys' current node :
  keys' ≠ [] →
  nodeAt keys current = Some node →
  nodeAt (keys ++ keys') current = nodeAt keys' (children node).
Proof.
  intros Hne. revert current. induction keys as [|key keys IH]; intros current; [done|].
  destruct keys as [|key1 keys].
  - rewrite nodeAt_singleton. intros Hkey. cbn [app].
    destruct keys' as [|key' keys']; [done|].
    by rewrite nodeAt_cons_cons, Hkey.
  - rewrite <-!app_comm_cons, !nodeAt_cons_cons. apply IH.
Qed.

Lemma nodeAt_snoc_is_Some keys key current :
  is_Some (nodeAt (keys ++ [key]) current) →
  keys = [] ∨ is_Some (nodeAt keys current).
Proof.
  revert current. induction keys as [|key0 keys IH]; intros current; [by left|].
  intros Hsome. right. destruct keys as [|key1 keys].
  - cbn [app] in Hsome. rewrite nodeAt_cons_cons in Hsome. rewrite nodeAt_singleton.
    destruct (current !! key0); [done|]. by rewrite nodeAt_empty in Hsome.
  - rewrite <-!app_comm_cons, nodeAt_cons_cons in Hsome. rewrite nodeAt_cons_cons.
    by destruct (IH _ Hsome).
Qed.

(** *** The loop of [matchRoute] *)

Lemma matchParts_app parts parts' current params node :
  matchParts (parts ++ parts') current params node =
    match matchParts parts current params node with
    | Some (current', params', node') => matchParts parts' current' params' node'
    | None => None
    end.
Proof.
  revert current params node. induction parts as [|part parts IH]; intros; [done|].
  cbn [app matchParts].
  destruct (current !! part); [apply IH|]. destruct (current !! ":"); [apply IH|done].
Qed.

Lemma matchParts_literal part parts current params node0 found :
  current !! part = Some found →
  matchParts (part :: parts) current params node0 =
    matchParts parts (children found) params (Some found).
Proof. intros Hpart. cbn [matchParts]. by rewrite Hpart. Qed.

Lemma matchParts_dynamic part parts current params node0 found :
  current !! part = None →
  current !! ":" = Some found →
  matchParts (part :: parts) current params node0 =
    matchParts parts (children found) (bindParam found part params) (Some found).
Proof. intros Hpart Hdyn. cbn [matchParts]. by rewrite Hpart, Hdyn. Qed.

(** Segments that are keys of the tree are followed as they are. *)
Lemma matchParts_exact parts current params node0 node :
  nodeAt parts current = Some node →
  matchParts parts current params node0 = Some (children node, params, Some node).
Proof.
  revert current node0. induction parts as [|part parts IH]; intros current node0; [done|].
  destruct parts as [|part' parts].
  - rewrite nodeAt_singleton. intros Hpart. by rewrite (matchParts_literal _ _ _ _ _ _ Hpart).
  - rewrite nodeAt_cons_cons. intros Hnode.
    destruct (current !! part) as [found|] eqn:Hpart.
    + rewrite (matchParts_literal _ _ _ _ _ _ Hpart). by apply IH.
    + by rewrite nodeAt_empty in Hnode.
Qed.

(** The loop lands on the node at the position of the keys it took. *)
Lemma matchParts_landed parts current params node0 current' params' node' :
  parts ≠ [] →
  matchParts parts current params node0 = Some (current', params', node') →
  ∃ keys node,
    node' = Some node ∧ current' = children node ∧
    nodeAt keys current = Some node ∧ Forall2 keyTaken keys parts.
Proof.
  revert current params node0.
  induction parts as [|part parts IH]; intros current params node0 Hne; [done|].
  cbn [matchParts].
  assert (∀ key found ps,
    current !! key = Some found → keyTaken key part →
    matchParts parts (children found) ps (Some found) = Some (current', params', node') →
    ∃ keys node, node' = Some node ∧ current' = children node ∧
      nodeAt keys current = Some node ∧ Forall2 keyTaken keys (part :: parts)) as Hstep.
  { intros key found ps Hkey Htaken Hrest. destruct parts as [|part' parts].
    - simplify_eq/=. exists [key], found. rewrite nodeAt_singleton. eauto.
    - apply IH in Hrest as (keys & node & ? & ? & Hnode & Hkeys); [|done].
      exists (key :: keys), node. split_and!; [done..| |by constructor].
      destruct keys as [|key' keys]; [by inversion Hkeys|].
      by rewrite nodeAt_cons_cons, Hkey. }
  destruct (current !! part) as [found|] eqn:Hpart.
  { apply Hstep with part; [done|by left]. }
  destruct (current !! ":") as [found|] eqn:Hdyn; [|done].
  apply Hstep with ":"; [done|by right].
Qed.

(** *** Storing a route *)

Lemma segmentKey_dynamic part :
  JsString.startsWith (segmentKey part) ":" = true → segmentKey part = ":".
Proof. unfold segmentKey. destruct (JsString.startsWith part ":") eqn:E; congruence. Qed.

Lemma segmentKey_literal part :
  JsString.startsWith part ":" = false → segmentKey part = part.
Proof. unfold segmentKey. by intros ->. Qed.

Lemma patternKeys_segments path keys :
  path ≠ "/" → patternKeys path = Some keys →
  keys = segmentKey <$> JsString.segments path ∧ JsString.segments path ≠ [].
Proof.
  unfold patternKeys. intros Hpath. rewrite decide_False by done.
  destruct (JsString.segments path); naive_solver.
Qed.

Lemma patternKeys_not_nil path keys : patternKeys path = Some keys → keys ≠ [].
Proof.
  destruct (decide (path = "/")) as [->|Hpath]; [by intros [= <-]|].
  intros [-> ?]%patternKeys_segments; [|done]. by destruct (JsString.segments path).
Qed.

Lemma patternKeys_head path key keys :
  path ≠ "/" → patternKeys path = Some (key :: keys) → key ≠ "/".
Proof.
  intros Hpath [Hkeys Hne]%patternKeys_segments; [|done].
  destruct (JsString.segments path) as [|part parts] eqn:Hparts; [done|].
  simplify_eq/=. apply (segmentKey_not_slash path). rewrite Hparts. left.
Qed.

Lemma addRoute_Normal m path h app app' :
  Bunwork.addRoute m path h app = Normal app' ↔
    is_Some (patternKeys path) ∧
    app' = Bunwork.mk (Bunwork.middlewares app)
             (with_root m (storeRoute path h (root m (Bunwork.routes app))) (Bunwork.routes app))
             (Bunwork.staticRoutes app).
Proof.
  unfold Bunwork.addRoute, patternKeys, storeRoute.
  destruct (decide (path = "/")); [naive_solver|].
  destruct (JsString.segments path); [|naive_solver].
  split; [done|]. by intros [[] _].
Qed.

Lemma addRoute_Thrown m path h app e :
  Bunwork.addRoute m path h app = Thrown e → patternKeys path = None.
Proof.
  unfold Bunwork.addRoute, patternKeys.
  destruct (decide (path = "/")); [done|].
  by destruct (JsString.segments path).
Qed.

Lemma addRoute_rejects m path h app :
  patternKeys path = None →
  Bunwork.addRoute m path h app =
    Thrown (Error "Failed to add route handler. Node is undefined.").
Proof.
  unfold Bunwork.addRoute, patternKeys.
  destruct (decide (path = "/")); [done|].
  by destruct (JsString.segments path).
Qed.

Lemma root_with_root m m' r routes :
  root m' (with_root m r routes) = if decide (m' = m) then r else root m' routes.
Proof. by destruct m, m'. Qed.

Lemma namedBy_snoc parts keys key name :
  namedBy parts (keys ++ [key]) = Some name → key = ":".
Proof.
  revert keys. induction parts as [|part parts IH]; intros keys; [done|].
  destruct keys as [|key0 keys]; cbn [app namedBy]; case_decide; try done.
  - destruct (JsString.startsWith part ":") eqn:E; [|done].
    intros _. subst. unfold segmentKey. by rewrite E.
  - destruct keys; apply IH.
Qed.

Section storeRoute.
Context (path : string) (h : Handler) (current : RouteMap) (own : list string).
Context (Hown : patternKeys path = Some own).
Context (Hroot : ∀ keys, keys ≠ [] → nodeAt ("/" :: keys) current = None).

Lemma handlerAt_storeRoute keys :
  handlerAt keys (storeRoute path h current) =
    if decide (keys = own) then Some h else handlerAt keys current.
Proof using Hown Hroot.
  unfold storeRoute. destruct (decide (path = "/")) as [->|Hpath].
  - injection Hown as <-. unfold handlerAt. destruct keys as [|key [|key' keys]]; [done|..].
    + rewrite !nodeAt_singleton. destruct (decide (key = "/")) as [->|].
      * by rewrite lookup_insert_eq, decide_True.
      * rewrite lookup_insert_ne by done. rewrite decide_False; [done|congruence].
    + rewrite decide_False by done. rewrite nodeAt_cons_cons.
      destruct (decide (key = "/")) as [->|].
      * rewrite lookup_insert_eq, Hroot, nodeOrNew_Some by done.
        cbn [children]. by rewrite nodeAt_empty.
      * rewrite lookup_insert_ne by done. by rewrite <-nodeAt_cons_cons.
  - apply patternKeys_segments in Hown as [-> ?]; [|done]. by apply handlerAt_addParts.
Qed.

Lemma nodeAt_storeRoute_is_Some keys :
  is_Some (nodeAt keys (storeRoute path h current)) ↔
    is_Some (nodeAt keys current) ∨ (keys ≠ [] ∧ keys `prefix_of` own).
Proof using Hown Hroot.
  unfold storeRoute. destruct (decide (path = "/")) as [->|Hpath].
  - injection Hown as <-. destruct keys as [|key [|key' keys]].
    + simpl. rewrite is_Some_alt. naive_solver.
    + rewrite !nodeAt_singleton, prefix_cons_iff. destruct (decide (key = "/")) as [->|].
      * rewrite lookup_insert_eq. split; [|done]. intros _. right. eauto using prefix_nil.
      * rewrite lookup_insert_ne by done. naive_solver.
    + rewrite !prefix_cons_iff, prefix_nil_iff, !nodeAt_cons_cons.
      destruct (decide (key = "/")) as [->|].
      * rewrite lookup_insert_eq, nodeOrNew_Some. cbn [children].
        rewrite nodeAt_empty, <-nodeAt_cons_cons, Hroot by done.
        rewrite !is_Some_alt. naive_solver.
      * rewrite lookup_insert_ne by done. naive_solver.
  - apply patternKeys_segments in Hown as [-> ?]; [|done]. apply nodeAt_addParts_is_Some.
Qed.

Lemma paramNameAt_storeRoute keys :
  (∀ name, paramNameAt ["/"] current ≠ Some name) →
  paramNameAt keys (storeRoute path h current) =
    if decide (path = "/") then paramNameAt keys current
    else match namedBy (JsString.segments path) keys with
         | Some name => Some name
         | None => paramNameAt keys current
         end.
Proof using Hown Hroot.
  intros Hslash. unfold storeRoute. destruct (decide (path = "/")) as [->|Hpath].
  - unfold paramNameAt in *. destruct keys as [|key [|key' keys]]; [done|..].
    + rewrite !nodeAt_singleton. destruct (decide (key = "/")) as [->|].
      * rewrite lookup_insert_eq. rewrite nodeAt_singleton in Hslash. cbn.
        destruct (current !! "/" ≫= paramName) eqn:E; [by destruct (Hslash s)|done].
      * by rewrite lookup_insert_ne.
    + rewrite !nodeAt_cons_cons. destruct (decide (key = "/")) as [->|].
      * rewrite lookup_insert_eq, nodeOrNew_Some. cbn [children].
        by rewrite nodeAt_empty, <-nodeAt_cons_cons, Hroot.
      * by rewrite lookup_insert_ne.
  - apply paramNameAt_addParts.
Qed.

End storeRoute.

(** *** The invariant of the route tree *)

Lemma routeInvariant_empty : routeInvariant ∅ [].
Proof.
  split.
  - intros keys. unfold handlerAt. rewrite nodeAt_empty. cbn. rewrite is_Some_alt.
    split; [done|]. by intros (? & ?%elem_of_nil & _).
  - intros keys key. rewrite nodeAt_empty. by intros [].
  - intros keys key. unfold paramNameAt. rewrite nodeAt_empty. by intros [].
  - intros keys _. apply nodeAt_empty.
Qed.

Lemma routeInvariant_storeRoute current patterns path h :
  routeInvariant current patterns →
  is_Some (patternKeys path) →
  routeInvariant (storeRoute path h current) (patterns ++ [path]).
Proof.
  intros [Hhandler Hdynamic HparamName Hroot] [own Hown].
  assert (∀ name, paramNameAt ["/"] current ≠ Some name) as Hslash.
  { intros name Hname. by specialize (HparamName [] "/" (mk_is_Some _ _ Hname)). }
  split.
  - intros keys. rewrite (handlerAt_storeRoute _ _ _ _ Hown Hroot).
    setoid_rewrite elem_of_app. setoid_rewrite list_elem_of_singleton.
    case_decide as Hkeys.
    + subst. split; [eauto|done].
    + rewrite Hhandler. split; [naive_solver|].
      intros (path' & [?| ->] & ?); [eauto|congruence].
  - intros keys key [Hold|[_ Hprefix]]%(nodeAt_storeRoute_is_Some _ _ _ _ Hown Hroot) Hkey.
    { by apply (Hdynamic keys). }
    assert (key ∈ own) as Hin.
    { destruct Hprefix as [rest ->]. set_solver. }
    destruct (decide (path = "/")) as [->|Hpath].
    { injection Hown as <-. by apply list_elem_of_singleton in Hin as ->. }
    apply patternKeys_segments in Hown as [-> _]; [|done].
    apply list_elem_of_fmap in Hin as (part & -> & _). by apply segmentKey_dynamic.
  - intros keys key. rewrite (paramNameAt_storeRoute _ _ _ _ Hown Hroot) by done.
    case_decide; [apply HparamName|].
    destruct (namedBy _ _) eqn:Hnamed; [|apply HparamName].
    intros _. by apply namedBy_snoc in Hnamed.
  - intros keys Hkeys. apply eq_None_not_Some.
    intros [Hold|[_ Hprefix]]%(nodeAt_storeRoute_is_Some _ _ _ _ Hown Hroot).
    { rewrite Hroot in Hold by done. by destruct Hold. }
    destruct own as [|key own]; [by apply prefix_nil_inv in Hprefix|].
    apply prefix_cons_iff in Hprefix as [<- Hprefix].
    destruct (decide (path = "/")) as [->|Hpath].
    + injection Hown as <-. by apply prefix_nil_inv in Hprefix.
    + by eapply patternKeys_head.
Qed.

End TrieFacts.

(** * Registering a pattern again, and matching it *)

Section Reregistration.

Lemma addParts_again parts h1 h2 current :
  addParts parts h2 (addParts parts h1 current) = addParts parts h2 current.
Proof.
  revert current. induction parts as [|part rest IH]; intros current; [done|].
  rewrite (addParts_cons part rest h1 current). cbv zeta.
  rewrite (addParts_cons part rest h2 (<[_ := _]> current)). cbv zeta.
  rewrite lookup_insert_eq, nodeOrNew_Some, insert_insert_eq. cbn [children paramName handler].
  rewrite IH, (addParts_cons part rest h2 current). cbv zeta.
  by destruct (JsString.startsWith part ":"), rest.
Qed.

Lemma storeRoute_again path h1 h2 current :
  storeRoute path h2 (storeRoute path h1 current) = storeRoute path h2 current.
Proof.
  unfold storeRoute. case_decide; [apply insert_insert_eq|apply addParts_again].
Qed.

Lemma dynamicKeysShared_children current key :
  dynamicKeysShared current →
  dynamicKeysShared (children (nodeOrNew (current !! key))).
Proof.
  intros Hshared keys key'. specialize (Hshared (key :: keys) key').
  rewrite <-app_comm_cons in Hshared.
  destruct (keys ++ [key']) as [|key1 keys1] eqn:Hkeys; [by destruct keys|].
  by rewrite nodeAt_cons_cons in Hshared.
Qed.

(** Matching the segments of a pattern that has just been registered
    lands on the node of the pattern. *)
Lemma matchParts_own_pattern parts h current params node0 :
  dynamicKeysShared current →
  parts ≠ [] →
  ∃ params' node,
    matchParts parts (addParts parts h current) params node0 =
      Some (children node, params', Some node) ∧
    handler node = Some h.
Proof.
  revert current params node0.
  induction parts as [|part rest IH]; intros current params node0 Hshared Hne; [done|].
  clear Hne. rewrite addParts_cons. cbv zeta.
  set (found := nodeOrNew (current !! segmentKey part)).
  set (stored := mkRouteNode _ _ _).
  assert (∀ params1,
    ∃ params' node,
      matchParts rest (children stored) params1 (Some stored) =
        Some (children node, params', Some node) ∧ handler node = Some h) as Hrest.
  { intros params1. destruct rest as [|part' rest'].
    - by exists params1, stored.
    - apply IH; [|done]. by apply dynamicKeysShared_children. }
  destruct (decide (segmentKey part = part)) as [Hkey|Hkey].
  - rewrite (matchParts_literal part rest _ _ _ stored); [done|].
    by apply lookup_insert_Some; left.
  - assert (segmentKey part = ":" ∧ JsString.startsWith part ":" = true) as [Hdyn Hcolon].
    { unfold segmentKey in *. by destruct (JsString.startsWith part ":"). }
    rewrite (matchParts_dynamic part rest _ _ _ stored); [done| |].
    + rewrite lookup_insert_ne by done. apply eq_None_not_Some. intros Hsome.
      destruct Hkey. rewrite Hdyn. symmetry. apply (Hshared [] part); [|done].
      cbn [app]. by rewrite nodeAt_singleton.
    + by apply lookup_insert_Some; left.
Qed.

(** *** Route trees that differ in the handler of some positions only *)

Lemma sameRoutesExcept_lookup changed c1 c2 key :
  sameRoutesExcept changed c1 c2 →
  match c1 !! key, c2 !! key with
  | Some n1, Some n2 =>
      paramName n1 = paramName n2 ∧
      (¬ changed [key] → handler n1 = handler n2) ∧
      sameRoutesExcept (λ keys, changed (key :: keys)) (children n1) (children n2)
  | None, None => True
  | _, _ => False
  end.
Proof.
  intros Hsame. destruct (Hsame [key]) as (Hsome & Hname & Hh).
  unfold paramNameAt, handlerAt in *. rewrite !nodeAt_singleton in *.
  destruct (c1 !! key) as [n1|] eqn:H1, (c2 !! key) as [n2|] eqn:H2;
    [|by rewrite !is_Some_alt in Hsome; destruct Hsome..|done].
  split_and!; [done..|]. intros keys. specialize (Hsame (key :: keys)).
  unfold paramNameAt, handlerAt in *.
  destruct keys as [|key' keys]; [done|].
  by rewrite !nodeAt_cons_cons, H1, H2 in Hsame.
Qed.

Lemma bindParam_paramName n1 n2 part params :
  paramName n1 = paramName n2 → bindParam n1 part params = bindParam n2 part params.
Proof. unfold bindParam. by intros ->. Qed.

(** The walks of [matchRoute] in two such trees take the same keys and
    bind the same parameters. *)
Lemma matchParts_sameRoutes changed c1 c2 parts params node1 node2 :
  sameRoutesExcept changed c1 c2 →
  parts ≠ [] →
  match matchParts parts c1 params node1, matchParts parts c2 params node2 with
  | Some (_, params1, Some n1), Some (_, params2, Some n2) =>
      params1 = params2 ∧
      ∃ keys, nodeAt keys c1 = Some n1 ∧ nodeAt keys c2 = Some n2
  | None, None => True
  | _, _ => False
  end.
Proof.
  revert changed c1 c2 params node1 node2.
  induction parts as [|part rest IH]; intros changed c1 c2 params node1 node2 Hsame Hne; [done|].
  clear Hne.
  assert (∀ key n1 n2 params',
    c1 !! key = Some n1 → c2 !! key = Some n2 →
    sameRoutesExcept (λ keys, changed (key :: keys)) (children n1) (children n2) →
    match matchParts rest (children n1) params' (Some n1),
          matchParts rest (children n2) params' (Some n2) with
    | Some (_, params1, Some n1), Some (_, params2, Some n2) =>
        params1 = params2 ∧
        ∃ keys, nodeAt keys c1 = Some n1 ∧ nodeAt keys c2 = Some n2
    | None, None => True
    | _, _ => False
    end) as Hstep.
  { intros key n1 n2 params' H1 H2 Hchildren. destruct rest as [|part' rest'].
    - cbn. split; [done|]. exists [key]. by rewrite !nodeAt_singleton.
    - specialize (IH _ _ _ params' (Some n1) (Some n2) Hchildren ltac:(done)).
      destruct (matchParts (part' :: rest') (children n1) params' (Some n1))
        as [[[? ?] [?|]]|];
        destruct (matchParts (part' :: rest') (children n2) params' (Some n2))
          as [[[? ?] [?|]]|]; try done.
      destruct IH as (-> & keys & Hk1 & Hk2). split; [done|]. exists (key :: keys).
      destruct keys as [|key' keys]; [done|].
      by rewrite !nodeAt_cons_cons, H1, H2. }
  pose proof (sameRoutesExcept_lookup _ _ _ part Hsame) as Hpart.
  pose proof (sameRoutesExcept_lookup _ _ _ ":" Hsame) as Hdyn.
  cbn [matchParts].
  destruct (c1 !! part) as [n1|] eqn:H1, (c2 !! part) as [n2|] eqn:H2; try done.
  { destruct Hpart as (_ & _ & ?). by apply (Hstep part). }
  destruct (c1 !! ":") as [d1|] eqn:Hd1, (c2 !! ":") as [d2|] eqn:Hd2; try done.
  destruct Hdyn as (Hname & _ & ?).
  rewrite (bindParam_paramName d1 d2 _ _ Hname). by apply (Hstep ":").
Qed.

End Reregistration.

(** * Facts about registration *)

Section RegistrationFacts.

Lemma routable_spec path : routable path = true ↔ is_Some (patternKeys path).
Proof. unfold routable. destruct (patternKeys path); rewrite is_Some_alt; naive_solver. Qed.

Lemma addRoute_routes m path h app app' :
  Bunwork.addRoute m path h app = Normal app' →
  routable path = true ∧
  Bunwork.middlewares app' = Bunwork.middlewares app ∧
  Bunwork.staticRoutes app' = Bunwork.staticRoutes app ∧
  ∀ m', root m' (Bunwork.routes app') =
        if decide (m' = m) then storeRoute path h (root m (Bunwork.routes app))
        else root m' (Bunwork.routes app).
Proof.
  intros [Hkeys ->]%addRoute_Normal. rewrite routable_spec.
  split_and!; [done..|]. intros m'. cbn. apply root_with_root.
Qed.

(** The state reached by the inner loop of [registerBlueprint]. *)
Lemma addRoutes_invariant m entries app (patterns : Method → list string) :
  (∀ m', routeInvariant (root m' (Bunwork.routes app)) (patterns m')) →
  ∀ m', routeInvariant (root m' (Bunwork.routes (Bunwork.addRoutes m entries app).1))
          (if decide (m' = m) then patterns m' ++ storedOf entries else patterns m').
Proof.
  revert app patterns. induction entries as [|[path h] entries IH]; intros app patterns Hinv m'.
  { cbn. case_decide; by rewrite ?app_nil_r. }
  cbn [Bunwork.addRoutes storedOf].
  destruct (Bunwork.addRoute m path h app) as [app'|e] eqn:Hadd.
  - apply addRoute_routes in Hadd as (Hroutable & _ & _ & Hroots). rewrite Hroutable.
    assert (∀ m', routeInvariant (root m' (Bunwork.routes app'))
              (if decide (m' = m) then patterns m' ++ [path] else patterns m')) as Hinv'.
    { intros m''. rewrite Hroots. case_decide; [subst|done].
      apply routeInvariant_storeRoute; [done|by apply routable_spec]. }
    specialize (IH app' _ Hinv' m'). cbn beta in IH.
    case_decide; [|done]. by rewrite <-app_assoc in IH.
  - apply addRoute_Thrown in Hadd. unfold routable. rewrite Hadd. cbn.
    case_decide; by rewrite ?app_nil_r.
Qed.

Lemma addRoutes_completion m entries app :
  (Bunwork.addRoutes m entries app).2 = Normal tt ↔
  forallb (λ entry, routable entry.1) entries = true.
Proof.
  revert app. induction entries as [|[path h] entries IH]; intros app; [done|].
  cbn [Bunwork.addRoutes forallb fst].
  destruct (Bunwork.addRoute m path h app) as [app'|e] eqn:Hadd.
  - apply addRoute_routes in Hadd as (-> & _). apply IH.
  - apply addRoute_Thrown in Hadd. unfold routable. by rewrite Hadd.
Qed.

Lemma addRoutes_rest m entries app :
  Bunwork.middlewares (Bunwork.addRoutes m entries app).1 = Bunwork.middlewares app ∧
  Bunwork.staticRoutes (Bunwork.addRoutes m entries app).1 = Bunwork.staticRoutes app.
Proof.
  revert app. induction entries as [|[path h] entries IH]; intros app; [done|].
  cbn [Bunwork.addRoutes].
  destruct (Bunwork.addRoute m path h app) as [app'|e] eqn:Hadd; [|done].
  apply addRoute_routes in Hadd as (_ & <- & <- & _). apply IH.
Qed.

Lemma register_invariant call app (patterns : Method → list string) :
  (∀ m, routeInvariant (root m (Bunwork.routes app)) (patterns m)) →
  ∀ m, routeInvariant (root m (Bunwork.routes (register call app)))
         (patterns m ++ stored m call).
Proof.
  intros Hinv m. destruct call as [path h|path h|fn|route dir|blueprint]; cbn [register stored].
  - pose proof (addRoutes_invariant GET [(path, h)] app patterns Hinv m) as Hloop.
    cbn [Bunwork.addRoutes] in Hloop. unfold Bunwork.get.
    destruct (Bunwork.addRoute GET path h app), m; by rewrite ?app_nil_r in *.
  - pose proof (addRoutes_invariant POST [(path, h)] app patterns Hinv m) as Hloop.
    cbn [Bunwork.addRoutes] in Hloop. unfold Bunwork.post.
    destruct (Bunwork.addRoute POST path h app), m; by rewrite ?app_nil_r in *.
  - destruct m; by rewrite app_nil_r.
  - unfold Bunwork.static. case_decide; destruct m; by rewrite app_nil_r.
  - unfold Bunwork.registerBlueprint. cbn zeta.
    set (app0 := Bunwork.mk _ _ _).
    pose proof (addRoutes_invariant GET
      (JsObject.entries (Blueprint.getRoutes blueprint GET)) app0 patterns Hinv) as Hget.
    pose proof (addRoutes_completion GET
      (JsObject.entries (Blueprint.getRoutes blueprint GET)) app0) as Hdone.
    destruct (Bunwork.addRoutes GET _ app0) as [app1 [[]|e]]; cbn [fst snd] in *.
    + apply proj1 in Hdone. unfold JsObject.entries in *. cbn [Blueprint.getRoutes] in *.
      rewrite (Hdone eq_refl).
      pose proof (addRoutes_invariant POST (Blueprint.POST_routes blueprint) app1 _ Hget m)
        as Hpost.
      specialize (Hget m). destruct m; cbn in *; by rewrite ?app_nil_r in *.
    + unfold JsObject.entries in *. cbn [Blueprint.getRoutes] in *.
      destruct (forallb _ _) eqn:Hall; [by destruct Hdone as [_ Hdone]; specialize (Hdone eq_refl)|].
      specialize (Hget m). destruct m; cbn in *; by rewrite ?app_nil_r in *.
Qed.

Lemma configure_snoc calls call app :
  configure (calls ++ [call]) app = register call (configure calls app).
Proof. unfold configure. by rewrite foldl_app. Qed.

Lemma registered_snoc m calls call :
  registered m (calls ++ [call]) = registered m calls ++ stored m call.
Proof. unfold registered. rewrite bind_app. cbn. by rewrite app_nil_r. Qed.

Lemma configure_invariant calls m :
  routeInvariant (root m (Bunwork.routes (configure calls Bunwork.new))) (registered m calls).
Proof.
  revert m. induction calls as [|call calls IH] using rev_ind; intros m.
  - destruct m; apply routeInvariant_empty.
  - rewrite configure_snoc, registered_snoc.
    by apply (register_invariant call _ (λ m, registered m calls)).
Qed.

End RegistrationFacts.

(** * Facts about matching *)

Section MatchFacts.

Lemma matchRoute_landing m path app :
  Bunwork.matchRoute m path app =
    landing (matchParts (JsString.segments path) (root m (Bunwork.routes app)) ∅ None).
Proof.
  unfold Bunwork.matchRoute, landing.
  by destruct (decide (path = "/")) as [->|].
Qed.

(** The result of a match over at least one segment is the handler of the
    node at the position of the keys taken. *)
Lemma matchRoute_handlerAt m path app h params :
  Bunwork.matchRoute m path app = Some (h, params) →
  ∃ keys,
    handlerAt keys (root m (Bunwork.routes app)) = Some h ∧
    (JsString.segments path = [] ∧ keys = ["/"] ∧ params = ∅ ∨
     Forall2 keyTaken keys (JsString.segments path)).
Proof.
  rewrite matchRoute_landing. unfold landing, handlerAt.
  destruct (JsString.segments path) as [|part parts] eqn:Hparts.
  - cbn [matchParts]. intros Hroot. exists ["/"]. rewrite nodeAt_singleton.
    destruct (_ !! "/") as [node|]; [|done]. cbn.
    destruct (handler node); naive_solver.
  - destruct (matchParts _ _ _ _) as [[[current params'] node]|] eqn:Hloop; [|done].
    apply matchParts_landed in Hloop as (keys & found & -> & -> & Hfound & Hkeys); [|done].
    intros Hh. exists keys. rewrite Hfound. cbn.
    destruct (handler found); naive_solver.
Qed.

(** A path whose segments are the keys of a position is matched by the
    node at that position, without any parameter. *)
Lemma matchRoute_exact m path app h :
  handlerAt (JsString.segments path) (root m (Bunwork.routes app)) = Some h →
  Bunwork.matchRoute m path app = Some (h, ∅).
Proof.
  unfold handlerAt. intros Hh.
  destruct (nodeAt _ _) as [node|] eqn:Hnode; [|done].
  rewrite matchRoute_landing, (matchParts_exact _ _ _ _ _ Hnode). cbn in *. by rewrite Hh.
Qed.

Lemma Configured_invariant app m :
  Configured app → ∃ patterns, routeInvariant (root m (Bunwork.routes app)) patterns.
Proof. intros [calls ->]. eauto using configure_invariant. Qed.

Lemma Configured_addRoute m path h app app' :
  Configured app → Bunwork.addRoute m path h app = Normal app' → Configured app'.
Proof.
  intros [calls ->] Hadd.
  exists (calls ++ [match m with GET => Get path h | POST => Post path h end]).
  rewrite configure_snoc. destruct m; cbn; unfold Bunwork.get, Bunwork.post; by rewrite Hadd.
Qed.

Lemma handlerAt_addRoute m path h app app' m' keys :
  Configured app →
  Bunwork.addRoute m path h app = Normal app' →
  handlerAt keys (root m' (Bunwork.routes app')) =
    if decide (m' = m ∧ patternKeys path = Some keys) then Some h
    else handlerAt keys (root m' (Bunwork.routes app)).
Proof.
  intros [patterns [_ _ _ Hroot]]%(Configured_invariant _ m) Hadd.
  pose proof Hadd as [[own Hown] _]%addRoute_Normal.
  apply addRoute_routes in Hadd as (_ & _ & _ & ->).
  destruct (decide (m' = m)) as [->|]; [|by rewrite decide_False by naive_solver].
  rewrite (handlerAt_storeRoute _ _ _ _ Hown Hroot).
  repeat case_decide; naive_solver.
Qed.

Lemma nodeAt_addRoute_is_Some m path h app app' m' keys :
  Configured app →
  Bunwork.addRoute m path h app = Normal app' →
  is_Some (nodeAt keys (root m' (Bunwork.routes app'))) ↔
    is_Some (nodeAt keys (root m' (Bunwork.routes app))) ∨
    (m' = m ∧ keys ≠ [] ∧ ∃ own, patternKeys path = Some own ∧ keys `prefix_of` own).
Proof.
  intros [patterns [_ _ _ Hroot]]%(Configured_invariant _ m) Hadd.
  pose proof Hadd as [[own Hown] _]%addRoute_Normal.
  apply addRoute_routes in Hadd as (_ & _ & _ & ->).
  destruct (decide (m' = m)) as [->|]; [|naive_solver].
  rewrite (nodeAt_storeRoute_is_Some _ _ _ _ Hown Hroot). naive_solver.
Qed.

Lemma paramNameAt_addRoute m path h app app' m' keys :
  Configured app →
  Bunwork.addRoute m path h app = Normal app' →
  paramNameAt keys (root m' (Bunwork.routes app')) =
    match (if decide (m' = m ∧ path ≠ "/")
           then namedBy (JsString.segments path) keys else None) with
    | Some name => Some name
    | None => paramNameAt keys (root m' (Bunwork.routes app))
    end.
Proof.
  intros [patterns [_ _ Hname Hroot]]%(Configured_invariant _ m) Hadd.
  pose proof Hadd as [[own Hown] _]%addRoute_Normal.
  apply addRoute_routes in Hadd as (_ & _ & _ & ->).
  destruct (decide (m' = m)) as [->|]; [|by rewrite decide_False by naive_solver].
  rewrite (paramNameAt_storeRoute _ _ _ _ Hown Hroot).
  - repeat case_decide; naive_solver.
  - intros name Hslash. by specialize (Hname [] "/" (mk_is_Some _ _ Hslash)).
Qed.

(** Registering a pattern that is already registered changes the handler
    at the position of the pattern and nothing else. *)
Lemma sameRoutesExcept_again current patterns pattern own h1 h2 :
  routeInvariant current patterns →
  patternKeys pattern = Some own →
  let c1 := storeRoute pattern h1 current in
  let c2 := storeRoute pattern h2 c1 in
  sameRoutesExcept (λ keys, keys = own) c1 c2 ∧
  handlerAt own c1 = Some h1 ∧ handlerAt own c2 = Some h2.
Proof.
  intros Hinv Hown c1 c2. subst c1 c2.
  pose proof (routeInvariant_storeRoute _ _ pattern h1 Hinv (mk_is_Some _ _ Hown)) as Hinv1.
  destruct Hinv as [_ _ Hname Hroot], Hinv1 as [_ _ Hname1 Hroot1].
  assert (∀ name, paramNameAt ["/"] current ≠ Some name) as Hslash.
  { intros name Hs. by specialize (Hname [] "/" (mk_is_Some _ _ Hs)). }
  assert (∀ name, paramNameAt ["/"] (storeRoute pattern h1 current) ≠ Some name) as Hslash1.
  { intros name Hs. by specialize (Hname1 [] "/" (mk_is_Some _ _ Hs)). }
  split_and!.
  - intros keys. split_and!.
    + rewrite (nodeAt_storeRoute_is_Some _ _ _ _ Hown Hroot1).
      rewrite (nodeAt_storeRoute_is_Some _ _ _ _ Hown Hroot). naive_solver.
    + rewrite (paramNameAt_storeRoute _ _ _ _ Hown Hroot1) by done.
      case_decide; [done|]. destruct (namedBy _ _) eqn:Hnamed; [|done].
      rewrite (paramNameAt_storeRoute _ _ _ _ Hown Hroot) by done.
      by rewrite decide_False, Hnamed.
    + intros Hkeys. rewrite (handlerAt_storeRoute _ _ _ _ Hown Hroot1).
      by rewrite decide_False.
  - rewrite (handlerAt_storeRoute _ _ _ _ Hown Hroot). by rewrite decide_True.
  - rewrite (handlerAt_storeRoute _ _ _ _ Hown Hroot1). by rewrite decide_True.
Qed.

(** The matches in two trees that differ in the handler at one position. *)
Lemma landing_sameRoutes own h1 h2 c1 c2 parts :
  sameRoutesExcept (λ keys, keys = own) c1 c2 →
  handlerAt own c1 = Some h1 → handlerAt own c2 = Some h2 →
  let r1 := landing (matchParts parts c1 ∅ None) in
  let r2 := landing (matchParts parts c2 ∅ None) in
  r2 = r1 ∨ ∃ params, r1 = Some (h1, params) ∧ r2 = Some (h2, params).
Proof.
  intros Hsame Hh1 Hh2.
  assert (∀ keys n1 n2 (params : Params),
    nodeAt keys c1 = Some n1 → nodeAt keys c2 = Some n2 →
    let r1 := match handler n1 with Some h => Some (h, params) | None => None end in
    let r2 := match handler n2 with Some h => Some (h, params) | None => None end in
    r2 = r1 ∨ ∃ params, r1 = Some (h1, params) ∧ r2 = Some (h2, params)) as Hnode.
  { intros keys n1 n2 params Hn1 Hn2. destruct (Hsame keys) as (_ & _ & Hh).
    unfold handlerAt in *. rewrite Hn1, Hn2 in Hh. cbn in *.
    destruct (decide (keys = own)) as [->|Hkeys].
    - rewrite Hn1 in Hh1. rewrite Hn2 in Hh2. cbn in *. rewrite Hh1, Hh2. eauto.
    - rewrite (Hh Hkeys). by left. }
  destruct parts as [|part parts].
  - cbn. pose proof (sameRoutesExcept_lookup _ _ _ "/" Hsame) as Hroot.
    destruct (c1 !! "/") as [n1|] eqn:H1, (c2 !! "/") as [n2|] eqn:H2; try done; [|by left].
    apply (Hnode ["/"]); by rewrite nodeAt_singleton.
  - pose proof (matchParts_sameRoutes _ _ _ (part :: parts) ∅ None None Hsame ltac:(done))
      as Hwalk.
    cbv zeta. unfold landing.
    destruct (matchParts (part :: parts) c1 ∅ None) as [[[? ?] [n1|]]|];
      destruct (matchParts (part :: parts) c2 ∅ None) as [[[? ?] [n2|]]|];
      try done; [|by left].
    destruct Hwalk as (-> & keys & Hn1 & Hn2). by apply (Hnode keys).
Qed.

(** *** Walking along a registered pattern *)

Lemma matchParts_prefix before rest current params node0 :
  before = [] ∨ is_Some (nodeAt before current) →
  ∃ current' node1,
    matchParts (before ++ rest) current params node0 =
      matchParts rest current' params node1 ∧
    (∀ key, current' !! key = nodeAt (before ++ [key]) current) ∧
    (∀ node, nodeAt before current = Some node → node1 = Some node).
Proof.
  intros [->|[node Hnode]].
  - exists current, node0. split_and!; [done| |done].
    intros key. cbn [app]. by rewrite nodeAt_singleton.
  - exists (children node), (Some node). split_and!.
    + by rewrite matchParts_app, (matchParts_exact _ _ _ _ _ Hnode).
    + intros key. by rewrite (nodeAt_app _ [key] _ _ ltac:(done) Hnode), nodeAt_singleton.
    + intros node'. rewrite Hnode. by intros [= <-].
Qed.

Lemma matchParts_suffix before after current params node last :
  nodeAt before current = Some node →
  nodeAt (before ++ after) current = Some last →
  matchParts after (children node) params (Some node) =
    Some (children last, params, Some last).
Proof.
  intros Hnode Hlast. destruct after as [|part after].
  - rewrite app_nil_r in Hlast. by simplify_eq.
  - rewrite (nodeAt_app before (part :: after) _ _ ltac:(done) Hnode) in Hlast.
    by apply matchParts_exact.
Qed.

Lemma segmentKey_fmap_literal parts :
  Forall literalSegment parts → segmentKey <$> parts = parts.
Proof.
  induction 1 as [|part parts Hpart _ IH]; [done|].
  cbn. by rewrite IH, segmentKey_literal.
Qed.

Lemma namedBy_dynamic before name after :
  Forall literalSegment before →
  namedBy (before ++ String ":" name :: after) (before ++ [":"]) = Some name.
Proof.
  induction 1 as [|part before Hpart _ IH]; [reflexivity|].
  cbn [app namedBy]. rewrite decide_True by by rewrite segmentKey_literal.
  by destruct before.
Qed.

End MatchFacts.

(** * Facts about [handle] *)

Section HandleFacts.

Lemma runMiddlewares_app before rest req req' :
  allContinue before req req' →
  Bunwork.runMiddlewares (before ++ rest) req =
    ((Bunwork.runMiddlewares rest req').1,
     (CallMiddleware <$> before) ++ (Bunwork.runMiddlewares rest req').2).
Proof.
  revert req. induction before as [|fn before IH]; intros req.
  - cbn. intros ->. by destruct (Bunwork.runMiddlewares rest req).
  - cbn [allContinue]. intros (req1 & Hfn & Hrest).
    cbn [app Bunwork.runMiddlewares]. rewrite Hfn, (IH _ Hrest). done.
Qed.

Lemma runMiddlewares_passed mws req req' :
  allContinue mws req req' →
  Bunwork.runMiddlewares mws req = (Passed req', CallMiddleware <$> mws).
Proof.
  intros Hmws. rewrite <-(app_nil_r mws) at 1.
  rewrite (runMiddlewares_app _ _ _ _ Hmws). cbn. by rewrite app_nil_r.
Qed.

(** A GET or POST request that passes the middlewares and matches no route
    gets what the static routes give, or the 404 for "Not Found". *)
Lemma handle_unmatched host app req req' m :
  allContinue (Bunwork.middlewares app) req req' →
  Bunwork.methodOf (JsString.toUpperCase (method req)) = Some m →
  Bunwork.matchRoute m (pathname req) app = None →
  Bunwork.handle host app req =
    match Bunwork.serveStatic host (JsObject.entries (Bunwork.staticRoutes app))
            (pathname req) with
    | Some (res, reads) =>
        (Normal res, (CallMiddleware <$> Bunwork.middlewares app) ++ reads)
    | None =>
        (Normal (mkResponse (Text "Not Found") 404),
         CallMiddleware <$> Bunwork.middlewares app)
    end.
Proof.
  intros Hmws Hmethod Hmatch. unfold Bunwork.handle.
  by rewrite (runMiddlewares_passed _ _ _ Hmws), Hmethod, Hmatch.
Qed.

End HandleFacts.

(** * Properties of the dispatcher *)

(** C1. In every route table in which a literal child and a dynamic child
    exist at the same position of the tree of a method, a request path
    whose last segment is the text of the literal child is answered from
    the literal child alone: the match returns the handler stored in it
    (and fails when it stores none); the dynamic child is not entered and
    its parameter is not bound. *)
Theorem static_child_precedes_dynamic
    (app : Bunwork.t) (m : Method) (path : string)
    (before : list string) (literal : string)
    (current : RouteMap) (params : Params) (node0 : option RouteNode)
    (literalNode dynamicNode : RouteNode) :
  JsString.segments path = before ++ [literal] →
  matchParts before (root m (Bunwork.routes app)) ∅ None = Some (current, params, node0) →
  literal ≠ ":" →
  current !! literal = Some literalNode →
  current !! ":" = Some dynamicNode →
  Bunwork.matchRoute m path app =
    match handler literalNode with
    | Some h => Some (h, params)
    | None => None
    end.
Proof.
  intros Hpath Hbefore _ Hliteral _.
  rewrite matchRoute_landing, Hpath, matchParts_app, Hbefore.
  by rewrite (matchParts_literal _ _ _ _ _ _ Hliteral).
Qed.

(** The scenario of C1 from the registration calls: when a pattern of
    literal segments and a pattern that replaces its last segment by a
    parameter are registered, in either order, a request for the literal
    pattern gets the handler of the literal pattern. *)
Lemma registered_literal_beats_dynamic
    (app app1 app2 : Bunwork.t) (m : Method) (literalPath dynamicPath : string)
    (before : list string) (literal name : string) (hLiteral hDynamic : Handler) :
  JsString.segments literalPath = before ++ [literal] →
  JsString.segments dynamicPath = before ++ [String ":" name] →
  Forall literalSegment (before ++ [literal]) →
  Bunwork.addRoute m literalPath hLiteral app = Normal app1 ∧
    Bunwork.addRoute m dynamicPath hDynamic app1 = Normal app2 ∨
  Bunwork.addRoute m dynamicPath hDynamic app = Normal app1 ∧
    Bunwork.addRoute m literalPath hLiteral app1 = Normal app2 →
  Bunwork.matchRoute m literalPath app2 = Some (hLiteral, ∅).
Proof.
  intros Hliteral Hdynamic Hparts Horder.
  assert (∀ path parts h a a' keys,
    JsString.segments path = parts → parts ≠ [] →
    Bunwork.addRoute m path h a = Normal a' →
    handlerAt keys (root m (Bunwork.routes a')) =
      if decide (keys = segmentKey <$> parts) then Some h
      else handlerAt keys (root m (Bunwork.routes a))) as Hstore.
  { intros path parts h a a' keys Hpath Hne (_ & _ & _ & Hroots)%addRoute_routes.
    rewrite Hroots, decide_True by done. unfold storeRoute.
    rewrite decide_False by (intros ->; by rewrite <-Hpath in Hne).
    rewrite Hpath. by apply handlerAt_addParts. }
  assert (segmentKey <$> before ++ [literal] = before ++ [literal]) as Hkeys
    by by apply segmentKey_fmap_literal.
  assert (segmentKey <$> before ++ [String ":" name] ≠ before ++ [literal]) as Hother.
  { rewrite fmap_app. cbn. intros [_ [= <-]]%app_inj_2; [|done].
    apply Forall_app in Hparts as [_ Hlast%Forall_inv]. done. }
  apply matchRoute_exact. rewrite Hliteral.
  destruct Horder as [[Hfirst Hsecond]|[Hfirst Hsecond]].
  - rewrite (Hstore _ _ _ _ _ _ Hdynamic ltac:(by destruct before) Hsecond).
    rewrite decide_False by done.
    rewrite (Hstore _ _ _ _ _ _ Hliteral ltac:(by destruct before) Hfirst).
    by rewrite decide_True.
  - rewrite (Hstore _ _ _ _ _ _ Hliteral ltac:(by destruct before) Hsecond).
    by rewrite decide_True.
Qed.

(** C9. After every sequence of registration calls, in the tree of each
    method: a node carries a handler exactly when a registered pattern
    terminates at its position; the keys that denote a dynamic segment
    are one and the same in every children map, so a node has at most one
    dynamic child; and a parameter name (the single [paramName] field of
    a node) is only bound in a dynamic child. *)
Theorem route_tree_invariant (calls : list Registration) (m : Method) :
  let current := root m (Bunwork.routes (configure calls Bunwork.new)) in
  (∀ keys,
     is_Some (handlerAt keys current) ↔
     ∃ pattern, pattern ∈ registered m calls ∧ patternKeys pattern = Some keys) ∧
  (∀ keys key1 key2,
     is_Some (nodeAt (keys ++ [key1]) current) →
     is_Some (nodeAt (keys ++ [key2]) current) →
     JsString.startsWith key1 ":" = true →
     JsString.startsWith key2 ":" = true →
     key1 = key2) ∧
  (∀ keys key, is_Some (paramNameAt (keys ++ [key]) current) → key = ":").
Proof.
  destruct (configure_invariant calls m) as [Hhandler Hdynamic HparamName _].
  split_and!; [done| |done].
  intros keys key1 key2 H1 H2 Hk1 Hk2.
  by rewrite (Hdynamic keys key1), (Hdynamic keys key2).
Qed.

(** C3. A match succeeds only with the handler of the node on which the
    walk over all the segments of the request path lands.  When no
    registered pattern of the method matches the path over its whole
    length (in particular when every pattern that agrees with the path is
    longer than it) the match fails, although the nodes of the prefix
    exist, and a GET or POST request that passed the middlewares is
    answered by the static fallback: by 404 and "Not Found" when no
    static prefix applies. *)
Theorem prefix_of_route_is_no_route (calls : list Registration) (m : Method) (path : string) :
  let app := configure calls Bunwork.new in
  (∀ h params,
     Bunwork.matchRoute m path app = Some (h, params) →
     ∃ keys,
       handlerAt keys (root m (Bunwork.routes app)) = Some h ∧
       (JsString.segments path = [] ∧ keys = ["/"] ∨
        Forall2 keyTaken keys (JsString.segments path))) ∧
  ((∀ pattern, pattern ∈ registered m calls → ¬ patternMatches pattern path) →
   Bunwork.matchRoute m path app = None ∧
   ∀ host req req',
     pathname req = path →
     Bunwork.methodOf (JsString.toUpperCase (method req)) = Some m →
     allContinue (Bunwork.middlewares app) req req' →
     Bunwork.serveStatic host (JsObject.entries (Bunwork.staticRoutes app)) path = None →
     Bunwork.handle host app req =
       (Normal (mkResponse (Text "Not Found") 404),
        CallMiddleware <$> Bunwork.middlewares app)).
Proof.
  intros app. split.
  { intros h params (keys & ? & ?)%matchRoute_handlerAt. exists keys. naive_solver. }
  intros Hnone.
  assert (Bunwork.matchRoute m path app = None) as Hmatch.
  { destruct (Bunwork.matchRoute m path app) as [[h params]|] eqn:Hmatch; [|done].
    exfalso. apply matchRoute_handlerAt in Hmatch as (keys & Hh & Hkeys).
    destruct (configure_invariant calls m) as [Hhandler _ _ _].
    destruct (proj1 (Hhandler keys) (mk_is_Some _ _ Hh)) as (pattern & Hin & Hown).
    apply (Hnone pattern Hin). unfold patternMatches.
    destruct (decide (pattern = "/")) as [->|Hpattern].
    - injection Hown as <-. destruct Hkeys as [(-> & _)|Hkeys]; [constructor|].
      apply Forall2_cons_inv_l in Hkeys as (part & parts & [Hpart|?] & _ & Hparts); [|done].
      assert (part ∈ JsString.segments path) as Hin' by (rewrite Hparts; left).
      apply segments_spec in Hin' as [_ Hslash]. by rewrite <-Hpart in Hslash.
    - apply patternKeys_segments in Hown as [-> Hne]; [|done].
      destruct Hkeys as [(_ & Hkeys & _)|Hkeys].
      { destruct (JsString.segments pattern) as [|part parts] eqn:Hparts; [done|].
        injection Hkeys as Hkey _. destruct (segmentKey_not_slash pattern part); [|done].
        rewrite Hparts. left. }
      rewrite Forall2_fmap_l in Hkeys. eapply Forall2_impl; [done|].
      intros patternPart part. unfold keyTaken, segmentMatches, compose.
      destruct (JsString.startsWith patternPart ":") eqn:Hdyn; [by left|].
      rewrite segmentKey_literal by done. intros [?| ->]; [by right|done]. }
  split; [done|]. intros host req req' <- Hmethod Hmws Hstatic.
  by rewrite (handle_unmatched _ _ _ _ _ Hmws Hmethod Hmatch), Hstatic.
Qed.

(** C5. When a pattern is registered for a method with [h1] and right
    after that with [h2], matching the pattern returns [h2]; the tree is
    the one that registering [h2] alone gives; and the second registration
    changes no other match: every request path gets the result it had
    before it, except that the paths that landed on the node of the
    pattern with [h1] now get [h2], with the same parameters. *)
Theorem later_registration_replaces
    (calls : list Registration) (m : Method) (pattern : string) (h1 h2 : Handler)
    (app1 app2 : Bunwork.t) :
  let app := configure calls Bunwork.new in
  Bunwork.addRoute m pattern h1 app = Normal app1 →
  Bunwork.addRoute m pattern h2 app1 = Normal app2 →
  (∃ params, Bunwork.matchRoute m pattern app2 = Some (h2, params)) ∧
  Bunwork.addRoute m pattern h2 app = Normal app2 ∧
  (∀ m' path,
     Bunwork.matchRoute m' path app2 = Bunwork.matchRoute m' path app1 ∨
     ∃ params,
       Bunwork.matchRoute m' path app1 = Some (h1, params) ∧
       Bunwork.matchRoute m' path app2 = Some (h2, params)).
Proof.
  intros app Hadd1 Hadd2.
  assert (Configured app) as Happ by by exists calls.
  pose proof (Configured_addRoute _ _ _ _ _ Happ Hadd1) as Happ1.
  destruct (Configured_invariant app m Happ) as [patterns Hinv].
  destruct (Configured_invariant app1 m Happ1) as [patterns1 Hinv1].
  pose proof Hadd1 as [[own Hown] Heq1]%addRoute_Normal.
  pose proof Hadd2 as [_ Heq2]%addRoute_Normal.
  assert (∀ m', root m' (Bunwork.routes app1) =
            if decide (m' = m) then storeRoute pattern h1 (root m (Bunwork.routes app))
            else root m' (Bunwork.routes app)) as Hroot1.
  { by apply addRoute_routes in Hadd1 as (_ & _ & _ & ?). }
  assert (∀ m', root m' (Bunwork.routes app2) =
            if decide (m' = m) then storeRoute pattern h2 (root m (Bunwork.routes app1))
            else root m' (Bunwork.routes app1)) as Hroot2.
  { by apply addRoute_routes in Hadd2 as (_ & _ & _ & ?). }
  split_and!.
  - rewrite matchRoute_landing, Hroot2, decide_True by done.
    unfold storeRoute. destruct (decide (pattern = "/")) as [->|Hpattern].
    + exists ∅. change (JsString.segments "/") with (@nil string).
      cbn [matchParts landing]. by rewrite lookup_insert_eq.
    + apply patternKeys_segments in Hown as [_ Hne]; [|done].
      destruct (matchParts_own_pattern (JsString.segments pattern) h2
                  (root m (Bunwork.routes app1)) ∅ None) as (params & node & -> & Hh);
        [by destruct Hinv1|done|].
      exists params. cbn. by rewrite Hh.
  - apply addRoute_Normal. split; [by eexists|].
    rewrite Heq2, Heq1. cbn [Bunwork.middlewares Bunwork.routes Bunwork.staticRoutes].
    f_equal. rewrite root_with_root, decide_True, storeRoute_again by done. by destruct m.
  - intros m' path. rewrite !matchRoute_landing, Hroot2.
    destruct (decide (m' = m)) as [->|]; [|by left].
    rewrite Hroot1, decide_True by done.
    destruct (sameRoutesExcept_again _ _ pattern own h1 h2 Hinv Hown) as (Hsame & Hh1 & Hh2).
    by apply (landing_sameRoutes own).
Qed.

(** C4, as amended.  Right after a pattern [p1/:name/p2] with literal
    segments [p1] and [p2] and a parameter name other than the empty one
    and [__proto__] has been registered, every request [p1/s/p2] whose
    segment [s] is not the key of a child at the position of the
    parameter (there is no literal sibling with the text [s], and [s] is
    not ":", the key of the dynamic child) is matched by the handler of
    the pattern, with [name] bound to the text [s] and nothing else
    bound. *)
Theorem dynamic_segment_binds_text
    (app app' : Bunwork.t) (m : Method) (pattern path : string)
    (before after : list string) (name s : string) (h : Handler) :
  JsString.segments pattern = before ++ String ":" name :: after →
  Forall literalSegment (before ++ after) →
  name ≠ "" → name ≠ "__proto__" →
  Bunwork.addRoute m pattern h app = Normal app' →
  JsString.segments path = before ++ s :: after →
  nodeAt (before ++ [s]) (root m (Bunwork.routes app')) = None →
  Bunwork.matchRoute m path app' = Some (h, {[name := s]}).
Proof.
  intros Hpattern [Hbefore Hafter]%Forall_app Hname Hproto Hadd Hpath Hfree.
  assert (pattern ≠ "/") as Hroot by (intros ->; by destruct before).
  apply addRoute_routes in Hadd as (_ & _ & _ & Hroots).
  specialize (Hroots m). rewrite decide_True in Hroots by done.
  unfold storeRoute in Hroots. rewrite decide_False, Hpattern in Hroots by done.
  rewrite matchRoute_landing, Hpath, Hroots in *. clear Hroots.
  set (parts := before ++ String ":" name :: after) in *.
  set (stored := addParts parts h _) in *.
  assert (segmentKey <$> parts = (before ++ [":"]) ++ after) as Hkeys.
  { unfold parts. rewrite fmap_app, fmap_cons, !segmentKey_fmap_literal by done.
    by rewrite <-app_assoc. }
  assert (parts ≠ []) as Hparts by (unfold parts; by destruct before).
  assert (∃ last, nodeAt ((before ++ [":"]) ++ after) stored = Some last ∧
                  handler last = Some h) as (last & Hlast & Hh).
  { pose proof (handlerAt_addParts parts h ((before ++ [":"]) ++ after)
                  (root m (Bunwork.routes app)) Hparts) as Hlast.
    rewrite decide_True in Hlast by done. unfold handlerAt in Hlast. fold stored in Hlast.
    destruct (nodeAt ((before ++ [":"]) ++ after) stored) as [last|];
      cbn in Hlast; [by exists last|done]. }
  assert (∃ dynamic, nodeAt (before ++ [":"]) stored = Some dynamic) as [dynamic Hdynamic].
  { apply nodeAt_addParts_is_Some. right. split; [by destruct before|].
    rewrite Hkeys. by apply prefix_app_r. }
  assert (paramName dynamic = Some name) as Hparam.
  { pose proof (paramNameAt_addParts parts h (before ++ [":"])
                  (root m (Bunwork.routes app))) as Hnamed.
    unfold parts in Hnamed at 2. rewrite namedBy_dynamic in Hnamed by done.
    unfold paramNameAt in Hnamed. fold stored in Hnamed. by rewrite Hdynamic in Hnamed. }
  destruct (matchParts_prefix before (s :: after) stored ∅ None)
    as (current & node1 & -> & Hcurrent & _).
  { destruct before as [|part before]; [by left|right].
    by destruct (nodeAt_snoc_is_Some (part :: before) ":" stored (mk_is_Some _ _ Hdynamic)). }
  rewrite (matchParts_dynamic s after current _ _ dynamic);
    [|by rewrite Hcurrent..].
  rewrite (matchParts_suffix _ _ _ _ _ _ Hdynamic Hlast).
  unfold landing, bindParam. rewrite Hh, Hparam, !decide_False by done.
  by rewrite insert_empty.
Qed.

(** C8. Leading and trailing slashes of a request path do not change the
    result of a match; the empty path and "/" are both the path without
    segments, which is matched by the node stored under the root key "/":
    it has a match exactly when the pattern "/" has been registered for
    the method. *)
Theorem outer_slashes_insignificant
    (calls : list Registration) (m : Method) (core : string) (a b c d : nat) :
  let app := configure calls Bunwork.new in
  Bunwork.matchRoute m (slashes a +:+ core +:+ slashes b) app =
    Bunwork.matchRoute m (slashes c +:+ core +:+ slashes d) app ∧
  Bunwork.matchRoute m "" app = Bunwork.matchRoute m "/" app ∧
  (∀ h params,
     Bunwork.matchRoute m "/" app = Some (h, params) ↔
     params = ∅ ∧ handlerAt ["/"] (root m (Bunwork.routes app)) = Some h) ∧
  (is_Some (Bunwork.matchRoute m "/" app) ↔ "/" ∈ registered m calls).
Proof.
  intros app.
  assert (∀ h params,
    Bunwork.matchRoute m "/" app = Some (h, params) ↔
    params = ∅ ∧ handlerAt ["/"] (root m (Bunwork.routes app)) = Some h) as Hroot.
  { intros h params. rewrite matchRoute_landing. unfold handlerAt.
    rewrite nodeAt_singleton. change (JsString.segments "/") with (@nil string).
    cbn [matchParts landing]. destruct (_ !! "/") as [node|]; cbn; [|naive_solver].
    destruct (handler node); naive_solver. }
  split_and!; [|done|done|].
  - by rewrite !matchRoute_landing, !segments_slashes_l, !segments_slashes_r.
  - destruct (configure_invariant calls m) as [Hhandler _ _ _].
    fold app in Hhandler. split.
    + intros [[h params] [_ Hh]%Hroot].
      destruct (proj1 (Hhandler ["/"]) (mk_is_Some _ _ Hh)) as (pattern & Hin & Hown).
      destruct (decide (pattern = "/")) as [->|Hpattern]; [done|].
      by destruct (patternKeys_head _ _ _ Hpattern Hown).
    + intros Hin. destruct (proj2 (Hhandler ["/"])) as [h Hh]; [by exists "/"|].
      exists (h, ∅). by apply Hroot.
Qed.

(** C2. When the middlewares before one of the chain all return having
    called [next], and that one returns without having called it, [handle]
    answers with status 403 and the body "Middleware blocked the request",
    and what it has called is exactly those middlewares, in the order of
    their registration, the blocking one last: no later middleware, no
    route handler and no file read. *)
Theorem blocking_middleware_halts
    (host : Host) (app : Bunwork.t) (req req1 req2 : IRequest)
    (before after : list Middleware) (blocker : Middleware) :
  Bunwork.middlewares app = before ++ blocker :: after →
  allContinue before req req1 →
  blocker req1 = Returned false req2 →
  Bunwork.handle host app req =
    (Normal (mkResponse (Text "Middleware blocked the request") 403),
     CallMiddleware <$> (before ++ [blocker])).
Proof.
  intros Hchain Hbefore Hblocker. unfold Bunwork.handle.
  rewrite Hchain, (runMiddlewares_app _ _ _ _ Hbefore).
  cbn [Bunwork.runMiddlewares]. rewrite Hblocker. cbn [fst snd].
  by rewrite fmap_app.
Qed.

(** A request whose method is neither GET nor POST and that passes the
    middlewares makes [handle] throw: [matchRoute] reads the root of a
    tree that does not exist. *)
Lemma handle_unsupported_method host app req req' :
  allContinue (Bunwork.middlewares app) req req' →
  Bunwork.methodOf (JsString.toUpperCase (method req)) = None →
  Bunwork.handle host app req =
    (Thrown (TypeError "undefined is not an object"),
     CallMiddleware <$> Bunwork.middlewares app).
Proof.
  intros Hmws Hmethod. unfold Bunwork.handle.
  by rewrite (runMiddlewares_passed _ _ _ Hmws), Hmethod.
Qed.

(** C7, at the failing input.  A DELETE request to a dispatcher without
    routes and without static routes matches no registered route and no
    static prefix, and [handle] throws instead of answering 404. *)
Theorem unmatched_DELETE_throws (host : Host) :
  Bunwork.handle host Bunwork.new (mkRequest "DELETE" "/x" None) =
    (Thrown (TypeError "undefined is not an object"), []).
Proof. reflexivity. Qed.

(** For the GET and POST requests the first half of C7 holds. *)
Lemma unmatched_request_not_found host app req req' m :
  allContinue (Bunwork.middlewares app) req req' →
  Bunwork.methodOf (JsString.toUpperCase (method req)) = Some m →
  Bunwork.matchRoute m (pathname req) app = None →
  Forall (λ entry, JsString.startsWith (pathname req) entry.1 = false)
    (JsObject.entries (Bunwork.staticRoutes app)) →
  Bunwork.handle host app req =
    (Normal (mkResponse (Text "Not Found") 404),
     CallMiddleware <$> Bunwork.middlewares app).
Proof.
  intros Hmws Hmethod Hmatch Hstatic.
  rewrite (handle_unmatched _ _ _ _ _ Hmws Hmethod Hmatch).
  induction Hstatic as [|[route dir] entries Hroute _ IH]; [done|].
  cbn [Bunwork.serveStatic]. cbn in Hroute. by rewrite Hroute.
Qed.

(** * The static routes *)

Section StaticFacts.

Lemma serveStatic_firstWith host entries pathname :
  Bunwork.serveStatic host entries pathname =
    match firstWith (JsString.startsWith pathname) entries with
    | Some (route, dirPath) => Some (staticResponse host route dirPath pathname)
    | None => None
    end.
Proof.
  induction entries as [|[route dirPath] entries IH]; [done|].
  cbn [Bunwork.serveStatic firstWith]. by destruct (JsString.startsWith pathname route).
Qed.

(** A prefix of a path that starts with "/" is an ordinary property name. *)
Lemma static_prefix_ordinary pathname route :
  JsString.startsWith pathname "/" = true →
  JsString.startsWith pathname route = true →
  JsObject.array_index route = None ∧ route ≠ "__proto__".
Proof.
  destruct pathname as [|c pathname]; [done|]. cbn. case_decide as Hc; [subst c|done].
  intros _. destruct route as [|c route]; [done|]. cbn. case_decide as Hc; [subst c|done].
  done.
Qed.

Lemma firstWith_static test route directoryPath app :
  (∀ k, test k = true → JsObject.array_index k = None ∧ k ≠ "__proto__") →
  firstWith test (Bunwork.staticRoutes (Bunwork.static route directoryPath app)) =
    match firstWith test (Bunwork.staticRoutes app) with
    | Some (r, d) => Some (r, if decide (route = r) then directoryPath else d)
    | None => if test route then Some (route, directoryPath) else None
    end.
Proof.
  intros Hordinary. unfold Bunwork.static. case_decide as Hproto; cbn.
  - destruct (firstWith _ _) as [[r d]|] eqn:Hfirst.
    + rewrite decide_False; [done|]. intros <-.
      apply firstWith_test, Hordinary in Hfirst as [_ ?]. done.
    + destruct (test route) eqn:Htest; [|done]. by apply Hordinary in Htest as [_ ?].
  - apply firstWith_set. naive_solver.
Qed.

Lemma staticRoutes_register call app :
  Bunwork.staticRoutes (register call app) =
    match call with
    | Static route directoryPath =>
        Bunwork.staticRoutes (Bunwork.static route directoryPath app)
    | _ => Bunwork.staticRoutes app
    end.
Proof.
  destruct call as [path h|path h|fn|route dir|blueprint]; cbn [register]; [| |done..|].
  - unfold Bunwork.get. destruct (Bunwork.addRoute _ _ _ _) eqn:Hadd; [|done].
    by apply addRoute_routes in Hadd as (_ & _ & ? & _).
  - unfold Bunwork.post. destruct (Bunwork.addRoute _ _ _ _) eqn:Hadd; [|done].
    by apply addRoute_routes in Hadd as (_ & _ & ? & _).
  - unfold Bunwork.registerBlueprint. cbv zeta.
    set (app0 := Bunwork.mk _ _ _).
    pose proof (addRoutes_rest GET
      (JsObject.entries (Blueprint.getRoutes blueprint GET)) app0) as [_ Hget].
    destruct (Bunwork.addRoutes GET _ app0) as [app1 [[]|e]]; cbn [fst] in *; [|done].
    pose proof (addRoutes_rest POST
      (JsObject.entries (Blueprint.getRoutes blueprint POST)) app1) as [_ Hpost].
    by rewrite Hpost, Hget.
Qed.

Lemma staticCalls_snoc calls call :
  staticCalls (calls ++ [call]) =
    staticCalls calls ++
    match call with
    | Static route directoryPath => [(route, directoryPath)]
    | _ => []
    end.
Proof. unfold staticCalls. rewrite bind_app. cbn. by rewrite app_nil_r. Qed.

Lemma firstWith_configure_None test calls :
  (∀ k, test k = true → JsObject.array_index k = None ∧ k ≠ "__proto__") →
  Forall (λ entry, test entry.1 = false) (staticCalls calls) →
  firstWith test (Bunwork.staticRoutes (configure calls Bunwork.new)) = None.
Proof.
  intros Hordinary. induction calls as [|call calls IH] using rev_ind; [done|].
  rewrite staticCalls_snoc. intros [Hcalls Hcall]%Forall_app.
  rewrite configure_snoc, staticRoutes_register.
  destruct call as [| | |route dir|]; eauto.
  rewrite (firstWith_static _ _ _ _ Hordinary), (IH Hcalls).
  apply Forall_inv in Hcall. cbn in Hcall. by rewrite Hcall.
Qed.

(** The first static prefix of a path in the table is the first one in
    the order of the registration calls. *)
Lemma firstWith_configure test calls before route dir0 after :
  (∀ k, test k = true → JsObject.array_index k = None ∧ k ≠ "__proto__") →
  staticCalls calls = before ++ (route, dir0) :: after →
  Forall (λ entry, test entry.1 = false) before →
  test route = true →
  ∃ directoryPath,
    firstWith test (Bunwork.staticRoutes (configure calls Bunwork.new)) =
      Some (route, directoryPath).
Proof.
  intros Hordinary.
  revert after. induction calls as [|call calls IH] using rev_ind;
    intros after Hcalls Hbefore Hroute.
  { by destruct before. }
  rewrite staticCalls_snoc in Hcalls.
  rewrite configure_snoc, staticRoutes_register.
  destruct call as [| | |route' dir'|]; rewrite ?app_nil_r in Hcalls; eauto.
  rewrite (firstWith_static _ _ _ _ Hordinary).
  destruct after as [|last after _] using rev_ind.
  - apply app_inj_tail in Hcalls as [Hcalls [= <- <-]].
    rewrite firstWith_configure_None, Hroute by (by rewrite ?Hcalls). eauto.
  - rewrite app_comm_cons, app_assoc in Hcalls.
    apply app_inj_tail in Hcalls as [Hcalls _].
    destruct (IH _ Hcalls Hbefore Hroute) as [dir ->]. eauto.
Qed.

End StaticFacts.

(** The second half of C7: whatever makes the read of the file fail, the
    answer is the same 404. *)
Lemma static_read_failure_not_found host app req req' m route dirPath e :
  allContinue (Bunwork.middlewares app) req req' →
  Bunwork.methodOf (JsString.toUpperCase (method req)) = Some m →
  Bunwork.matchRoute m (pathname req) app = None →
  firstWith (JsString.startsWith (pathname req))
    (JsObject.entries (Bunwork.staticRoutes app)) = Some (route, dirPath) →
  let filePath := join host dirPath (JsString.slice (String.length route) (pathname req)) in
  readFile host filePath = Thrown e →
  Bunwork.handle host app req =
    (Normal (mkResponse (Text "File Not Found") 404),
     (CallMiddleware <$> Bunwork.middlewares app) ++ [ReadFile filePath]).
Proof.
  intros Hmws Hmethod Hmatch Hfirst filePath Hread.
  rewrite (handle_unmatched _ _ _ _ _ Hmws Hmethod Hmatch), serveStatic_firstWith, Hfirst.
  unfold staticResponse. fold filePath. by rewrite Hread.
Qed.

(** C10.  For a GET or POST request with a path (starting with "/") that
    passes the middlewares and matches no route, the first prefix of the
    path in the order of the [static] calls decides alone: [handle] reads
    the one file under the directory registered for that prefix and
    answers 200 with its bytes, or 404 and "File Not Found" when the read
    fails; the static routes registered after it are not consulted,
    whatever their directories hold. *)
Theorem first_static_prefix_decides
    (host : Host) (calls : list Registration) (req req' : IRequest) (m : Method)
    (before after : list (string * string)) (route dir0 directoryPath : string) :
  let app := configure calls Bunwork.new in
  allContinue (Bunwork.middlewares app) req req' →
  Bunwork.methodOf (JsString.toUpperCase (method req)) = Some m →
  Bunwork.matchRoute m (pathname req) app = None →
  JsString.startsWith (pathname req) "/" = true →
  staticCalls calls = before ++ (route, dir0) :: after →
  Forall (λ entry, JsString.startsWith (pathname req) entry.1 = false) before →
  JsString.startsWith (pathname req) route = true →
  JsObject.get route (Bunwork.staticRoutes app) = Some directoryPath →
  let filePath :=
    join host directoryPath (JsString.slice (String.length route) (pathname req)) in
  Bunwork.handle host app req =
    (Normal (match readFile host filePath with
             | Normal bytes => mkResponse (Bytes bytes) 200
             | Thrown _ => mkResponse (Text "File Not Found") 404
             end),
     (CallMiddleware <$> Bunwork.middlewares app) ++ [ReadFile filePath]).
Proof.
  intros app Hmws Hmethod Hmatch Hslash Hcalls Hbefore Hroute Hdir filePath.
  rewrite (handle_unmatched _ _ _ _ _ Hmws Hmethod Hmatch), serveStatic_firstWith.
  destruct (firstWith_configure (JsString.startsWith (pathname req))
              calls before route dir0 after) as [dir Hfirst];
    [intros k; by apply static_prefix_ordinary|done..|].
  fold app in Hfirst. unfold JsObject.entries. rewrite Hfirst.
  apply firstWith_get in Hfirst. rewrite Hdir in Hfirst. by injection Hfirst as <-.
Qed.

(** * Merging a blueprint *)

Section BlueprintFacts.

Lemma configure_cons call calls app :
  configure (call :: calls) app = configure calls (register call app).
Proof. done. Qed.

Lemma configure_app calls calls' app :
  configure (calls ++ calls') app = configure calls' (configure calls app).
Proof. apply foldl_app. Qed.

Lemma configure_Use fns app :
  configure (Use <$> fns) app =
    Bunwork.mk (Bunwork.middlewares app ++ fns) (Bunwork.routes app)
      (Bunwork.staticRoutes app).
Proof.
  revert app. induction fns as [|fn fns IH]; intros app.
  - cbn. rewrite app_nil_r. by destruct app.
  - rewrite fmap_cons, configure_cons, IH. cbn. by rewrite <-app_assoc.
Qed.

Lemma configure_accepted m entries app :
  configure
    ((λ entry, match m with
               | GET => Get entry.1 entry.2
               | POST => Post entry.1 entry.2
               end) <$> accepted entries) app =
    (Bunwork.addRoutes m entries app).1.
Proof.
  revert app. induction entries as [|[path h] entries IH]; intros app; [done|].
  cbn [accepted Bunwork.addRoutes].
  destruct (Bunwork.addRoute m path h app) as [app'|e] eqn:Hadd.
  - pose proof Hadd as (-> & _)%addRoute_routes.
    rewrite fmap_cons, configure_cons, <-IH. f_equal.
    destruct m; cbn; unfold Bunwork.get, Bunwork.post; by rewrite Hadd.
  - apply addRoute_Thrown in Hadd. unfold routable. by rewrite Hadd.
Qed.

Lemma registerBlueprint_configure blueprint app :
  (Bunwork.registerBlueprint blueprint app).1 = configure (mergedCalls blueprint) app.
Proof.
  unfold mergedCalls. rewrite !configure_app, configure_Use.
  unfold Bunwork.registerBlueprint. cbv zeta.
  set (app0 := Bunwork.mk _ _ _).
  rewrite (configure_accepted GET).
  pose proof (addRoutes_completion GET
    (JsObject.entries (Blueprint.getRoutes blueprint GET)) app0) as Hdone.
  destruct (Bunwork.addRoutes GET _ app0) as [app1 [[]|e]]; cbn [fst snd] in *.
  - rewrite (proj1 Hdone eq_refl). by rewrite (configure_accepted POST).
  - destruct (forallb _ _); [|done]. by destruct Hdone as [_ Hdone]; specialize (Hdone eq_refl).
Qed.

Lemma registerBlueprint_middlewares blueprint app :
  Bunwork.middlewares (Bunwork.registerBlueprint blueprint app).1 =
    Bunwork.middlewares app ++ Blueprint.getMiddlewares blueprint.
Proof.
  unfold Bunwork.registerBlueprint. cbv zeta. set (app0 := Bunwork.mk _ _ _).
  destruct (addRoutes_rest GET
    (JsObject.entries (Blueprint.getRoutes blueprint GET)) app0) as [Hget _].
  destruct (Bunwork.addRoutes GET _ app0) as [app1 [[]|e]]; cbn [fst] in *; [|done].
  destruct (addRoutes_rest POST
    (JsObject.entries (Blueprint.getRoutes blueprint POST)) app1) as [Hpost _].
  by rewrite Hpost, Hget.
Qed.

End BlueprintFacts.

(** * The properties on the examples *)

(** C1 on the users example: [/users/me] gets the handler of the literal
    route although [/users/:id] was registered first. *)
Lemma static_child_precedes_dynamic_witness :
  Bunwork.matchRoute GET "/users/me" usersApp = Some (respond "me", ∅).
Proof.
  etransitivity.
  - eapply (static_child_precedes_dynamic usersApp GET "/users/me" ["users"] "me").
    + reflexivity.
    + reflexivity.
    + discriminate.
    + reflexivity.
    + reflexivity.
  - reflexivity.
Defined.

(** C2 on the guarded example: [denyAll] blocks after the logger; the
    faulty middleware, the handler of "/" and the static route are not
    reached. *)
Lemma blocking_middleware_halts_witness :
  Bunwork.handle publicHost guardedApp (GETRequest "/") =
    (Normal (mkResponse (Text "Middleware blocked the request") 403),
     [CallMiddleware logger; CallMiddleware denyAll]).
Proof.
  apply (blocking_middleware_halts publicHost guardedApp
           (GETRequest "/") (GETRequest "/") (GETRequest "/")
           [logger] [faulty] denyAll).
  - reflexivity.
  - simpl. exists (GETRequest "/"). split; reflexivity.
  - reflexivity.
Defined.

(** C3 on the hello example: [/hello] is a prefix of the only route. *)
Lemma prefix_of_route_is_no_route_witness :
  Bunwork.matchRoute GET "/hello" helloApp = None ∧
  Bunwork.handle publicHost helloApp (GETRequest "/hello") =
    (Normal (mkResponse (Text "Not Found") 404), []).
Proof.
  assert (∀ pattern, pattern ∈ registered GET helloCalls →
            ¬ patternMatches pattern "/hello") as Hlonger.
  { intros pattern Hin. vm_compute in Hin. apply list_elem_of_singleton in Hin as ->.
    unfold patternMatches. vm_compute. intros Hmatch.
    inversion Hmatch as [|? ? ? ? _ Hrest]. inversion Hrest. }
  destruct (proj2 (prefix_of_route_is_no_route helloCalls GET "/hello") Hlonger)
    as [Hmatch Hhandle].
  split; [exact Hmatch|].
  apply (Hhandle publicHost (GETRequest "/hello") (GETRequest "/hello")); reflexivity.
Defined.

(** The request [/hello/john] of the same scenario. *)
Example hello_john :
  Bunwork.handle publicHost helloApp (GETRequest "/hello/john") =
    (Normal (mkResponse (Text "john") 200), [CallHandler (echoParam "name")]).
Proof. reflexivity. Qed.

(** C4 as stated fails on the users example: [/users/:id] is registered,
    and the request [/users/me] is not matched with [id] bound to "me". *)
Lemma dynamic_segment_shadowed :
  "/users/:id" ∈ registered GET usersCalls ∧
  JsString.segments "/users/:id" = ["users"; ":id"] ∧
  JsString.segments "/users/me" = ["users"; "me"] ∧
  ¬ ∃ h params,
      Bunwork.matchRoute GET "/users/me" usersApp = Some (h, params) ∧
      params !! "id" = Some "me".
Proof.
  split_and!; [vm_compute; left|reflexivity..|].
  intros (h & params & Hmatch & Hid).
  change (Bunwork.matchRoute GET "/users/me" usersApp) with (Some (respond "me", (∅ : Params)))
    in Hmatch.
  injection Hmatch as _ <-. by rewrite lookup_empty in Hid.
Qed.

(** The segment ":" of a request goes to the dynamic child as if it were
    a literal child, and the parameter is left unbound. *)
Example colon_segment_left_unbound :
  Bunwork.matchRoute GET "/hello/:" helloApp = Some (echoParam "name", ∅).
Proof. reflexivity. Qed.

(** C4 as amended, on the hello example. *)
Lemma dynamic_segment_binds_text_witness :
  Bunwork.matchRoute GET "/hello/john" helloApp =
    Some (echoParam "name", {["name" := "john"]}).
Proof.
  apply (dynamic_segment_binds_text Bunwork.new helloApp GET "/hello/:name" "/hello/john"
           ["hello"] [] "name" "john" (echoParam "name")).
  - reflexivity.
  - repeat constructor.
  - discriminate.
  - discriminate.
  - reflexivity.
  - reflexivity.
  - reflexivity.
Defined.

(** C5 on the users example: [/users/:id] registered again. *)
Lemma later_registration_replaces_witness :
  (∃ params,
     Bunwork.matchRoute GET "/users/:id"
       (configure (usersCalls ++ [Get "/users/:id" (respond "first");
                                  Get "/users/:id" (respond "second")]) Bunwork.new) =
       Some (respond "second", params)) ∧
  Bunwork.matchRoute GET "/users/me"
    (configure (usersCalls ++ [Get "/users/:id" (respond "first");
                               Get "/users/:id" (respond "second")]) Bunwork.new) =
    Some (respond "me", ∅).
Proof.
  destruct (later_registration_replaces usersCalls GET "/users/:id"
              (respond "first") (respond "second")
              (configure (usersCalls ++ [Get "/users/:id" (respond "first")]) Bunwork.new)
              (configure (usersCalls ++ [Get "/users/:id" (respond "first");
                                         Get "/users/:id" (respond "second")]) Bunwork.new))
    as (Hsecond & _ & Hrest); [reflexivity..|].
  split; [exact Hsecond|].
  destruct (Hrest GET "/users/me") as [->|(params & Hfirst & _)]; [reflexivity|].
  vm_compute in Hfirst. injection Hfirst as Hhandler _.
  apply (f_equal (λ h : Handler, h (GETRequest "/users/me"))) in Hhandler.
  discriminate Hhandler.
Defined.

Example blueprint_route_matches :
  Bunwork.matchRoute GET "/users/7" blueprintApp =
    Some (echoParam "id", {["id" := "7"]}).
Proof. reflexivity. Qed.

(** C8 on the users example: slashes around [users/me] change nothing,
    and "/" has no match because no route was registered at "/". *)
Lemma outer_slashes_insignificant_witness :
  Bunwork.matchRoute GET "//users/me/" usersApp = Bunwork.matchRoute GET "users/me" usersApp ∧
  ¬ is_Some (Bunwork.matchRoute GET "/" usersApp).
Proof.
  destruct (outer_slashes_insignificant usersCalls GET "users/me" 2 1 0 0)
    as (Hslashes & _ & _ & Hroot).
  split; [exact Hslashes|].
  intros Hsome%Hroot. vm_compute in Hsome.
  apply elem_of_cons in Hsome as [?|Hsome]; [discriminate|].
  apply list_elem_of_singleton in Hsome. discriminate.
Defined.

(** C9 on the users example: the node of [/users/:id] carries a handler,
    the node of the prefix [/users] carries none. *)
Lemma route_tree_invariant_witness :
  is_Some (handlerAt ["users"; ":"] (root GET (Bunwork.routes usersApp))) ∧
  ¬ is_Some (handlerAt ["users"] (root GET (Bunwork.routes usersApp))).
Proof.
  destruct (route_tree_invariant usersCalls GET) as (Hhandler & _ & _).
  split.
  - apply Hhandler. exists "/users/:id". split; [vm_compute; left|reflexivity].
  - intros (pattern & Hin & Hkeys)%Hhandler. vm_compute in Hin.
    apply elem_of_cons in Hin as [->|Hin]; [discriminate|].
    apply list_elem_of_singleton in Hin as ->. discriminate.
Defined.

(** C10 on the assets example: the second static route registered is the
    first prefix of [/assets/logo.png]; its directory lacks the file, and
    the third route, which has it, is not consulted. *)
Lemma first_static_prefix_decides_witness :
  Bunwork.handle publicHost assetsApp (GETRequest "/assets/logo.png") =
    (Normal (mkResponse (Text "File Not Found") 404),
     [CallMiddleware logger; ReadFile "./cache/logo.png"]).
Proof.
  apply (first_static_prefix_decides publicHost assetsCalls
           (GETRequest "/assets/logo.png") (GETRequest "/assets/logo.png") GET
           [("/downloads", "./files")] [("/", "./public")] "/assets" "./cache" "./cache").
  - simpl. exists (GETRequest "/assets/logo.png"). split; reflexivity.
  - reflexivity.
  - reflexivity.
  - reflexivity.
  - reflexivity.
  - repeat constructor.
  - reflexivity.
  - reflexivity.
Defined.

(** The same path without the cache route is served from [./public]. *)
Example later_route_has_the_file :
  Bunwork.handle publicHost
    (configure [Static "/downloads" "./files"; Static "/" "./public"] Bunwork.new)
    (GETRequest "/assets/logo.png") =
    (Normal (mkResponse (Bytes []) 200), [ReadFile "./public/assets/logo.png"]).
Proof. reflexivity. Qed.

(** * Further properties of the tree dispatcher *)

Section SlashFacts.
Import JsString.

Lemma slashes_S n : slashes (S n) = String "/" (slashes n).
Proof. done. Qed.

Lemma segments_cons_other c s : c ≠ "/"%char → segments (String c s) ≠ [].
Proof.
  intros Hc. unfold segments, filter_Boolean. cbn [split].
  destruct (decide (c = "/"%char)) as [->|_]; [done|].
  destruct (split "/" s) as [|piece pieces]; rewrite filter_cons;
    by destruct (decide _) as [|[]].
Qed.

(** The paths without a segment are the runs of slashes. *)
Lemma segments_nil_iff path : segments path = [] ↔ ∃ n, path = slashes n.
Proof.
  induction path as [|c s IH].
  - split; [by exists 0|done].
  - destruct (decide (c = "/"%char)) as [->|Hc].
    + rewrite segments_slash, IH. split.
      * intros [n ->]. by exists (S n).
      * intros [[|n] Hn]; [done|]. rewrite slashes_S in Hn.
        injection Hn as ->. by exists n.
    + split; [by intros ?%segments_cons_other|].
      intros [[|n] Hn]; [done|]. rewrite slashes_S in Hn. by injection Hn as -> _.
Qed.

Lemma patternKeys_None_iff path :
  patternKeys path = None ↔ ∃ n, n ≠ 1 ∧ path = slashes n.
Proof.
  unfold patternKeys. destruct (decide (path = "/")) as [->|Hroot].
  - split; [done|]. intros ([|[|n]] & Hn & Heq); done.
  - destruct (segments path) as [|part parts] eqn:Hparts.
    + split; [|done]. intros _.
      apply segments_nil_iff in Hparts as [n ->]. exists n. split; [|done].
      by intros ->.
    + split; [done|]. intros (n & _ & ->).
      assert (segments (slashes n) = []) as Hnil by (apply segments_nil_iff; eauto).
      congruence.
Qed.
End SlashFacts.

Section FrameFacts.

Lemma matchRoute_root_eq m m' path app app' :
  root m (Bunwork.routes app) = root m' (Bunwork.routes app') →
  Bunwork.matchRoute m path app = Bunwork.matchRoute m' path app'.
Proof. intros Heq. by rewrite !matchRoute_landing, Heq. Qed.

(** The walk looks at the root map only through the text of the first
    segment and the dynamic key. *)
Lemma matchParts_head_eq part rest c1 c2 params node1 node2 :
  c1 !! part = c2 !! part →
  c1 !! ":" = c2 !! ":" →
  matchParts (part :: rest) c1 params node1 = matchParts (part :: rest) c2 params node2.
Proof. intros Hpart Hdyn. cbn [matchParts]. by rewrite Hpart, Hdyn. Qed.

Lemma literalSegment_not_dynamic part : literalSegment part → part ≠ ":".
Proof. by intros Hlit ->. Qed.

End FrameFacts.

(** X1. [addRoute] throws exactly for the patterns that are a run of
    slashes other than "/" itself (the empty pattern, "//", ...); the error
    is always the same one, and a dispatcher is returned for every other
    pattern. *)
Theorem addRoute_throws_iff (m : Method) (path : string) (h : Handler) (app : Bunwork.t) :
  (Bunwork.addRoute m path h app =
     Thrown (Error "Failed to add route handler. Node is undefined.") ↔
   ∃ n, n ≠ 1 ∧ path = slashes n) ∧
  (∀ e, Bunwork.addRoute m path h app = Thrown e →
        e = Error "Failed to add route handler. Node is undefined.") ∧
  ((∃ app', Bunwork.addRoute m path h app = Normal app') ↔
   ¬ ∃ n, n ≠ 1 ∧ path = slashes n).
Proof.
  rewrite <-patternKeys_None_iff. split; [|split].
  - split; [apply addRoute_Thrown|apply addRoute_rejects].
  - intros e He. pose proof (addRoute_Thrown _ _ _ _ _ He) as Hnone.
    rewrite (addRoute_rejects m path h app Hnone) in He. by injection He as <-.
  - split.
    + intros [app' [Hsome _]%addRoute_Normal] Hnone. rewrite Hnone in Hsome.
      by destruct Hsome.
    + intros Hsome. destruct (Bunwork.addRoute m path h app) as [app'|e] eqn:Hadd; [eauto|].
      by apply addRoute_Thrown in Hadd.
Qed.

(** X2. Registration reads a pattern only through its segments: two
    patterns with the same segments, at least one, are the same route,
    whatever slashes they begin or end with or repeat. *)
Theorem registration_reads_segments
    (m : Method) (pattern1 pattern2 : string) (h : Handler) (app : Bunwork.t) :
  JsString.segments pattern1 = JsString.segments pattern2 →
  JsString.segments pattern1 ≠ [] →
  Bunwork.addRoute m pattern1 h app = Bunwork.addRoute m pattern2 h app.
Proof.
  intros Heq Hne. unfold Bunwork.addRoute.
  destruct (decide (pattern1 = "/")) as [->|_]; [done|].
  destruct (decide (pattern2 = "/")) as [->|_]; [by rewrite Heq in Hne|].
  by rewrite Heq.
Qed.

(** X3. Round trip for a pattern of literal segments (the pattern "/"
    included): right after it has been registered on any dispatcher, every
    request path with the same segments is matched by its handler, with no
    parameter. *)
Theorem literal_route_round_trip
    (m : Method) (pattern path : string) (h : Handler) (app app' : Bunwork.t) :
  Bunwork.addRoute m pattern h app = Normal app' →
  Forall literalSegment (JsString.segments pattern) →
  JsString.segments path = JsString.segments pattern →
  Bunwork.matchRoute m path app' = Some (h, ∅).
Proof.
  intros Hadd Hlit Hsegs.
  pose proof Hadd as (Hroutable & _ & _ & Hroot)%addRoute_routes.
  specialize (Hroot m). rewrite decide_True in Hroot by done.
  unfold storeRoute in Hroot. destruct (decide (pattern = "/")) as [->|Hne].
  - rewrite matchRoute_landing, Hsegs, Hroot.
    change (JsString.segments "/") with (@nil string). cbn [matchParts landing].
    by rewrite lookup_insert_eq.
  - apply matchRoute_exact. rewrite Hroot, Hsegs.
    apply routable_spec in Hroutable as [keys Hkeys].
    apply patternKeys_segments in Hkeys as [_ Hparts]; [|done].
    rewrite handlerAt_addParts by done.
    by rewrite segmentKey_fmap_literal, decide_True.
Qed.

Section MoreTrieFacts.

(** A successful registration sets one key of the root map of its method:
    the first key of the pattern. *)
Lemma storeRoute_insert path h current key keys :
  patternKeys path = Some (key :: keys) →
  ∃ node, storeRoute path h current = <[key := node]> current.
Proof.
  intros Hkeys. unfold storeRoute. destruct (decide (path = "/")) as [->|Hne].
  - injection Hkeys as <- <-. eauto.
  - apply patternKeys_segments in Hkeys as [Hkeys Hparts]; [|done].
    destruct (JsString.segments path) as [|part parts]; [done|].
    injection Hkeys as -> ->. rewrite addParts_cons. eauto.
Qed.

End MoreTrieFacts.

(** X4. Frame of a registration: a route whose first key is literal (the
    pattern "/", or a pattern whose first segment is not dynamic) changes
    no match of the other method, and no match of a request path that asks
    the root map for another key first. *)
Theorem registration_frame
    (m m' : Method) (pattern path key : string) (keys : list string)
    (h : Handler) (app app' : Bunwork.t) :
  Bunwork.addRoute m pattern h app = Normal app' →
  patternKeys pattern = Some (key :: keys) →
  literalSegment key →
  m' ≠ m ∨ entryKey path ≠ key →
  Bunwork.matchRoute m' path app' = Bunwork.matchRoute m' path app.
Proof.
  intros (_ & _ & _ & Hroot)%addRoute_routes Hkeys Hlit Hother.
  specialize (Hroot m'). destruct (decide (m' = m)) as [->|Hm].
  - destruct Hother as [?|Hentry]; [done|].
    destruct (storeRoute_insert pattern h (root m (Bunwork.routes app)) _ _ Hkeys)
      as [node Hstore].
    rewrite Hstore in Hroot. rewrite !matchRoute_landing, Hroot.
    unfold entryKey in Hentry.
    destruct (JsString.segments path) as [|part rest].
    + cbn [matchParts landing]. by rewrite lookup_insert_ne.
    + f_equal. apply matchParts_head_eq.
      * by rewrite lookup_insert_ne.
      * rewrite lookup_insert_ne; [done|]. by apply literalSegment_not_dynamic.
  - by apply matchRoute_root_eq.
Qed.

(** * Further properties of [handle] *)

Section ChainFacts.

(** What [runMiddlewares] returns, and what it has called by then. *)
Lemma runMiddlewares_spec mws req :
  match Bunwork.runMiddlewares mws req with
  | (Passed req', calls) =>
      allContinue mws req req' ∧ calls = CallMiddleware <$> mws
  | (Blocked res, calls) =>
      res = Bunwork.blockedResponse ∧
      ∃ before blocker after req1 req2,
        mws = before ++ blocker :: after ∧ allContinue before req req1 ∧
        blocker req1 = Returned false req2 ∧
        calls = CallMiddleware <$> (before ++ [blocker])
  | (Failed e, calls) =>
      ∃ before thrower after req1,
        mws = before ++ thrower :: after ∧ allContinue before req req1 ∧
        thrower req1 = Raised e ∧
        calls = CallMiddleware <$> (before ++ [thrower])
  end.
Proof.
  revert req. induction mws as [|fn mws IH]; intros req; [done|].
  cbn [Bunwork.runMiddlewares]. destruct (fn req) as [[] req1|e] eqn:Hfn.
  - specialize (IH req1).
    destruct (Bunwork.runMiddlewares mws req1) as [[req'|res|e] calls].
    + destruct IH as [Hall ->]. split; [|done]. cbn [allContinue]. eauto.
    + destruct IH as (-> & before & blocker & after & r1 & r2 & -> & Hall & Hb & ->).
      split; [done|]. exists (fn :: before), blocker, after, r1, r2.
      cbn [allContinue]. eauto 10.
    + destruct IH as (before & thrower & after & r1 & -> & Hall & Ht & ->).
      exists (fn :: before), thrower, after, r1. cbn [allContinue]. eauto 10.
  - split; [done|]. by exists [], fn, mws, req, req1.
  - by exists [], fn, mws, req.
Qed.

Lemma prefix_of_snoc_cons {A} (before after : list A) x :
  before ++ [x] `prefix_of` before ++ x :: after.
Proof. exists after. by rewrite <-app_assoc. Qed.

End ChainFacts.

(** X5. A request that passes every middleware and matches a route gets
    the completion of that route's handler, whatever it is; the handler is
    called once, after the middlewares, on the request as the middlewares
    left it with [params] replaced by the parameters of the match; the
    static routes are not consulted and no file is read. *)
Theorem matched_route_runs_handler
    (host : Host) (app : Bunwork.t) (req req' : IRequest) (m : Method)
    (h : Handler) (params : Params) :
  allContinue (Bunwork.middlewares app) req req' →
  Bunwork.methodOf (JsString.toUpperCase (method req)) = Some m →
  Bunwork.matchRoute m (pathname req) app = Some (h, params) →
  Bunwork.handle host app req =
    (h (setParams params req'),
     (CallMiddleware <$> Bunwork.middlewares app) ++ [CallHandler h]).
Proof.
  intros Hmws Hmethod Hmatch. unfold Bunwork.handle.
  by rewrite (runMiddlewares_passed _ _ _ Hmws), Hmethod, Hmatch.
Qed.

(** X6. When a middleware throws, the earlier ones having returned after
    calling [next], [handle] throws the same error; no later middleware,
    no handler and no file read follows. *)
Theorem throwing_middleware_propagates
    (host : Host) (app : Bunwork.t) (req req1 : IRequest)
    (before after : list Middleware) (thrower : Middleware) (e : JsError) :
  Bunwork.middlewares app = before ++ thrower :: after →
  allContinue before req req1 →
  thrower req1 = Raised e →
  Bunwork.handle host app req = (Thrown e, CallMiddleware <$> (before ++ [thrower])).
Proof.
  intros Hmws Hbefore Hthrow. unfold Bunwork.handle.
  rewrite Hmws, (runMiddlewares_app _ _ _ _ Hbefore).
  cbn [Bunwork.runMiddlewares]. rewrite Hthrow. cbn [fst snd].
  by rewrite fmap_app.
Qed.

(** X7. The calls of [handle], for every request: middlewares of the
    dispatcher from the first one on, in the order of their registration
    and each once; then, only if all of them were called, at most one
    more call, of a handler or of the file reader. *)
Theorem handle_trace_shape (host : Host) (app : Bunwork.t) (req : IRequest) :
  ∃ ran rest,
    ran `prefix_of` Bunwork.middlewares app ∧
    (Bunwork.handle host app req).2 = (CallMiddleware <$> ran) ++ rest ∧
    (rest = [] ∨
     ran = Bunwork.middlewares app ∧
     ((∃ h, rest = [CallHandler h]) ∨ (∃ filePath, rest = [ReadFile filePath]))).
Proof.
  unfold Bunwork.handle.
  pose proof (runMiddlewares_spec (Bunwork.middlewares app) req) as Hchain.
  destruct (Bunwork.runMiddlewares (Bunwork.middlewares app) req)
    as [[req'|res|e] calls].
  - destruct Hchain as [_ ->].
    destruct (Bunwork.methodOf _) as [m|].
    + destruct (Bunwork.matchRoute m (pathname req) app) as [[h params]|].
      * exists (Bunwork.middlewares app), [CallHandler h]. eauto 10.
      * rewrite serveStatic_firstWith.
        destruct (firstWith _ _) as [[route dirPath]|].
        -- eexists (Bunwork.middlewares app), [ReadFile _].
           split; [done|]. split; [reflexivity|]. eauto 10.
        -- exists (Bunwork.middlewares app), []. by rewrite app_nil_r; eauto.
    + exists (Bunwork.middlewares app), []. by rewrite app_nil_r; eauto.
  - destruct Hchain as (_ & before & blocker & after & r1 & r2 & -> & _ & _ & ->).
    exists (before ++ [blocker]), []. rewrite app_nil_r.
    eauto using prefix_of_snoc_cons.
  - destruct Hchain as (before & thrower & after & r1 & -> & _ & _ & ->).
    exists (before ++ [thrower]), []. rewrite app_nil_r.
    eauto using prefix_of_snoc_cons.
Qed.

(** X8. Where an error thrown by [handle] comes from: a middleware threw
    it, or the handler of the matched route threw it, or the method of the
    request is neither GET nor POST.  The static fallback never throws. *)
Theorem handle_throws_only (host : Host) (app : Bunwork.t) (req : IRequest) (e : JsError)
    (calls : list Event) :
  Bunwork.handle host app req = (Thrown e, calls) →
  (∃ before thrower after req1,
     Bunwork.middlewares app = before ++ thrower :: after ∧
     allContinue before req req1 ∧ thrower req1 = Raised e) ∨
  (∃ req', allContinue (Bunwork.middlewares app) req req' ∧
     (Bunwork.methodOf (JsString.toUpperCase (method req)) = None ∧
      e = TypeError "undefined is not an object" ∨
      ∃ m h params,
        Bunwork.methodOf (JsString.toUpperCase (method req)) = Some m ∧
        Bunwork.matchRoute m (pathname req) app = Some (h, params) ∧
        h (setParams params req') = Thrown e)).
Proof.
  unfold Bunwork.handle.
  pose proof (runMiddlewares_spec (Bunwork.middlewares app) req) as Hchain.
  destruct (Bunwork.runMiddlewares (Bunwork.middlewares app) req)
    as [[req'|res|e'] calls'].
  - destruct Hchain as [Hall ->]. intros Hthrown. right. exists req'. split; [done|].
    destruct (Bunwork.methodOf _) as [m|] eqn:Hmethod;
      [|left; by injection Hthrown as <- _].
    right. destruct (Bunwork.matchRoute m (pathname req) app) as [[h params]|] eqn:Hmatch.
    + injection Hthrown as Hh _. by exists m, h, params.
    + by destruct (Bunwork.serveStatic _ _ _) as [[res reads]|].
  - done.
  - destruct Hchain as (before & thrower & after & r1 & Hmws & Hall & Hthrow & _).
    intros [= <- _]. left. by exists before, thrower, after, r1.
Qed.

(** X9. A GET or POST request that passes the middlewares and matches no
    route gets the 404 for "Not Found" exactly when no static route is a
    prefix of its pathname; otherwise the answer comes from a file read
    (200, or the 404 for "File Not Found"). *)
Theorem unmatched_not_found_iff
    (host : Host) (app : Bunwork.t) (req req' : IRequest) (m : Method) :
  allContinue (Bunwork.middlewares app) req req' →
  Bunwork.methodOf (JsString.toUpperCase (method req)) = Some m →
  Bunwork.matchRoute m (pathname req) app = None →
  ((Bunwork.handle host app req).1 = Normal (mkResponse (Text "Not Found") 404) ↔
   Forall (λ entry, JsString.startsWith (pathname req) entry.1 = false)
     (JsObject.entries (Bunwork.staticRoutes app))) ∧
  ((Bunwork.handle host app req).2 = CallMiddleware <$> Bunwork.middlewares app ↔
   Forall (λ entry, JsString.startsWith (pathname req) entry.1 = false)
     (JsObject.entries (Bunwork.staticRoutes app))).
Proof.
  intros Hmws Hmethod Hmatch. rewrite (handle_unmatched _ _ _ _ _ Hmws Hmethod Hmatch).
  unfold JsObject.entries.
  induction (Bunwork.staticRoutes app) as [|[route dirPath] entries IH].
  - cbn. by split; split.
  - cbn [Bunwork.serveStatic]. rewrite Forall_cons. cbn [fst].
    destruct (JsString.startsWith (pathname req) route) eqn:Hprefix.
    + cbn [fst snd]. split; (split; [|by intros [? _]]).
      * by destruct (readFile host _).
      * intros Heq. apply (f_equal length) in Heq.
        rewrite length_app in Heq. cbn in Heq. lia.
    + destruct IH as [IH1 IH2]. rewrite IH1, IH2. by split; (split; [intros ?|intros [_ ?]]).
Qed.

(** X10. What a [static] call changes for the static fallback: it takes
    no request away from a static route that served it before (for its own
    prefix it replaces the directory in place), and it serves the requests
    that no static route served and that its prefix fits. *)
Theorem static_registration_effect
    (host : Host) (app : Bunwork.t) (route directoryPath pathname : string) :
  JsString.startsWith pathname "/" = true →
  Bunwork.serveStatic host
    (JsObject.entries (Bunwork.staticRoutes (Bunwork.static route directoryPath app)))
    pathname =
    match firstWith (JsString.startsWith pathname)
            (JsObject.entries (Bunwork.staticRoutes app)) with
    | Some (served, dirPath) =>
        Some (staticResponse host served
                (if decide (route = served) then directoryPath else dirPath) pathname)
    | None =>
        if JsString.startsWith pathname route
        then Some (staticResponse host route directoryPath pathname)
        else None
    end.
Proof.
  intros Hslash. rewrite serveStatic_firstWith. unfold JsObject.entries.
  rewrite firstWith_static by (intros k Hk; by apply (static_prefix_ordinary pathname)).
  destruct (firstWith _ (Bunwork.staticRoutes app)) as [[served dirPath]|]; [done|].
  by destruct (JsString.startsWith pathname route).
Qed.

Section RejectionFacts.

Lemma accepted_app_rejected entries path h rest :
  forallb (λ entry, routable entry.1) entries = true →
  routable path = false →
  accepted (entries ++ (path, h) :: rest) = entries ∧
  forallb (λ entry : string * Handler, routable entry.1)
    (entries ++ (path, h) :: rest) = false.
Proof.
  intros Hall Hbad. induction entries as [|[path' h'] entries IH].
  - cbn. by rewrite Hbad.
  - cbn [forallb fst] in Hall. apply andb_prop in Hall as [Hpath' Hall].
    destruct (IH Hall) as [IH1 IH2]. cbn [app accepted forallb fst].
    by rewrite Hpath', IH1, IH2.
Qed.


Lemma addRoutes_Thrown m entries app e :
  (Bunwork.addRoutes m entries app).2 = Thrown e →
  e = Error "Failed to add route handler. Node is undefined.".
Proof.
  revert app. induction entries as [|[path h] entries IH]; intros app; [done|].
  cbn [Bunwork.addRoutes].
  destruct (Bunwork.addRoute m path h app) as [app'|e'] eqn:Hadd; [apply IH|].
  cbn [snd]. intros [= ->]. pose proof (addRoute_Thrown _ _ _ _ _ Hadd) as Hnone.
  rewrite (addRoute_rejects m path h app Hnone) in Hadd. by injection Hadd as <-.
Qed.

End RejectionFacts.

(** X11. [registerBlueprint] completes normally exactly when [addRoute]
    accepts every GET and POST path of the blueprint, and throws the error
    of [addRoute] otherwise.  When a GET path is rejected, the dispatcher
    is left with the middlewares of the blueprint already added and the
    GET routes before the rejected path registered; the later GET routes
    and all POST routes are missing. *)
Theorem registerBlueprint_rejects
    (blueprint : Blueprint.t) (app : Bunwork.t) :
  let entries m := JsObject.entries (Blueprint.getRoutes blueprint m) in
  (Bunwork.registerBlueprint blueprint app).2 =
    (if forallb (λ entry, routable entry.1) (entries GET ++ entries POST)
     then Normal tt
     else Thrown (Error "Failed to add route handler. Node is undefined.")) ∧
  ∀ before path h rest,
    entries GET = before ++ (path, h) :: rest →
    forallb (λ entry, routable entry.1) before = true →
    routable path = false →
    (Bunwork.registerBlueprint blueprint app).1 =
      configure ((Use <$> Blueprint.getMiddlewares blueprint) ++
                 ((λ entry, Get entry.1 entry.2) <$> before)) app.
Proof.
  intros entries. split.
  - unfold Bunwork.registerBlueprint. cbv zeta. set (app0 := Bunwork.mk _ _ _).
    fold (entries GET) (entries POST). rewrite forallb_app.
    pose proof (addRoutes_completion GET (entries GET) app0) as Hget.
    pose proof (addRoutes_Thrown GET (entries GET) app0) as Hgete.
    destruct (Bunwork.addRoutes GET (entries GET) app0) as [app1 [[]|e]];
      cbn [fst snd] in *.
    + rewrite (proj1 Hget eq_refl). cbn [andb].
      pose proof (addRoutes_completion POST (entries POST) app1) as Hpost.
      pose proof (addRoutes_Thrown POST (entries POST) app1) as Hposte.
      destruct (Bunwork.addRoutes POST (entries POST) app1) as [app2 [[]|e]];
        cbn [fst snd] in *.
      * by rewrite (proj1 Hpost eq_refl).
      * rewrite (Hposte e eq_refl).
        destruct (forallb _ (entries POST)); [|done].
        by destruct Hpost as [_ Hpost]; specialize (Hpost eq_refl).
    + rewrite (Hgete e eq_refl).
      destruct (forallb _ (entries GET)); [|done].
      by destruct Hget as [_ Hget]; specialize (Hget eq_refl).
  - intros before path h rest Hentries Hbefore Hbad.
    rewrite registerBlueprint_configure. unfold mergedCalls.
    fold (entries GET) (entries POST). rewrite Hentries.
    destruct (accepted_app_rejected before path h rest Hbefore Hbad) as [-> ->].
    by rewrite app_nil_r.
Qed.

Section WalkFacts.

(** The walk over the segments of a pattern in a tree that holds the path
    of the pattern lands on the node of the pattern. *)
Lemma matchParts_pattern_keys parts current params node0 node :
  dynamicKeysShared current →
  nodeAt (segmentKey <$> parts) current = Some node →
  ∃ params',
    matchParts parts current params node0 = Some (children node, params', Some node).
Proof.
  revert current params node0.
  induction parts as [|part rest IH]; intros current params node0 Hshared Hnode; [done|].
  rewrite fmap_cons, nodeAt_cons in Hnode.
  destruct (current !! segmentKey part) as [found|] eqn:Hfound; [|done].
  cbn [mbind option_bind] in Hnode.
  assert (∀ params1,
    ∃ params',
      matchParts rest (children found) params1 (Some found) =
        Some (children node, params', Some node)) as Hrest.
  { intros params1. destruct rest as [|part' rest'].
    - cbn in Hnode. injection Hnode as ->. by exists params1.
    - apply IH; [|done].
      pose proof (dynamicKeysShared_children current (segmentKey part) Hshared) as Hc.
      by rewrite Hfound, nodeOrNew_Some in Hc. }
  destruct (decide (segmentKey part = part)) as [Hkey|Hkey].
  - rewrite (matchParts_literal part rest _ _ _ found); [done|]. by rewrite <-Hkey at 1.
  - assert (segmentKey part = ":" ∧ JsString.startsWith part ":" = true) as [Hdyn Hcolon].
    { unfold segmentKey in *. by destruct (JsString.startsWith part ":"). }
    rewrite (matchParts_dynamic part rest _ _ _ found); [done| |by rewrite <-Hdyn].
    apply eq_None_not_Some. intros Hsome.
    destruct Hkey. rewrite Hdyn. symmetry. apply (Hshared [] part); [|done].
    cbn [app]. by rewrite nodeAt_singleton.
Qed.

Lemma takenFrom_length current keys parts :
  takenFrom current keys parts → length keys = length parts.
Proof.
  revert current parts. induction keys as [|key keys IH]; intros current [|part parts];
    cbn [takenFrom]; try done.
  destruct (current !! key) as [node|]; [|done]. intros [_ Hrest].
  cbn [length]. f_equal. by apply (IH (children node)).
Qed.

(** There is at most one way through the tree for a list of segments. *)
Lemma takenFrom_unique current keys1 keys2 parts :
  takenFrom current keys1 parts → takenFrom current keys2 parts → keys1 = keys2.
Proof.
  revert current keys2 parts.
  induction keys1 as [|key1 keys1 IH]; intros current [|key2 keys2] [|part parts];
    cbn [takenFrom]; try done.
  destruct (current !! key1) as [node1|] eqn:Hnode1; [|done].
  destruct (current !! key2) as [node2|] eqn:Hnode2; [|done].
  intros [Hkey1 Hrest1] [Hkey2 Hrest2].
  assert (key1 = key2) as <-.
  { destruct Hkey1 as [->|[-> Hnone1]], Hkey2 as [->|[-> Hnone2]]; congruence. }
  f_equal. apply (IH (children node1) _ parts); [done|]. congruence.
Qed.

(** The loop of [matchRoute] against the relation: it ends with a node
    exactly when the segments can be taken through the tree, and then at
    the node reached, with the parameters bound on the way. *)
Lemma matchParts_takenFrom parts current params node0 current' params' node' :
  parts ≠ [] →
  matchParts parts current params node0 = Some (current', params', node') ↔
  ∃ keys node,
    takenFrom current keys parts ∧ nodeAt keys current = Some node ∧
    node' = Some node ∧ current' = children node ∧
    params' = boundFrom current keys parts params.
Proof.
  revert current params node0.
  induction parts as [|part rest IH]; intros current params node0 Hne; [done|].
  clear Hne. cbn [matchParts]. split.
  - assert (∀ key found params1,
      current !! key = Some found →
      key = part ∨ key = ":" ∧ current !! part = None →
      params1 = (if decide (key = part) then params else bindParam found part params) →
      matchParts rest (children found) params1 (Some found) =
        Some (current', params', node') →
      ∃ keys node,
        takenFrom current keys (part :: rest) ∧ nodeAt keys current = Some node ∧
        node' = Some node ∧ current' = children node ∧
        params' = boundFrom current keys (part :: rest) params) as Hstep.
    { intros key found params1 Hfound Hkey -> Hrest.
      destruct rest as [|part' rest'].
      - injection Hrest as <- <- <-. exists [key], found.
        cbn [takenFrom boundFrom]. rewrite nodeAt_singleton, Hfound. done.
      - apply IH in Hrest as (keys & node & Htaken & Hnode & -> & -> & ->); [|done].
        exists (key :: keys), node. cbn [takenFrom boundFrom]. rewrite Hfound.
        split; [done|]. split; [|done].
        destruct keys as [|key' keys]; [done|].
        by rewrite nodeAt_cons_cons, Hfound, nodeOrNew_Some. }
    destruct (current !! part) as [found|] eqn:Hpart.
    + intros Hrest. apply (Hstep part found params); auto. by rewrite decide_True.
    + destruct (current !! ":") as [found|] eqn:Hdyn; [|done].
      intros Hrest. apply (Hstep ":" found (bindParam found part params)); auto.
      rewrite decide_False; [done|]. intros <-. congruence.
  - intros ([|key keys] & node & Htaken & Hnode & -> & -> & ->); [done|].
    cbn [takenFrom boundFrom] in *.
    destruct (current !! key) as [found|] eqn:Hfound; [|done].
    destruct Htaken as [Hkey Htaken].
    assert (matchParts rest (children found)
              (if decide (key = part) then params else bindParam found part params)
              (Some found) =
            Some (children node,
                  boundFrom (children found) keys rest
                    (if decide (key = part) then params else bindParam found part params),
                  Some node)) as Hrest.
    { destruct rest as [|part' rest'].
      - destruct keys; [|done]. rewrite nodeAt_singleton, Hfound in Hnode.
        by injection Hnode as ->.
      - apply IH; [done|]. exists keys, node. split; [done|]. split; [|done].
        destruct keys as [|key' keys]; [done|].
        by rewrite nodeAt_cons_cons, Hfound, nodeOrNew_Some in Hnode. }
    destruct Hkey as [->|[-> Hnone]].
    + rewrite Hfound. rewrite !decide_True in Hrest by done.
      by rewrite decide_True.
    + assert (":" ≠ part) as Hpart by (intros <-; congruence).
      rewrite Hnone, Hfound. rewrite !decide_False in Hrest by done.
      by rewrite decide_False.
Qed.

End WalkFacts.

(** X12. A later pattern renames the parameter of an earlier route: after
    [p/:x] and then [p/:y/q] (p literal segments, q at least one segment,
    y neither empty nor __proto__), a request [p/s] whose segment s is not
    the key of a child there is answered by the handler of [p/:x], with the
    text s bound to y; x is not bound. *)
Theorem later_pattern_renames_parameter
    (app app1 app2 : Bunwork.t) (m : Method) (pattern1 pattern2 path : string)
    (before after : list string) (x y s : string) (h1 h2 : Handler) :
  JsString.segments pattern1 = before ++ [String ":" x] →
  JsString.segments pattern2 = before ++ String ":" y :: after →
  after ≠ [] →
  Forall literalSegment before →
  y ≠ "" → y ≠ "__proto__" →
  Bunwork.addRoute m pattern1 h1 app = Normal app1 →
  Bunwork.addRoute m pattern2 h2 app1 = Normal app2 →
  JsString.segments path = before ++ [s] →
  nodeAt (before ++ [s]) (root m (Bunwork.routes app2)) = None →
  Bunwork.matchRoute m path app2 = Some (h1, {[y := s]}).
Proof.
  intros Hparts1 Hparts2 Hafter Hlit Hy1 Hy2 Hadd1 Hadd2 Hpath Hfree.
  assert (∀ pattern parts, JsString.segments pattern = before ++ parts → parts ≠ [] →
            storeRoute pattern = addParts (before ++ parts)) as Hstore.
  { intros pattern parts Heq Hne. unfold storeRoute.
    destruct (decide (pattern = "/")) as [->|_]; [|by rewrite Heq].
    by destruct before, parts. }
  apply addRoute_routes in Hadd1 as (_ & _ & _ & Hroot1).
  apply addRoute_routes in Hadd2 as (_ & _ & _ & Hroot2).
  specialize (Hroot1 m). specialize (Hroot2 m).
  rewrite decide_True in Hroot1, Hroot2 by done.
  rewrite (Hstore pattern1 [String ":" x]) in Hroot1 by done.
  rewrite (Hstore pattern2 (String ":" y :: after)) in Hroot2 by done.
  rewrite Hroot1 in Hroot2. clear Hroot1 Hstore.
  set (c := root m (Bunwork.routes app)) in *.
  set (c2 := root m (Bunwork.routes app2)) in *.
  assert (segmentKey <$> before ++ [String ":" x] = before ++ [":"]) as Hkeys1.
  { by rewrite fmap_app, segmentKey_fmap_literal. }
  assert (segmentKey <$> before ++ String ":" y :: after =
          (before ++ [":"]) ++ (segmentKey <$> after)) as Hkeys2.
  { by rewrite fmap_app, segmentKey_fmap_literal, <-app_assoc. }
  assert (is_Some (nodeAt (before ++ [":"]) c2)) as [dynamic Hdynamic].
  { rewrite Hroot2. apply nodeAt_addParts_is_Some. right. split; [by destruct before|].
    rewrite Hkeys2. by apply prefix_app_r. }
  assert (handler dynamic = Some h1) as Hhandler.
  { pose proof (handlerAt_addParts (before ++ String ":" y :: after) h2
                  (before ++ [":"])
                  (addParts (before ++ [String ":" x]) h1 c)) as Hh.
    rewrite <-Hroot2 in Hh. unfold handlerAt at 1 in Hh. rewrite Hdynamic in Hh.
    cbn [mbind option_bind] in Hh. rewrite Hh by (by destruct before).
    rewrite decide_False.
    - rewrite handlerAt_addParts by (by destruct before).
      by rewrite Hkeys1, decide_True.
    - rewrite Hkeys2. intros Heq. apply (f_equal length) in Heq.
      rewrite !length_app, length_fmap in Heq. destruct after; [done|]. cbn in Heq. lia. }
  assert (paramName dynamic = Some y) as Hname.
  { pose proof (paramNameAt_addParts (before ++ String ":" y :: after) h2
                  (before ++ [":"])
                  (addParts (before ++ [String ":" x]) h1 c)) as Hn.
    rewrite <-Hroot2 in Hn. unfold paramNameAt at 1 in Hn. rewrite Hdynamic in Hn.
    cbn [mbind option_bind] in Hn. rewrite Hn.
    by rewrite namedBy_dynamic. }
  rewrite matchRoute_landing, Hpath. fold c2.
  destruct (matchParts_prefix before [s] c2 ∅ None) as (current' & node1 & -> & Hcurrent & _).
  { apply (nodeAt_snoc_is_Some _ ":"). by rewrite Hdynamic. }
  rewrite (matchParts_dynamic s [] _ _ _ dynamic).
  - cbn [matchParts landing]. rewrite Hhandler. unfold bindParam. rewrite Hname.
    by rewrite !decide_False.
  - by rewrite Hcurrent.
  - by rewrite Hcurrent.
Qed.

(** X13. The walk does not go back: when the tree has a child for the
    text of a segment, reached through the literal children of the
    segments before it, a match of the whole path can only return a handler
    stored below that child, whatever the dynamic sibling holds; with no
    such handler below it along the rest of the path the request matches
    no route. *)
Theorem literal_child_commits
    (app : Bunwork.t) (m : Method) (path : string) (before after : list string)
    (s : string) :
  JsString.segments path = before ++ s :: after →
  is_Some (nodeAt (before ++ [s]) (root m (Bunwork.routes app))) →
  (∀ h params,
     Bunwork.matchRoute m path app = Some (h, params) →
     ∃ keys,
       Forall2 keyTaken keys after ∧
       handlerAt (before ++ s :: keys) (root m (Bunwork.routes app)) = Some h) ∧
  ((∀ keys, Forall2 keyTaken keys after →
            handlerAt (before ++ s :: keys) (root m (Bunwork.routes app)) = None) →
   Bunwork.matchRoute m path app = None).
Proof.
  intros Hpath [literal Hliteral].
  set (c := root m (Bunwork.routes app)) in *.
  assert (∀ h params,
    Bunwork.matchRoute m path app = Some (h, params) →
    ∃ keys, Forall2 keyTaken keys after ∧ handlerAt (before ++ s :: keys) c = Some h)
    as Hcommit.
  { intros h params. rewrite matchRoute_landing, Hpath. fold c.
    destruct (matchParts_prefix before (s :: after) c ∅ None)
      as (current' & node1 & -> & Hcurrent & _).
    { apply (nodeAt_snoc_is_Some _ s). by rewrite Hliteral. }
    rewrite (matchParts_literal s after _ _ _ literal) by (by rewrite Hcurrent).
    destruct after as [|part after'].
    - cbn [matchParts landing]. destruct (handler literal) as [h'|] eqn:Hh; [|done].
      intros [= <- <-]. exists []. split; [done|].
      unfold handlerAt. by rewrite Hliteral.
    - destruct (matchParts (part :: after') (children literal) ∅ (Some literal))
        as [[[current2 params2] node2]|] eqn:Hwalk; [|done].
      apply matchParts_landed in Hwalk as (keys & node & -> & -> & Hnode & Htaken); [|done].
      cbn [landing]. destruct (handler node) as [h'|] eqn:Hh; [|done].
      intros [= <- <-]. exists keys. split; [done|].
      unfold handlerAt.
      replace (before ++ s :: keys) with ((before ++ [s]) ++ keys) by by rewrite <-app_assoc.
      rewrite (nodeAt_app _ _ _ literal), Hnode; [done| |done].
      intros ->. by apply Forall2_nil_inv_l in Htaken. }
  split; [done|]. intros Hnone.
  destruct (Bunwork.matchRoute m path app) as [[h params]|] eqn:Hmatch; [|done].
  destruct (Hcommit h params eq_refl) as (keys & Htaken & Hh).
  by rewrite Hnone in Hh.
Qed.

(** X14. [matchRoute] against the walk relation, for a path with a
    segment: it returns a handler exactly when the segments can be taken
    through the tree, each through the child with its own text if there is
    one and through the dynamic child only if there is none, and the node
    reached holds that handler; the parameters are those bound on the way;
    and there is at most one such way. *)
Theorem matchRoute_walk
    (app : Bunwork.t) (m : Method) (path : string) (h : Handler) (params : Params) :
  JsString.segments path ≠ [] →
  let current := root m (Bunwork.routes app) in
  (Bunwork.matchRoute m path app = Some (h, params) ↔
   ∃ keys,
     takenFrom current keys (JsString.segments path) ∧
     handlerAt keys current = Some h ∧
     params = boundFrom current keys (JsString.segments path) ∅) ∧
  (∀ keys1 keys2,
     takenFrom current keys1 (JsString.segments path) →
     takenFrom current keys2 (JsString.segments path) →
     keys1 = keys2).
Proof.
  intros Hne current. split; [|intros ??; apply takenFrom_unique].
  rewrite matchRoute_landing. fold current. split.
  - destruct (matchParts _ current ∅ None) as [[[current' params'] node']|] eqn:Hwalk;
      [|done].
    apply matchParts_takenFrom in Hwalk as (keys & node & Htaken & Hnode & -> & -> & ->);
      [|done].
    cbn [landing]. destruct (handler node) as [h'|] eqn:Hh; [|done].
    intros [= <- <-]. exists keys. split; [done|]. split; [|done].
    unfold handlerAt. by rewrite Hnode.
  - intros (keys & Htaken & Hh & ->). unfold handlerAt in Hh.
    destruct (nodeAt keys current) as [node|] eqn:Hnode; [|done].
    cbn [mbind option_bind] in Hh.
    rewrite (proj2 (matchParts_takenFrom _ current ∅ None (children node)
                      (boundFrom current keys (JsString.segments path) ∅)
                      (Some node) Hne)).
    + cbn [landing]. by rewrite Hh.
    + by exists keys, node.
Qed.

Section RegisteredFacts.

Lemma storedOf_routable entries pattern :
  pattern ∈ storedOf entries → routable pattern = true.
Proof.
  induction entries as [|[path h] entries IH]; cbn [storedOf].
  - by intros ?%elem_of_nil.
  - destruct (routable path) eqn:Hpath; [|by intros ?%elem_of_nil].
    by intros [->|?]%elem_of_cons; [|apply IH].
Qed.

(** Only patterns that [addRoute] accepts are registered. *)
Lemma registered_routable m calls pattern :
  pattern ∈ registered m calls → routable pattern = true.
Proof.
  unfold registered. intros (call & Hin & _)%list_elem_of_bind.
  destruct call as [path h|path h| | |blueprint], m; cbn [stored] in Hin;
    try (by apply elem_of_nil in Hin); try (by apply storedOf_routable in Hin).
  destruct (forallb _ _); [by apply storedOf_routable in Hin|by apply elem_of_nil in Hin].
Qed.

End RegisteredFacts.

(** X15. No registered route is dead: in a dispatcher configured by any
    calls, every registered pattern, taken as a request path, is matched,
    by the handler stored at the node where the pattern terminates. *)
Theorem registered_pattern_matches
    (calls : list Registration) (m : Method) (pattern : string) :
  let app := configure calls Bunwork.new in
  pattern ∈ registered m calls →
  ∃ h params keys,
    Bunwork.matchRoute m pattern app = Some (h, params) ∧
    patternKeys pattern = Some keys ∧
    handlerAt keys (root m (Bunwork.routes app)) = Some h.
Proof.
  intros app Hin. pose proof (configure_invariant calls m) as Hinv. fold app in Hinv.
  set (c := root m (Bunwork.routes app)) in *.
  pose proof (registered_routable _ _ _ Hin) as [keys Hkeys]%routable_spec.
  assert (is_Some (handlerAt keys c)) as [h Hh].
  { apply (inv_handler _ _ Hinv). eauto. }
  exists h. unfold handlerAt in Hh.
  destruct (nodeAt keys c) as [node|] eqn:Hnode; [|done]. cbn [mbind option_bind] in Hh.
  rewrite matchRoute_landing. fold c.
  destruct (decide (pattern = "/")) as [->|Hroot].
  - unfold patternKeys in Hkeys. rewrite decide_True in Hkeys by done.
    injection Hkeys as <-. rewrite nodeAt_singleton in Hnode.
    change (JsString.segments "/") with (@nil string). cbn [matchParts landing].
    rewrite Hnode, Hh. exists ∅, ["/"]. split; [done|]. split; [done|].
    unfold handlerAt. by rewrite nodeAt_singleton, Hnode.
  - pose proof Hkeys as [-> Hparts]%patternKeys_segments; [|done].
    destruct (matchParts_pattern_keys (JsString.segments pattern) c ∅ None node
                (inv_dynamic _ _ Hinv) Hnode) as [params' ->].
    cbn [landing]. rewrite Hh. exists params', (segmentKey <$> JsString.segments pattern).
    split; [done|]. split; [done|]. unfold handlerAt. by rewrite Hnode.
Qed.

(** * Replaying registrations *)

Section ReplayFacts.

Lemma lastWith_init {A B} (f : A → option B) l init :
  lastWith f l init =
    match lastWith f l None with Some b => Some b | None => init end.
Proof.
  revert init. induction l as [|a l IH]; intros init; [done|].
  cbn [lastWith]. rewrite IH, (IH (match f a with Some b => Some b | None => None end)).
  destruct (lastWith f l None); [done|]. by destruct (f a).
Qed.

Lemma lastWith_twice {A B} (f : A → option B) l init :
  lastWith f l (lastWith f l init) = lastWith f l init.
Proof.
  rewrite (lastWith_init f l (lastWith f l init)), (lastWith_init f l init).
  by destruct (lastWith f l None).
Qed.

Lemma storeAll_cons entry entries current :
  storeAll (entry :: entries) current =
    storeAll entries (storeRoute entry.1 entry.2 current).
Proof. done. Qed.

Lemma storeAll_app entries1 entries2 current :
  storeAll (entries1 ++ entries2) current = storeAll entries2 (storeAll entries1 current).
Proof. apply foldl_app. Qed.

Lemma accepted_routable entries :
  Forall (λ entry : string * Handler, routable entry.1 = true) (accepted entries).
Proof.
  induction entries as [|[path h] entries IH]; cbn [accepted]; [done|].
  destruct (routable path) eqn:Hpath; [|done]. by constructor.
Qed.

Lemma storedRoutes_routable m call :
  Forall (λ entry : string * Handler, routable entry.1 = true) (storedRoutes m call).
Proof.
  destruct call, m; cbn [storedRoutes]; try done; try apply accepted_routable.
  destruct (forallb _ _); [apply accepted_routable|done].
Qed.

Lemma root_addRoutes m m' entries app :
  root m' (Bunwork.routes (Bunwork.addRoutes m entries app).1) =
    if decide (m' = m) then storeAll (accepted entries) (root m (Bunwork.routes app))
    else root m' (Bunwork.routes app).
Proof.
  revert app. induction entries as [|[path h] entries IH]; intros app.
  - cbn. by destruct (decide (m' = m)) as [->|].
  - cbn [Bunwork.addRoutes accepted].
    destruct (Bunwork.addRoute m path h app) as [app'|e] eqn:Hadd.
    + pose proof Hadd as (-> & _ & _ & Hroot)%addRoute_routes.
      rewrite IH, storeAll_cons. cbn [fst snd].
      pose proof (Hroot m) as Hm. rewrite decide_True in Hm by done.
      pose proof (Hroot m') as Hm'.
      destruct (decide (m' = m)) as [->|]; [by rewrite Hm|done].
    + apply addRoute_Thrown in Hadd. unfold routable. rewrite Hadd. cbn.
      by destruct (decide (m' = m)) as [->|].
Qed.

Lemma root_register m call app :
  root m (Bunwork.routes (register call app)) =
    storeAll (storedRoutes m call) (root m (Bunwork.routes app)).
Proof.
  destruct call as [path h|path h|fn|route directoryPath|blueprint]; cbn [register].
  - pose proof (root_addRoutes GET m [(path, h)] app) as Hroot.
    cbn [Bunwork.addRoutes] in Hroot. unfold Bunwork.get.
    destruct (Bunwork.addRoute GET path h app) as [app'|e] eqn:Hadd; cbn [fst] in Hroot.
    + rewrite Hroot. by destruct m.
    + apply addRoute_Thrown in Hadd. destruct m; [|done].
      cbn [storedRoutes accepted]. unfold routable. by rewrite Hadd.
  - pose proof (root_addRoutes POST m [(path, h)] app) as Hroot.
    cbn [Bunwork.addRoutes] in Hroot. unfold Bunwork.post.
    destruct (Bunwork.addRoute POST path h app) as [app'|e] eqn:Hadd; cbn [fst] in Hroot.
    + rewrite Hroot. by destruct m.
    + apply addRoute_Thrown in Hadd. destruct m; [done|].
      cbn [storedRoutes accepted]. unfold routable. by rewrite Hadd.
  - by destruct m.
  - unfold Bunwork.static. destruct (decide (route = "__proto__")); by destruct m.
  - unfold Bunwork.registerBlueprint. cbv zeta. set (app0 := Bunwork.mk _ _ _).
    change (Blueprint.getRoutes blueprint GET) with (Blueprint.GET_routes blueprint).
    change (Blueprint.getRoutes blueprint POST) with (Blueprint.POST_routes blueprint).
    unfold JsObject.entries.
    pose proof (λ m', root_addRoutes GET m' (Blueprint.GET_routes blueprint) app0) as Hget.
    pose proof (addRoutes_completion GET (Blueprint.GET_routes blueprint) app0) as Hdone.
    destruct (Bunwork.addRoutes GET (Blueprint.GET_routes blueprint) app0)
      as [app1 [[]|e]]; cbn [fst snd] in *.
    + rewrite (root_addRoutes POST m (Blueprint.POST_routes blueprint) app1).
      destruct m; cbn [storedRoutes].
      * by rewrite decide_False, Hget, decide_True.
      * by rewrite decide_True, Hget, decide_False, (proj1 Hdone eq_refl).
    + rewrite Hget. destruct m; cbn [storedRoutes]; [by rewrite decide_True|].
      rewrite decide_False by done.
      destruct (forallb _ _); [|done].
      by destruct Hdone as [_ Hdone]; specialize (Hdone eq_refl).
Qed.

Lemma root_configure m calls app :
  root m (Bunwork.routes (configure calls app)) =
    storeAll (calls ≫= storedRoutes m) (root m (Bunwork.routes app)).
Proof.
  revert app. induction calls as [|call calls IH]; intros app; [done|].
  rewrite configure_cons, IH, root_register. cbn [mbind list_bind].
  by rewrite storeAll_app.
Qed.

Lemma storeAll_invariant entries current patterns :
  routeInvariant current patterns →
  Forall (λ entry : string * Handler, routable entry.1 = true) entries →
  routeInvariant (storeAll entries current) (patterns ++ entries.*1).
Proof.
  revert current patterns.
  induction entries as [|[path h] entries IH]; intros current patterns Hinv Hall.
  - by rewrite app_nil_r.
  - apply Forall_cons in Hall as [Hpath Hall]. rewrite storeAll_cons, fmap_cons.
    cbn [fst snd]. rewrite (cons_middle path), app_assoc. apply IH; [|done].
    apply routeInvariant_storeRoute; [done|]. by apply routable_spec.
Qed.

Lemma routeInvariant_root_param current patterns name :
  routeInvariant current patterns → paramNameAt ["/"] current ≠ Some name.
Proof.
  intros Hinv Hname. assert ("/" = ":") as Habs; [|done].
  apply (inv_paramName _ _ Hinv []). cbn [app]. by rewrite Hname.
Qed.

(** The handler, the parameter name and the presence of a node at a
    position, after a list of routes has been stored. *)
Lemma storeAll_observed entries current patterns keys :
  routeInvariant current patterns →
  Forall (λ entry : string * Handler, routable entry.1 = true) entries →
  handlerAt keys (storeAll entries current) =
    lastWith (λ entry : string * Handler,
                if decide (patternKeys entry.1 = Some keys) then Some entry.2 else None)
      entries (handlerAt keys current) ∧
  paramNameAt keys (storeAll entries current) =
    lastWith (λ entry : string * Handler,
                if decide (entry.1 = "/") then None
                else namedBy (JsString.segments entry.1) keys)
      entries (paramNameAt keys current) ∧
  (is_Some (nodeAt keys (storeAll entries current)) ↔
   is_Some (nodeAt keys current) ∨
   ∃ entry own, entry ∈ entries ∧ patternKeys entry.1 = Some own ∧
                keys ≠ [] ∧ keys `prefix_of` own).
Proof.
  revert current patterns.
  induction entries as [|[path h] entries IH]; intros current patterns Hinv Hall.
  - cbn [storeAll foldl lastWith]. split; [done|]. split; [done|].
    split; [by left|]. intros [?|(entry & _ & Hin & _)]; [done|].
    by apply elem_of_nil in Hin.
  - apply Forall_cons in Hall as [Hpath Hall]. cbn [fst] in Hpath.
    apply routable_spec in Hpath as [own Hown].
    assert (routeInvariant (storeRoute path h current) (patterns ++ [path])) as Hinv'.
    { apply routeInvariant_storeRoute; [done|]. by rewrite Hown. }
    rewrite storeAll_cons. cbn [fst snd lastWith].
    destruct (IH _ _ Hinv' Hall) as (-> & -> & ->).
    rewrite (handlerAt_storeRoute path h current own Hown (inv_root _ _ Hinv)).
    rewrite (paramNameAt_storeRoute path h current own Hown (inv_root _ _ Hinv))
      by (intros name; apply (routeInvariant_root_param _ _ _ Hinv)).
    rewrite (nodeAt_storeRoute_is_Some path h current own Hown (inv_root _ _ Hinv)).
    split; [|split].
    + f_equal. rewrite Hown.
      destruct (decide (keys = own)) as [->|Hne].
      * by rewrite decide_True.
      * rewrite decide_False; [done|]. by intros [= <-].
    + f_equal. by destruct (decide (path = "/")).
    + split.
      * intros [[?|[? ?]]|(entry & own' & Hin & ? & ? & ?)]; [by left|right..].
        -- exists (path, h), own. split; [by left|done].
        -- exists entry, own'. split; [by right|done].
      * intros [?|(entry & own' & [->|Hin]%elem_of_cons & Hown' & ? & ?)].
        -- by left; left.
        -- cbn [fst] in Hown'. left; right. split; [done|]. congruence.
        -- right. by exists entry, own'.
Qed.

(** Storing a list of routes a second time changes nothing that a match
    can observe. *)
Lemma storeAll_twice entries current patterns :
  routeInvariant current patterns →
  Forall (λ entry : string * Handler, routable entry.1 = true) entries →
  sameRoutesExcept (λ _, False) (storeAll entries (storeAll entries current))
    (storeAll entries current).
Proof.
  intros Hinv Hall keys.
  pose proof (storeAll_invariant _ _ _ Hinv Hall) as Hinv'.
  destruct (storeAll_observed entries _ _ keys Hinv' Hall) as (Hh2 & Hn2 & Hs2).
  destruct (storeAll_observed entries _ _ keys Hinv Hall) as (Hh1 & Hn1 & Hs1).
  split; [|split].
  - rewrite Hs2, Hs1. tauto.
  - by rewrite Hn2, Hn1, lastWith_twice.
  - intros _. by rewrite Hh2, Hh1, lastWith_twice.
Qed.

Lemma landing_sameRoutes_all c1 c2 parts :
  sameRoutesExcept (λ _, False) c1 c2 →
  landing (matchParts parts c1 ∅ None) = landing (matchParts parts c2 ∅ None).
Proof.
  intros Hsame. destruct parts as [|part parts].
  - cbn [matchParts landing].
    pose proof (sameRoutesExcept_lookup _ _ _ "/" Hsame) as Hroot.
    destruct (c1 !! "/") as [n1|], (c2 !! "/") as [n2|]; try done.
    destruct Hroot as (_ & Hh & _). rewrite Hh; [done|tauto].
  - pose proof (matchParts_sameRoutes _ _ _ (part :: parts) ∅ None None Hsame) as Hwalk.
    destruct (matchParts (part :: parts) c1 ∅ None) as [[[current1 params1] [n1|]]|],
      (matchParts (part :: parts) c2 ∅ None) as [[[current2 params2] [n2|]]|];
      try (by destruct Hwalk); try done.
    destruct Hwalk as (-> & keys & Hn1 & Hn2); [done|].
    cbn [landing]. destruct (Hsame keys) as (_ & _ & Hh).
    unfold handlerAt in Hh. rewrite Hn1, Hn2 in Hh. cbn [mbind option_bind] in Hh.
    rewrite Hh; [done|tauto].
Qed.

Lemma middlewares_register call app :
  Bunwork.middlewares (register call app) =
    Bunwork.middlewares app ++ addedMiddlewares call.
Proof.
  destruct call as [path h|path h|fn|route directoryPath|blueprint];
    cbn [register addedMiddlewares].
  - unfold Bunwork.get. destruct (Bunwork.addRoute GET path h app) eqn:Hadd.
    + apply addRoute_routes in Hadd as (_ & -> & _). by rewrite app_nil_r.
    + by rewrite app_nil_r.
  - unfold Bunwork.post. destruct (Bunwork.addRoute POST path h app) eqn:Hadd.
    + apply addRoute_routes in Hadd as (_ & -> & _). by rewrite app_nil_r.
    + by rewrite app_nil_r.
  - done.
  - unfold Bunwork.static. destruct (decide _); by rewrite app_nil_r.
  - apply registerBlueprint_middlewares.
Qed.

Lemma middlewares_configure calls app :
  Bunwork.middlewares (configure calls app) =
    Bunwork.middlewares app ++ (calls ≫= addedMiddlewares).
Proof.
  revert app. induction calls as [|call calls IH]; intros app.
  - by rewrite app_nil_r.
  - rewrite configure_cons, IH, middlewares_register. cbn [mbind list_bind].
    by rewrite app_assoc.
Qed.

End ReplayFacts.

(** X16. Replaying registration calls on a configured dispatcher (the
    same routes, the same blueprint merged twice, ...) changes no route
    match, but every middleware the calls add is then in the chain twice,
    so it runs twice for each request. *)
Theorem replayed_calls_match_the_same
    (earlier calls : list Registration) (m : Method) (path : string) :
  let app := configure earlier Bunwork.new in
  Bunwork.matchRoute m path (configure (calls ++ calls) app) =
    Bunwork.matchRoute m path (configure calls app) ∧
  Bunwork.middlewares (configure (calls ++ calls) app) =
    Bunwork.middlewares app ++ (calls ≫= addedMiddlewares) ++ (calls ≫= addedMiddlewares).
Proof.
  intros app. split.
  - rewrite !matchRoute_landing, configure_app, !root_configure.
    apply landing_sameRoutes_all.
    apply (storeAll_twice _ _ (registered m earlier)).
    + apply configure_invariant.
    + apply Forall_bind, Forall_forall. intros call _. apply storedRoutes_routable.
  - by rewrite middlewares_configure, bind_app.
Qed.

(** * The table dispatcher *)

Section TableFacts.

(** The table after [addRoute], read as [handle] reads it. *)
Lemma table_addRoute (routes : JsObject.t (JsObject.t Handler)) method path
    (h : Handler) path' method' :
  let routes0 :=
    if JsObject.has path routes then routes else JsObject.set path [] routes in
  let byMethod := default [] (JsObject.get path routes0) in
  match JsObject.get path' (JsObject.set path (JsObject.set method h byMethod) routes0) with
  | Some found => JsObject.get method' found
  | None => None
  end =
    if decide (path' = path ∧ method' = method) then Some h
    else match JsObject.get path' routes with
         | Some found => JsObject.get method' found
         | None => None
         end.
Proof.
  cbv zeta. unfold JsObject.has.
  destruct (JsObject.get path routes) as [found|] eqn:Hfound.
  - rewrite Hfound. cbn [default from_option id]. rewrite get_set.
    destruct (decide (path' = path)) as [->|Hpath].
    + rewrite Hfound, get_set. destruct (decide (method' = method)) as [->|Hmethod].
      * by rewrite decide_True.
      * rewrite decide_False; [done|]. by intros [_ ?].
    + rewrite decide_False; [done|]. by intros [? _].
  - rewrite !get_set. rewrite (decide_True (P := path = path)) by done.
    cbn [default from_option id].
    destruct (decide (path' = path)) as [->|Hpath].
    + rewrite Hfound, get_set. cbn [JsObject.get].
      destruct (decide (method' = method)) as [->|Hmethod].
      * by rewrite decide_True.
      * rewrite decide_False; [done|]. by intros [_ ?].
    + rewrite decide_False; [done|]. by intros [? _].
Qed.

Lemma methodName_inj m1 m2 : methodName m1 = methodName m2 → m1 = m2.
Proof. by destruct m1, m2. Qed.

End TableFacts.

(** X17. The table dispatcher stores a handler for a pair of a path and a
    method: after [addRoute] that pair has the new handler, whatever it had
    before, and every other pair (another path, or the other method of the
    same path) has what it had. *)
Theorem core_addRoute_lookup
    (m : Method) (path path' method' : string) (h : Handler) (app : Core.t) :
  JsString.startsWith path "/" = true →
  Core.routeHandler path' method' (Core.addRoute m path h app) =
    (if decide (path' = path ∧ method' = methodName m) then Some h
     else Core.routeHandler path' method' app) ∧
  Core.middlewares (Core.addRoute m path h app) = Core.middlewares app ∧
  Core.staticRoutes (Core.addRoute m path h app) = Core.staticRoutes app.
Proof.
  intros _. split; [|done]. unfold Core.routeHandler, Core.addRoute. cbn [Core.routes].
  apply table_addRoute.
Qed.

(** X18. The table dispatcher on a request that passes the middlewares,
    for any method: the handler stored for the exact pathname and the
    upper-cased method answers, on the request as the middlewares left it;
    without one, the first static route that is a prefix of the pathname
    answers from a file; without one, the answer is the 404 for "Not
    Found".  No method makes it throw. *)
Theorem core_handle_dispatch
    (host : Host) (app : Core.t) (req req' : IRequest) :
  allContinue (Core.middlewares app) req req' →
  let calls := CallMiddleware <$> Core.middlewares app in
  Core.handle host app req =
    match Core.routeHandler (pathname req) (JsString.toUpperCase (method req)) app with
    | Some h => (h req', calls ++ [CallHandler h])
    | None =>
        match firstWith (JsString.startsWith (pathname req))
                (JsObject.entries (Core.staticRoutes app)) with
        | Some (route, dirPath) =>
            (Normal (staticResponse host route dirPath (pathname req)).1,
             calls ++ (staticResponse host route dirPath (pathname req)).2)
        | None => (Normal (mkResponse (Text "Not Found") 404), calls)
        end
    end.
Proof.
  intros Hmws calls. unfold Core.handle, Core.runMiddlewares.
  rewrite (runMiddlewares_passed _ _ _ Hmws). fold calls.
  destruct (Core.routeHandler _ _ app) as [h|]; [done|].
  unfold Core.handleStaticRoute. rewrite serveStatic_firstWith.
  destruct (firstWith _ _) as [[route dirPath]|]; [done|].
  by rewrite app_nil_r.
Qed.

(** X19. Where an error thrown by the table dispatcher comes from: a
    middleware threw it, or the handler stored for the pathname and the
    method threw it. *)
Theorem core_handle_throws_only
    (host : Host) (app : Core.t) (req : IRequest) (e : JsError) (calls : list Event) :
  Core.handle host app req = (Thrown e, calls) →
  (∃ before thrower after req1,
     Core.middlewares app = before ++ thrower :: after ∧
     allContinue before req req1 ∧ thrower req1 = Raised e) ∨
  (∃ req' h,
     allContinue (Core.middlewares app) req req' ∧
     Core.routeHandler (pathname req) (JsString.toUpperCase (method req)) app = Some h ∧
     h req' = Thrown e).
Proof.
  unfold Core.handle, Core.runMiddlewares.
  pose proof (runMiddlewares_spec (Core.middlewares app) req) as Hchain.
  destruct (Bunwork.runMiddlewares (Core.middlewares app) req)
    as [[req'|res|e'] calls'].
  - destruct Hchain as [Hall ->]. intros Hthrown. right. exists req'.
    destruct (Core.routeHandler _ _ app) as [h|] eqn:Hh.
    + injection Hthrown as Hthrown _. by exists h.
    + by destruct (Core.handleStaticRoute host app (pathname req)).
  - done.
  - destruct Hchain as (before & thrower & after & r1 & Hmws & Hall & Hthrow & _).
    intros [= <- _]. left. by exists before, thrower, after, r1.
Qed.

(** * The router *)

Section RouterFacts.

Lemma acceptedCalls_app calls1 calls2 :
  acceptedCalls (calls1 ++ calls2) =
    if forallb callAccepted calls1 then calls1 ++ acceptedCalls calls2
    else acceptedCalls calls1.
Proof.
  induction calls1 as [|call calls1 IH]; [done|].
  cbn [app acceptedCalls forallb]. destruct (callAccepted call); [|done].
  cbn [andb]. rewrite IH. by destruct (forallb callAccepted calls1).
Qed.

Lemma addRoute_accepted m path h app :
  routable path = true →
  ∃ app', Bunwork.addRoute m path h app = Normal app'.
Proof.
  intros Hpath%routable_spec. eexists. by apply addRoute_Normal.
Qed.

Lemma configure_Use_foldl fns app :
  foldl (λ app mw, Bunwork.middleware mw app) app fns = configure (Use <$> fns) app.
Proof.
  revert app. induction fns as [|fn fns IH]; intros app; [done|].
  cbn [foldl]. by rewrite IH.
Qed.

(** The loops of [applyTo] on a tree dispatcher as calls on it. *)
Lemma applyMethods_tree path byMethod (app : Bunwork.t) :
  Router.applyMethods path byMethod app =
    if forallb callAccepted (methodCalls path byMethod)
    then (configure (methodCalls path byMethod) app, Normal tt)
    else (configure (acceptedCalls (methodCalls path byMethod)) app,
          Thrown (Error "Failed to add route handler. Node is undefined.")).
Proof.
  revert app. induction byMethod as [|[method h] byMethod IH]; intros app; [done|].
  cbn [Router.applyMethods methodCalls app_get app_post Bunwork_Dispatcher].
  destruct (decide (method = "GET")) as [->|Hget].
  - cbn [forallb acceptedCalls]. unfold callAccepted at 1 3. cbn [callPattern].
    destruct (routable path) eqn:Hpath.
    + destruct (addRoute_accepted GET path h app Hpath) as [app' Hadd].
      unfold Bunwork.get. rewrite Hadd, IH. cbn [andb]. rewrite !configure_cons.
      cbn [register]. unfold Bunwork.get. by rewrite Hadd.
    + apply Bool.not_true_iff_false in Hpath. rewrite routable_spec in Hpath.
      unfold Bunwork.get. rewrite addRoute_rejects; [done|].
      by apply eq_None_not_Some.
  - destruct (decide (method = "POST")) as [->|Hpost]; [|apply IH].
    cbn [forallb acceptedCalls]. unfold callAccepted at 1 3. cbn [callPattern].
    destruct (routable path) eqn:Hpath.
    + destruct (addRoute_accepted POST path h app Hpath) as [app' Hadd].
      unfold Bunwork.post. rewrite Hadd, IH. cbn [andb]. rewrite !configure_cons.
      cbn [register]. unfold Bunwork.post. by rewrite Hadd.
    + apply Bool.not_true_iff_false in Hpath. rewrite routable_spec in Hpath.
      unfold Bunwork.post. rewrite addRoute_rejects; [done|].
      by apply eq_None_not_Some.
Qed.

Lemma applyRoutes_tree routes (app : Bunwork.t) :
  Router.applyRoutes routes app =
    if forallb callAccepted (routeCalls routes)
    then (configure (routeCalls routes) app, Normal tt)
    else (configure (acceptedCalls (routeCalls routes)) app,
          Thrown (Error "Failed to add route handler. Node is undefined.")).
Proof.
  revert app. induction routes as [|[path byMethod] routes IH]; intros app; [done|].
  cbn [Router.applyRoutes]. unfold routeCalls, JsObject.entries in *.
  cbn [mbind list_bind fst snd]. rewrite applyMethods_tree.
  rewrite forallb_app, acceptedCalls_app.
  destruct (forallb callAccepted (methodCalls path byMethod)); [|done].
  rewrite IH. cbn [andb]. rewrite !configure_app.
  by destruct (forallb callAccepted _).
Qed.

Lemma lastWith_app {A B} (f : A → option B) l1 l2 init :
  lastWith f (l1 ++ l2) init = lastWith f l2 (lastWith f l1 init).
Proof. revert init. induction l1 as [|a l1 IH]; intros init; [done|]. apply IH. Qed.

(** The loops of [applyTo] on a table dispatcher. *)
Lemma applyMethods_table path byMethod (app : Core.t) path' method' :
  let result := Router.applyMethods path byMethod app in
  result.2 = Normal tt ∧
  Core.middlewares result.1 = Core.middlewares app ∧
  Core.staticRoutes result.1 = Core.staticRoutes app ∧
  Core.routeHandler path' method' result.1 =
    lastWith (tableEntry path' method') (methodCalls path byMethod)
      (Core.routeHandler path' method' app).
Proof.
  revert app. induction byMethod as [|[method h] byMethod IH]; intros app; [done|].
  cbn [Router.applyMethods methodCalls app_get app_post Core_Dispatcher].
  destruct (decide (method = "GET")) as [->|Hget].
  - cbv zeta in *. destruct (IH (Core.get path h app)) as (-> & -> & -> & ->).
    split; [done|]. split; [done|]. split; [done|].
    cbn [lastWith tableEntry]. f_equal. unfold Core.get, Core.routeHandler, Core.addRoute.
    cbn [Core.routes]. rewrite table_addRoute. cbn [methodName].
    by destruct (decide (path' = path ∧ method' = "GET")).
  - destruct (decide (method = "POST")) as [->|Hpost]; [|apply IH].
    cbv zeta in *. destruct (IH (Core.post path h app)) as (-> & -> & -> & ->).
    split; [done|]. split; [done|]. split; [done|].
    cbn [lastWith tableEntry]. f_equal. unfold Core.post, Core.routeHandler, Core.addRoute.
    cbn [Core.routes]. rewrite table_addRoute. cbn [methodName].
    by destruct (decide (path' = path ∧ method' = "POST")).
Qed.

Lemma applyRoutes_table routes (app : Core.t) path' method' :
  let result := Router.applyRoutes routes app in
  result.2 = Normal tt ∧
  Core.middlewares result.1 = Core.middlewares app ∧
  Core.staticRoutes result.1 = Core.staticRoutes app ∧
  Core.routeHandler path' method' result.1 =
    lastWith (tableEntry path' method') (routeCalls routes)
      (Core.routeHandler path' method' app).
Proof.
  revert app. induction routes as [|[path byMethod] routes IH]; intros app; [done|].
  cbn [Router.applyRoutes]. unfold routeCalls, JsObject.entries in *.
  cbn [mbind list_bind fst snd]. cbv zeta in *.
  destruct (applyMethods_table path byMethod app path' method') as (Hdone & Hmws & Hst & Hh).
  destruct (Router.applyMethods path byMethod app) as [app1 [[]|e]]; [|done].
  cbn [fst snd] in *. destruct (IH app1) as (-> & -> & -> & ->).
  by rewrite lastWith_app, Hmws, Hst, Hh.
Qed.

Lemma middlewares_foldl_table fns (app : Core.t) :
  let app' := foldl (λ app mw, Core.middleware mw app) app fns in
  Core.middlewares app' = Core.middlewares app ++ fns ∧
  Core.routes app' = Core.routes app ∧
  Core.staticRoutes app' = Core.staticRoutes app.
Proof.
  revert app. induction fns as [|fn fns IH]; intros app.
  - cbn. by rewrite app_nil_r.
  - cbn [foldl]. cbv zeta in *. destruct (IH (Core.middleware fn app)) as (-> & -> & ->).
    cbn [Core.middleware Core.middlewares Core.routes Core.staticRoutes].
    by rewrite <-app_assoc.
Qed.

End RouterFacts.

(** X20. [Router.applyTo] on a tree dispatcher is a sequence of calls on
    it: a [get] or [post] for each path of the router and each method it
    has for the path, path by path in the order of the table, and then the
    middlewares of the router.  When [addRoute] rejects one of the paths,
    [applyTo] throws its error with the earlier routes registered, and
    none of the router's middlewares is added. *)
Theorem router_applyTo_tree (router : Router.t) (app : Bunwork.t) :
  let calls := routeCalls (Router.routes router) in
  Router.applyTo router app =
    if forallb callAccepted calls
    then (configure (calls ++ (Use <$> Router.middlewares router)) app, Normal tt)
    else (configure (acceptedCalls calls) app,
          Thrown (Error "Failed to add route handler. Node is undefined.")).
Proof.
  intros calls. unfold Router.applyTo. unfold JsObject.entries.
  rewrite applyRoutes_tree. fold calls.
  destruct (forallb callAccepted calls); [|done].
  cbn [app_middleware Bunwork_Dispatcher].
  by rewrite configure_Use_foldl, configure_app.
Qed.

(** X21. [Router.applyTo] on a table dispatcher never throws: afterwards
    a pair of a path and a method has the handler of the last call that
    the router makes for it, or what it had before when the router has
    none; the middlewares of the router follow those of the dispatcher,
    and the static routes are unchanged. *)
Theorem router_applyTo_table
    (router : Router.t) (app : Core.t) (path method : string) :
  Forall (λ entry, JsString.startsWith entry.1 "/" = true) (Router.routes router) →
  let result := Router.applyTo router app in
  result.2 = Normal tt ∧
  Core.middlewares result.1 = Core.middlewares app ++ Router.middlewares router ∧
  Core.staticRoutes result.1 = Core.staticRoutes app ∧
  Core.routeHandler path method result.1 =
    lastWith (tableEntry path method) (routeCalls (Router.routes router))
      (Core.routeHandler path method app).
Proof.
  intros _ result. subst result. unfold Router.applyTo, JsObject.entries.
  destruct (applyRoutes_table (Router.routes router) app path method)
    as (Hdone & Hmws & Hst & Hh).
  destruct (Router.applyRoutes (Router.routes router) app) as [app1 [[]|e]]; [|done].
  cbn [fst snd app_middleware Core_Dispatcher] in *.
  destruct (middlewares_foldl_table (Router.middlewares router) app1) as (Hm & Hr & Hs).
  split; [done|]. rewrite Hm, Hs, Hmws, Hst. split; [done|]. split; [done|].
  rewrite <-Hh. unfold Core.routeHandler. by rewrite Hr.
Qed.

(** * The two dispatchers under one router *)

Section AgreementFacts.

Lemma plainPath_spec path :
  plainPath path = true →
  Forall literalSegment (JsString.segments path) ∧
  (path = "/" ∨ JsString.segments path ≠ [] ∧ path = joined (JsString.segments path)).
Proof.
  unfold plainPath. intros [Hlit Hshape]%andb_prop. split.
  - apply Forall_forall. intros part Hin. rewrite forallb_forall in Hlit.
    apply negb_true_iff. apply Hlit. by apply list_elem_of_In.
  - apply orb_prop in Hshape as [Hroot|[Hne Hjoined]%andb_prop].
    + left. by apply bool_decide_eq_true in Hroot.
    + right. apply bool_decide_eq_true in Hjoined. apply negb_true_iff in Hne.
      apply bool_decide_eq_false in Hne. split; [|done].
      intros Hnil. by rewrite Hnil in Hjoined.
Qed.

Lemma plainPath_keys path :
  plainPath path = true → patternKeys path = Some (requestKeys path).
Proof.
  intros [Hlit Hshape]%plainPath_spec. unfold patternKeys, requestKeys.
  destruct Hshape as [->|[Hne Hjoined]]; [done|].
  rewrite decide_False by (by intros ->).
  destruct (JsString.segments path) as [|part rest]; [done|].
  by rewrite segmentKey_fmap_literal.
Qed.

Lemma plainPath_routable path : plainPath path = true → routable path = true.
Proof. intros Hplain%plainPath_keys. unfold routable. by rewrite Hplain. Qed.

(** Plain paths at the same position are the same text. *)
Lemma plainPath_inj path1 path2 :
  plainPath path1 = true → plainPath path2 = true →
  requestKeys path1 = requestKeys path2 → path1 = path2.
Proof.
  intros [Hlit1 Hshape1]%plainPath_spec [Hlit2 Hshape2]%plainPath_spec.
  unfold requestKeys.
  assert (∀ path, JsString.segments path ≠ ["/"]) as Hslash.
  { intros path Heq. assert ("/" ∈ JsString.segments path) as Hin by (rewrite Heq; by left).
    by apply segments_spec in Hin as [_ Hin]. }
  destruct Hshape1 as [->|[Hne1 Hjoined1]], Hshape2 as [->|[Hne2 Hjoined2]]; [done|..].
  - change (JsString.segments "/") with (@nil string).
    destruct (JsString.segments path2) eqn:Hparts; [done|]. intros Heq.
    by destruct (Hslash path2); rewrite Hparts.
  - change (JsString.segments "/") with (@nil string).
    destruct (JsString.segments path1) eqn:Hparts; [done|]. intros Heq.
    by destruct (Hslash path1); rewrite Hparts.
  - destruct (JsString.segments path1) eqn:Hparts1; [done|].
    destruct (JsString.segments path2) eqn:Hparts2; [done|].
    intros Heq. rewrite Hjoined1, Hjoined2. by rewrite Heq.
Qed.

(** In a tree without dynamic children the walk follows the segments. *)
Lemma matchParts_static_tree parts current params node0 :
  (∀ keys, nodeAt (keys ++ [":"]) current = None) →
  parts ≠ [] →
  matchParts parts current params node0 =
    match nodeAt parts current with
    | Some node => Some (children node, params, Some node)
    | None => None
    end.
Proof.
  revert current node0.
  induction parts as [|part rest IH]; intros current node0 Hstatic Hne; [done|].
  clear Hne. cbn [matchParts]. rewrite nodeAt_cons.
  destruct (current !! part) as [found|] eqn:Hfound; cbn [mbind option_bind].
  - destruct rest as [|part' rest']; [done|]. apply IH; [|done].
    intros keys. specialize (Hstatic (part :: keys)). rewrite <-app_comm_cons in Hstatic.
    destruct (keys ++ [":"]) as [|key keys'] eqn:Hkeys; [by destruct keys|].
    by rewrite nodeAt_cons_cons, Hfound, nodeOrNew_Some in Hstatic.
  - specialize (Hstatic []). cbn [app] in Hstatic. rewrite nodeAt_singleton in Hstatic.
    by rewrite Hstatic.
Qed.

Lemma matchRoute_static_tree m path app :
  (∀ keys, nodeAt (keys ++ [":"]) (root m (Bunwork.routes app)) = None) →
  Bunwork.matchRoute m path app =
    (λ h, (h, ∅)) <$> handlerAt (requestKeys path) (root m (Bunwork.routes app)).
Proof.
  intros Hstatic. rewrite matchRoute_landing. unfold requestKeys, handlerAt.
  destruct (JsString.segments path) as [|part rest] eqn:Hparts.
  - cbn [matchParts landing]. rewrite nodeAt_singleton.
    destruct (root m (Bunwork.routes app) !! "/") as [node|]; [|done].
    cbn [mbind option_bind]. by destruct (handler node).
  - rewrite matchParts_static_tree by done.
    destruct (nodeAt (part :: rest) _) as [node|]; [|done].
    cbn [landing mbind option_bind]. by destruct (handler node).
Qed.

Lemma methodCalls_plain path byMethod :
  plainPath path = true → Forall plainCall (methodCalls path byMethod).
Proof.
  intros Hpath. induction byMethod as [|[method h] byMethod IH]; [done|].
  cbn [methodCalls]. destruct (decide (method = "GET")); [by constructor|].
  destruct (decide (method = "POST")); [by constructor|done].
Qed.

Lemma routeCalls_plain routes :
  Forall (λ entry : string * JsObject.t Handler, plainPath entry.1 = true) routes →
  Forall plainCall (routeCalls routes).
Proof.
  unfold routeCalls, JsObject.entries. induction 1 as [|[path byMethod] routes Hpath _ IH];
    [done|].
  cbn [mbind list_bind]. apply Forall_app. split; [|done]. by apply methodCalls_plain.
Qed.

Lemma plainCall_accepted calls :
  Forall plainCall calls → forallb callAccepted calls = true.
Proof.
  induction 1 as [|call calls Hcall _ IH]; [done|]. cbn [forallb]. rewrite IH.
  destruct call; try done; unfold callAccepted; cbn [callPattern plainCall] in *;
    by rewrite plainPath_routable.
Qed.

Lemma plainCall_stored m calls entry :
  Forall plainCall calls → entry ∈ calls ≫= storedRoutes m → plainPath entry.1 = true.
Proof.
  intros Hcalls (call & Hentry & Hcall)%list_elem_of_bind.
  rewrite Forall_forall in Hcalls. specialize (Hcalls call Hcall).
  destruct call as [path h|path h| | |], m; try done; cbn [storedRoutes accepted] in Hentry;
    try (by apply elem_of_nil in Hentry);
    destruct (routable path); try (by apply elem_of_nil in Hentry);
    by apply list_elem_of_singleton in Hentry as ->.
Qed.

(** A tree that holds only plain routes has no dynamic child. *)
Lemma plain_tree_static m calls keys :
  Forall plainCall calls →
  nodeAt (keys ++ [":"]) (storeAll (calls ≫= storedRoutes m) ∅) = None.
Proof.
  intros Hcalls. apply eq_None_not_Some. intros Hsome.
  destruct (storeAll_observed (calls ≫= storedRoutes m) ∅ [] (keys ++ [":"])
              routeInvariant_empty) as (_ & _ & Hnodes).
  { apply Forall_bind, Forall_forall. intros call _. apply storedRoutes_routable. }
  apply Hnodes in Hsome as [Hsome|(entry & own & Hin & Hown & _ & Hprefix)].
  { rewrite nodeAt_empty in Hsome. by destruct Hsome. }
  pose proof (plainCall_stored _ _ _ Hcalls Hin) as Hplain.
  rewrite (plainPath_keys _ Hplain) in Hown. injection Hown as <-.
  assert (":" ∈ requestKeys entry.1) as Hdyn.
  { destruct Hprefix as [more ->]. apply elem_of_app. left. apply elem_of_app. right.
    by left. }
  apply plainPath_spec in Hplain as [Hlit _]. unfold requestKeys in Hdyn.
  destruct (JsString.segments entry.1) as [|part rest] eqn:Hparts.
  - by apply list_elem_of_singleton in Hdyn.
  - rewrite Forall_forall in Hlit. by specialize (Hlit ":" Hdyn).
Qed.

(** The handler that plain route calls leave at the position of a plain
    path, in the tree and in the table. *)
Lemma plain_calls_agree m path calls init :
  Forall plainCall calls →
  plainPath path = true →
  lastWith (λ entry : string * Handler,
              if decide (patternKeys entry.1 = Some (requestKeys path))
              then Some entry.2 else None)
    (calls ≫= storedRoutes m) init =
  lastWith (tableEntry path (methodName m)) calls init.
Proof.
  intros Hcalls Hpath. revert init.
  induction Hcalls as [|call calls Hcall _ IH]; intros init; [done|].
  cbn [mbind list_bind lastWith]. rewrite lastWith_app, IH. f_equal.
  assert (∀ path', plainPath path' = true →
            (patternKeys path' = Some (requestKeys path) ↔ path = path')) as Hsame.
  { intros path' Hpath'. rewrite (plainPath_keys _ Hpath'). split.
    - intros [= Heq]. symmetry. by apply plainPath_inj.
    - by intros ->. }
  destruct call as [path' h|path' h| | |]; try done; cbn [plainCall] in Hcall;
    pose proof (plainPath_routable _ Hcall) as Hroutable;
    destruct m; cbn [storedRoutes accepted tableEntry methodName lastWith];
    rewrite ?Hroutable; cbn [lastWith fst snd];
    try (rewrite decide_False by (by intros [_ ?]); done).
  - destruct (decide (patternKeys path' = Some (requestKeys path))) as [Heq|Hne].
    + rewrite decide_True; [done|]. split; [|done]. by apply Hsame.
    + rewrite decide_False; [done|]. intros [Heq _]. by apply Hne, Hsame.
  - destruct (decide (patternKeys path' = Some (requestKeys path))) as [Heq|Hne].
    + rewrite decide_True; [done|]. split; [|done]. by apply Hsame.
    + rewrite decide_False; [done|]. intros [Heq _]. by apply Hne, Hsame.
Qed.

Lemma storedRoutes_Use m fns : (Use <$> fns) ≫= storedRoutes m = [].
Proof. induction fns as [|fn fns IH]; [done|]. by destruct m. Qed.

End AgreementFacts.

(** X22. One router applied to a fresh tree dispatcher and to a fresh
    table dispatcher: when the paths of the router are plain (a slash
    before each segment, no dynamic segment), the two dispatchers agree on
    every plain request path; the tree finds a handler exactly when the
    table has one for the path and the method, the same one, and binds no
    parameter. *)
Theorem router_dispatchers_agree (router : Router.t) (m : Method) (path : string) :
  Forall (λ entry, plainPath entry.1 = true) (Router.routes router) →
  plainPath path = true →
  Bunwork.matchRoute m path (Router.applyTo router Bunwork.new).1 =
    (λ h, (h, ∅)) <$>
      Core.routeHandler path (methodName m) (Router.applyTo router Core.new).1.
Proof.
  intros Hroutes Hpath.
  pose proof (routeCalls_plain _ Hroutes) as Hcalls.
  set (calls := routeCalls (Router.routes router)) in *.
  assert (root m (Bunwork.routes (Router.applyTo router Bunwork.new).1) =
          storeAll (calls ≫= storedRoutes m) ∅) as Hroot.
  { unfold Router.applyTo, JsObject.entries. rewrite applyRoutes_tree. fold calls.
    rewrite (plainCall_accepted _ Hcalls). cbn [fst app_middleware Bunwork_Dispatcher].
    rewrite configure_Use_foldl, <-configure_app, root_configure, bind_app.
    rewrite storedRoutes_Use, app_nil_r. by destruct m. }
  rewrite matchRoute_static_tree; rewrite Hroot; [|intros keys; by apply plain_tree_static].
  f_equal.
  destruct (storeAll_observed (calls ≫= storedRoutes m) ∅ [] (requestKeys path)
              routeInvariant_empty) as (-> & _ & _).
  { apply Forall_bind, Forall_forall. intros call _. apply storedRoutes_routable. }
  rewrite (plain_calls_agree m path calls _ Hcalls Hpath).
  unfold Router.applyTo, JsObject.entries.
  destruct (applyRoutes_table (Router.routes router) Core.new path (methodName m))
    as (Hdone & _ & _ & Hh).
  destruct (Router.applyRoutes (Router.routes router) Core.new) as [app1 [[]|e]]; [|done].
  cbn [fst snd app_middleware Core_Dispatcher] in *.
  destruct (middlewares_foldl_table (Router.middlewares router) app1) as (_ & Hr & _).
  unfold Core.routeHandler in *. rewrite Hr, Hh. fold calls.
  unfold handlerAt. by rewrite nodeAt_empty.
Qed.

(** * The further properties on the examples *)

(** X1 on the pattern "//". *)
Lemma addRoute_throws_iff_witness :
  Bunwork.addRoute GET "//" (respond "none") Bunwork.new =
    Thrown (Error "Failed to add route handler. Node is undefined.").
Proof.
  destruct (addRoute_throws_iff GET "//" (respond "none") Bunwork.new) as [[_ Hthrows] _].
  apply Hthrows. exists 2. split; [discriminate|reflexivity].
Defined.

(** X2: [/users//:id/] and [users/:id] are one route. *)
Lemma registration_reads_segments_witness :
  Bunwork.addRoute GET "/users//:id/" (echoParam "id") Bunwork.new =
    Bunwork.addRoute GET "users/:id" (echoParam "id") Bunwork.new.
Proof.
  apply (registration_reads_segments GET "/users//:id/" "users/:id").
  - reflexivity.
  - vm_compute. discriminate.
Defined.

(** X3 on the users example: [/users/me], registered last, answers the
    path [users//me/]. *)
Lemma literal_route_round_trip_witness :
  Bunwork.matchRoute GET "users//me/" usersApp = Some (respond "me", ∅).
Proof.
  apply (literal_route_round_trip GET "/users/me" "users//me/" (respond "me")
           (configure [Get "/users/:id" (echoParam "id")] Bunwork.new) usersApp).
  - reflexivity.
  - vm_compute. repeat constructor.
  - reflexivity.
Defined.

(** X4 on the users example: the route [/about] changes no match of
    [/users/7]. *)
Lemma registration_frame_witness :
  Bunwork.matchRoute GET "/users/7"
    (configure (usersCalls ++ [Get "/about" (respond "about")]) Bunwork.new) =
    Bunwork.matchRoute GET "/users/7" usersApp.
Proof.
  apply (registration_frame GET GET "/about" "/users/7" "about" []
           (respond "about") usersApp).
  - reflexivity.
  - reflexivity.
  - reflexivity.
  - right. vm_compute. discriminate.
Defined.

(** X5: the handler of [/hello/:name] sees the parameters of the match,
    not the object that the middleware had stored; the static route "/" is
    not asked. *)
Lemma matched_route_runs_handler_witness :
  Bunwork.handle publicHost taggedApp (GETRequest "/hello/john") =
    (Normal (mkResponse (Text "john") 200),
     [CallMiddleware tagger; CallHandler (echoParam "name")]).
Proof.
  etransitivity.
  - apply (matched_route_runs_handler publicHost taggedApp (GETRequest "/hello/john")
             (setParams {["seen" := "yes"]} (GETRequest "/hello/john")) GET
             (echoParam "name") {["name" := "john"]}).
    + simpl. eexists. split; reflexivity.
    + reflexivity.
    + reflexivity.
  - reflexivity.
Defined.

(** X6: the faulty middleware comes before the blocking one. *)
Lemma throwing_middleware_propagates_witness :
  Bunwork.handle publicHost faultyApp (GETRequest "/") =
    (Thrown (Error "unexpected"), [CallMiddleware logger; CallMiddleware faulty]).
Proof.
  apply (throwing_middleware_propagates publicHost faultyApp
           (GETRequest "/") (GETRequest "/") [logger] [denyAll] faulty).
  - reflexivity.
  - simpl. eexists. split; reflexivity.
  - reflexivity.
Defined.

(** X8: the error of the request [/boom] is the one of its handler. *)
Lemma handle_throws_only_witness :
  (∃ before thrower after req1,
     Bunwork.middlewares brokenApp = before ++ thrower :: after ∧
     allContinue before (GETRequest "/boom") req1 ∧
     thrower req1 = Raised (Error "handler failed")) ∨
  (∃ req', allContinue (Bunwork.middlewares brokenApp) (GETRequest "/boom") req' ∧
     (Bunwork.methodOf (JsString.toUpperCase (method (GETRequest "/boom"))) = None ∧
      Error "handler failed" = TypeError "undefined is not an object" ∨
      ∃ m h params,
        Bunwork.methodOf (JsString.toUpperCase (method (GETRequest "/boom"))) = Some m ∧
        Bunwork.matchRoute m (pathname (GETRequest "/boom")) brokenApp = Some (h, params) ∧
        h (setParams params req') = Thrown (Error "handler failed"))).
Proof.
  apply (handle_throws_only publicHost brokenApp (GETRequest "/boom")
           (Error "handler failed") [CallMiddleware logger; CallHandler broken]).
  reflexivity.
Defined.

(** X9 on the hello example, which has no static route. *)
Lemma unmatched_not_found_iff_witness :
  (Bunwork.handle publicHost helloApp (GETRequest "/hello")).1 =
    Normal (mkResponse (Text "Not Found") 404).
Proof.
  destruct (unmatched_not_found_iff publicHost helloApp (GETRequest "/hello")
              (GETRequest "/hello") GET) as [[_ Hfound] _].
  - reflexivity.
  - reflexivity.
  - reflexivity.
  - apply Hfound. constructor.
Defined.

(** X10 on the assets example: a second [static] call for [/assets]
    changes the directory from which [/assets/logo.png] is read. *)
Lemma static_registration_effect_witness :
  Bunwork.serveStatic publicHost
    (JsObject.entries
       (Bunwork.staticRoutes (Bunwork.static "/assets" "./static" assetsApp)))
    "/assets/logo.png" =
    Some (mkResponse (Text "File Not Found") 404, [ReadFile "./static/logo.png"]).
Proof.
  etransitivity.
  - apply (static_registration_effect publicHost assetsApp "/assets" "./static").
    reflexivity.
  - reflexivity.
Defined.

(** X11: the second GET path of the blueprint has no segment. *)
Lemma registerBlueprint_rejects_witness :
  (Bunwork.registerBlueprint halfBlueprint Bunwork.new).2 =
    Thrown (Error "Failed to add route handler. Node is undefined.") ∧
  (Bunwork.registerBlueprint halfBlueprint Bunwork.new).1 =
    configure [Use logger; Get "/a" (respond "a")] Bunwork.new.
Proof.
  destruct (registerBlueprint_rejects halfBlueprint Bunwork.new) as [Hthrown Hstate].
  split; [exact Hthrown|].
  apply (Hstate [("/a", respond "a")] "//" (respond "none") [("/b", respond "b")]);
    reflexivity.
Defined.

(** X12: the handler of [/users/:id] gets the parameter under the name of
    the later pattern. *)
Lemma later_pattern_renames_parameter_witness :
  Bunwork.matchRoute GET "/users/7" renamedApp =
    Some (echoParam "id", {["name" := "7"]}).
Proof.
  apply (later_pattern_renames_parameter Bunwork.new
           (configure [Get "/users/:id" (echoParam "id")] Bunwork.new) renamedApp GET
           "/users/:id" "/users/:name/posts" "/users/7" ["users"] ["posts"]
           "id" "name" "7" (echoParam "id") (respond "posts")).
  - reflexivity.
  - reflexivity.
  - discriminate.
  - repeat constructor.
  - discriminate.
  - discriminate.
  - reflexivity.
  - reflexivity.
  - reflexivity.
  - reflexivity.
Defined.

(** X13: [/a/me/b] fits the pattern [/a/:x/b], but the child [me] exists
    and holds no route for [b]. *)
Lemma literal_child_commits_witness :
  Bunwork.matchRoute GET "/a/me/b" siblingApp = None.
Proof.
  destruct (literal_child_commits siblingApp GET "/a/me/b" ["a"] ["b"] "me")
    as [_ Hnone].
  - reflexivity.
  - vm_compute. eexists. reflexivity.
  - apply Hnone. intros keys Htaken.
    inversion Htaken as [|key part keys' after' Hkey Hrest]; subst.
    inversion Hrest; subst. destruct Hkey as [->| ->]; reflexivity.
Defined.

(** X14 on the users example: [/users/7] goes through the dynamic
    child. *)
Lemma matchRoute_walk_witness :
  ∃ keys,
    takenFrom (root GET (Bunwork.routes usersApp)) keys (JsString.segments "/users/7") ∧
    handlerAt keys (root GET (Bunwork.routes usersApp)) = Some (echoParam "id") ∧
    ({["id" := "7"]} : Params) =
      boundFrom (root GET (Bunwork.routes usersApp)) keys (JsString.segments "/users/7") ∅.
Proof.
  destruct (matchRoute_walk usersApp GET "/users/7" (echoParam "id") {["id" := "7"]})
    as [[Hwalk _] _].
  - vm_compute. discriminate.
  - apply Hwalk. reflexivity.
Defined.

(** X15 on the users example. *)
Lemma registered_pattern_matches_witness :
  ∃ h params keys,
    Bunwork.matchRoute GET "/users/:id" usersApp = Some (h, params) ∧
    patternKeys "/users/:id" = Some keys ∧
    handlerAt keys (root GET (Bunwork.routes usersApp)) = Some h.
Proof.
  apply (registered_pattern_matches usersCalls GET "/users/:id").
  vm_compute. left.
Defined.

(** X16: the users blueprint merged twice. *)
Lemma replayed_calls_match_the_same_witness :
  Bunwork.matchRoute GET "/users/7"
    (configure [RegisterBlueprint usersBlueprint; RegisterBlueprint usersBlueprint]
       Bunwork.new) =
    Bunwork.matchRoute GET "/users/7"
      (configure [RegisterBlueprint usersBlueprint] Bunwork.new) ∧
  Bunwork.middlewares
    (configure [RegisterBlueprint usersBlueprint; RegisterBlueprint usersBlueprint]
       Bunwork.new) = [denyAll; denyAll].
Proof.
  exact (replayed_calls_match_the_same [] [RegisterBlueprint usersBlueprint] GET "/users/7").
Defined.

(** X17: the POST handler of [/users] leaves its GET handler. *)
Lemma core_addRoute_lookup_witness :
  Core.routeHandler "/users" "GET" tableApp = Some (respond "list") ∧
  Core.routeHandler "/users" "POST" tableApp = Some (respond "created").
Proof.
  split.
  - exact (proj1 (core_addRoute_lookup POST "/users" "/users" "GET" (respond "created")
                   (Core.get "/users" (respond "list") Core.new) eq_refl)).
  - exact (proj1 (core_addRoute_lookup POST "/users" "/users" "POST" (respond "created")
                   (Core.get "/users" (respond "list") Core.new) eq_refl)).
Defined.

(** X18: the table dispatcher answers a DELETE request with the 404. *)
Lemma core_handle_dispatch_witness :
  Core.handle publicHost tableApp (mkRequest "DELETE" "/users" None) =
    (Normal (mkResponse (Text "Not Found") 404), []).
Proof.
  etransitivity.
  - apply (core_handle_dispatch publicHost tableApp (mkRequest "DELETE" "/users" None)
             (mkRequest "DELETE" "/users" None)).
    reflexivity.
  - reflexivity.
Defined.

(** X19: the error of the request [/boom] is the one of its handler. *)
Lemma core_handle_throws_only_witness :
  (∃ before thrower after req1,
     Core.middlewares brokenTable = before ++ thrower :: after ∧
     allContinue before (GETRequest "/boom") req1 ∧
     thrower req1 = Raised (Error "handler failed")) ∨
  (∃ req' h,
     allContinue (Core.middlewares brokenTable) (GETRequest "/boom") req' ∧
     Core.routeHandler (pathname (GETRequest "/boom"))
       (JsString.toUpperCase (method (GETRequest "/boom"))) brokenTable = Some h ∧
     h req' = Thrown (Error "handler failed")).
Proof.
  apply (core_handle_throws_only publicHost brokenTable (GETRequest "/boom")
           (Error "handler failed") [CallHandler broken]).
  reflexivity.
Defined.

(** X20: the second path of the router has no segment; its middleware is
    not added. *)
Lemma router_applyTo_tree_witness :
  Router.applyTo halfRouter Bunwork.new =
    (configure [Get "/users" (respond "list")] Bunwork.new,
     Thrown (Error "Failed to add route handler. Node is undefined.")).
Proof. exact (router_applyTo_tree halfRouter Bunwork.new). Defined.

(** X21: the users router on a fresh table dispatcher. *)
Lemma router_applyTo_table_witness :
  (Router.applyTo usersRouter Core.new).2 = Normal tt ∧
  Core.middlewares (Router.applyTo usersRouter Core.new).1 = [logger] ∧
  Core.routeHandler "/users" "POST" (Router.applyTo usersRouter Core.new).1 =
    Some (respond "created").
Proof.
  destruct (router_applyTo_table usersRouter Core.new "/users" "POST")
    as (Hdone & Hmiddlewares & _ & Hhandler).
  - vm_compute. repeat constructor.
  - split; [exact Hdone|]. split; [exact Hmiddlewares|exact Hhandler].
Defined.

(** X22: the users router on the two dispatchers. *)
Lemma router_dispatchers_agree_witness :
  Bunwork.matchRoute GET "/users" (Router.applyTo usersRouter Bunwork.new).1 =
    Some (respond "list", ∅).
Proof.
  etransitivity.
  - apply (router_dispatchers_agree usersRouter GET "/users").
    + vm_compute. repeat constructor.
    + reflexivity.
  - reflexivity.
Defined.

(** * Re-registration and blueprint merge *)

Section ReregistrationFacts.

Lemma nodeAt_prefix_is_Some keys more current :
  keys ≠ [] → is_Some (nodeAt (keys ++ more) current) → is_Some (nodeAt keys current).
Proof.
  intros Hne. induction more as [|key more IH] using rev_ind.
  - by rewrite app_nil_r.
  - rewrite app_assoc. intros [?|?]%nodeAt_snoc_is_Some; [|by apply IH].
    by destruct keys, more.
Qed.

(** Two maps with nodes at the same positions are walked the same way. *)
Lemma takenFrom_same_nodes c1 c2 keys parts :
  (∀ keys, is_Some (nodeAt keys c1) ↔ is_Some (nodeAt keys c2)) →
  takenFrom c1 keys parts → takenFrom c2 keys parts.
Proof.
  revert c1 c2 parts. induction keys as [|key keys IH]; intros c1 c2 [|part parts] Hsame;
    cbn [takenFrom]; try done.
  assert (∀ k, is_Some (c1 !! k) ↔ is_Some (c2 !! k)) as Hlookup.
  { intros k. specialize (Hsame [k]). by rewrite !nodeAt_singleton in Hsame. }
  destruct (c1 !! key) as [n1|] eqn:Hn1; [|done].
  destruct (c2 !! key) as [n2|] eqn:Hn2.
  - intros [Hkey Hrest]. split.
    + destruct Hkey as [?|[? Hnone]]; [by left|right]. split; [done|].
      apply eq_None_not_Some. rewrite <-Hlookup. by rewrite Hnone; intros [].
    + apply (IH (children n1)); [|done]. intros [|k ks]; [done|].
      specialize (Hsame (key :: k :: ks)).
      by rewrite !nodeAt_cons_cons, Hn1, Hn2, !nodeOrNew_Some in Hsame.
  - destruct (proj1 (Hlookup key)) as [? ?]; [by rewrite Hn1|]. congruence.
Qed.

(** The handler returned for a list of segments, from two maps with nodes
    at the same positions and the same handlers outside one position. *)
Lemma landing_same_nodes own stored h2 c1 c2 parts :
  (∀ keys, is_Some (nodeAt keys c1) ↔ is_Some (nodeAt keys c2)) →
  (∀ keys, keys ≠ own → handlerAt keys c1 = handlerAt keys c2) →
  handlerAt own c1 = Some stored → handlerAt own c2 = Some h2 →
  let r1 := fst <$> landing (matchParts parts c1 ∅ None) in
  let r2 := fst <$> landing (matchParts parts c2 ∅ None) in
  r2 = r1 ∨ r1 = Some stored ∧ r2 = Some h2.
Proof.
  intros Hsame Hrest Hown1 Hown2.
  assert (∀ keys n1 n2, nodeAt keys c1 = Some n1 → nodeAt keys c2 = Some n2 →
            handler n2 = handler n1 ∨ handler n1 = Some stored ∧ handler n2 = Some h2)
    as Hnodes.
  { intros keys n1 n2 Hn1 Hn2. destruct (decide (keys = own)) as [->|Hne].
    - right. unfold handlerAt in Hown1, Hown2. by rewrite Hn1 in Hown1; rewrite Hn2 in Hown2.
    - left. specialize (Hrest keys Hne). unfold handlerAt in Hrest.
      by rewrite Hn1, Hn2 in Hrest. }
  destruct parts as [|part parts].
  - cbn [matchParts landing]. pose proof (Hsame ["/"]) as Hroot.
    rewrite !nodeAt_singleton in Hroot.
    destruct (c1 !! "/") as [n1|] eqn:Hn1, (c2 !! "/") as [n2|] eqn:Hn2.
    + destruct (Hnodes ["/"] n1 n2) as [Hh|[Hh1 Hh2]]; [by rewrite nodeAt_singleton..| |].
      * left. by rewrite Hh.
      * right. by rewrite Hh1, Hh2.
    + destruct (proj1 Hroot) as [? ?]; [done|congruence].
    + destruct (proj2 Hroot) as [? ?]; [done|congruence].
    + by left.
  - assert (∀ ca cb, (∀ keys, is_Some (nodeAt keys ca) ↔ is_Some (nodeAt keys cb)) →
              ∀ result, matchParts (part :: parts) ca ∅ None = Some result →
              ∃ keys na nb paramsa paramsb,
                nodeAt keys ca = Some na ∧ nodeAt keys cb = Some nb ∧
                result = (children na, paramsa, Some na) ∧
                matchParts (part :: parts) cb ∅ None = Some (children nb, paramsb, Some nb))
      as Hwalk.
    { intros ca cb Hab [[current params] node] Hresult.
      apply matchParts_takenFrom in Hresult
        as (keys & na & Htaken & Hna & -> & -> & ->); [|done].
      destruct (proj1 (Hab keys)) as [nb Hnb]; [by rewrite Hna|].
      exists keys, na, nb. eexists _, _. split; [done|]. split; [done|]. split; [done|].
      apply matchParts_takenFrom; [done|]. exists keys, nb.
      split; [by apply (takenFrom_same_nodes ca)|done]. }
    destruct (matchParts (part :: parts) c1 ∅ None) as [result1|] eqn:Hwalk1.
    + destruct (Hwalk c1 c2 Hsame _ Hwalk1)
        as (keys & n1 & n2 & params1 & params2 & Hn1 & Hn2 & -> & ->).
      cbn [landing]. pose proof (Hnodes keys n1 n2 Hn1 Hn2) as [Hh|[Hh1 Hh2]].
      * left. rewrite Hh. by destruct (handler n1).
      * right. by rewrite Hh1, Hh2.
    + destruct (matchParts (part :: parts) c2 ∅ None) as [result2|] eqn:Hwalk2; [|by left].
      destruct (Hwalk c2 c1 (λ keys, symmetry (Hsame keys)) _ Hwalk2)
        as (keys & n2 & n1 & params2 & params1 & _ & _ & _ & Hsome).
      congruence.
Qed.

Lemma namedBy_literal parts keys :
  Forall literalSegment parts → namedBy parts keys = None.
Proof.
  intros Hlit. revert keys. induction Hlit as [|part parts Hpart _ IH]; intros keys;
    [by destruct keys|].
  destruct keys as [|key keys]; [done|]. cbn [namedBy].
  destruct (decide (key = segmentKey part)); [|done].
  destruct keys; [|apply IH]. unfold literalSegment in Hpart. by rewrite Hpart.
Qed.


(** A pattern that the invariant knows is matched when it is taken as a
    request path. *)
Lemma invariant_pattern_matches current patterns pattern :
  routeInvariant current patterns →
  pattern ∈ patterns →
  routable pattern = true →
  ∃ h params keys,
    landing (matchParts (JsString.segments pattern) current ∅ None) = Some (h, params) ∧
    patternKeys pattern = Some keys ∧
    handlerAt keys current = Some h.
Proof.
  intros Hinv Hin [keys Hkeys]%routable_spec.
  assert (is_Some (handlerAt keys current)) as [h Hh].
  { apply (inv_handler _ _ Hinv). eauto. }
  exists h. pose proof Hh as Hh'. unfold handlerAt in Hh.
  destruct (nodeAt keys current) as [node|] eqn:Hnode; [|done].
  cbn [mbind option_bind] in Hh.
  destruct (decide (pattern = "/")) as [->|Hroot].
  - unfold patternKeys in Hkeys. rewrite decide_True in Hkeys by done.
    injection Hkeys as <-. rewrite nodeAt_singleton in Hnode.
    change (JsString.segments "/") with (@nil string). cbn [matchParts landing].
    rewrite Hnode, Hh. by exists ∅, ["/"].
  - pose proof Hkeys as [-> Hparts]%patternKeys_segments; [|done].
    destruct (matchParts_pattern_keys (JsString.segments pattern) current ∅ None node
                (inv_dynamic _ _ Hinv) Hnode) as [params' ->].
    cbn [landing]. rewrite Hh. by exists params', (segmentKey <$> JsString.segments pattern).
Qed.

Lemma storedOf_all entries :
  forallb (λ entry : string * Handler, routable entry.1) entries = true →
  storedOf entries = entries.*1.
Proof.
  induction entries as [|[path h] entries IH]; [done|].
  cbn [forallb fst storedOf]. intros [-> Hall]%andb_prop. by rewrite IH.
Qed.

End ReregistrationFacts.

(** C5 as stated fails when another pattern is registered between the two
    registrations: [/u/:id], then [/u/:name/posts], then [/u/:id] again.
    The second registration of [/u/:id] stores its parameter name in the
    dynamic child again, so the route [/u/:name/posts], which is not the
    one registered again, answers the request [/u/7/posts] with other
    parameters than before. *)
Lemma reregistration_changes_other_route :
  Bunwork.matchRoute GET "/u/7/posts" (configure firstCalls Bunwork.new) =
    Some (echoParam "name", {["name" := "7"]}) ∧
  Bunwork.matchRoute GET "/u/7/posts" (configure againCalls Bunwork.new) =
    Some (echoParam "name", {["id" := "7"]}) ∧
  Bunwork.matchRoute GET "/u/7/posts" (configure againCalls Bunwork.new) ≠
    Bunwork.matchRoute GET "/u/7/posts" (configure firstCalls Bunwork.new) ∧
  (Bunwork.handle publicHost (configure firstCalls Bunwork.new)
     (GETRequest "/u/7/posts")).1 = Normal (mkResponse (Text "7") 200) ∧
  (Bunwork.handle publicHost (configure againCalls Bunwork.new)
     (GETRequest "/u/7/posts")).1 = Normal (mkResponse (Text "") 200).
Proof.
  split_and!; try reflexivity.
  intros Heq.
  apply (f_equal (λ result : option (Handler * Params),
                    result ≫= λ found, found.2 !! "id")) in Heq.
  vm_compute in Heq. discriminate Heq.
Qed.




(** X23.  A pattern registered again at any later time, on a dispatcher in
    which it is registered: a match of the pattern returns the new
    handler; no node is added and the handler of no other node changes,
    so every request is matched after it exactly when it was matched
    before, by the same handler unless it lands on the node of the pattern,
    where the stored handler gives way to the new one.  When the pattern
    has no dynamic segment the parameters of every match are unchanged as
    well. *)
Theorem reregistration_keeps_handlers
    (calls : list Registration) (m : Method) (pattern : string) (h2 : Handler)
    (app' : Bunwork.t) :
  let app := configure calls Bunwork.new in
  pattern ∈ registered m calls →
  Bunwork.addRoute m pattern h2 app = Normal app' →
  (∃ params, Bunwork.matchRoute m pattern app' = Some (h2, params)) ∧
  ∃ stored own,
    patternKeys pattern = Some own ∧
    handlerAt own (root m (Bunwork.routes app)) = Some stored ∧
    (∀ m' path,
       fst <$> Bunwork.matchRoute m' path app' = fst <$> Bunwork.matchRoute m' path app ∨
       fst <$> Bunwork.matchRoute m' path app = Some stored ∧
       fst <$> Bunwork.matchRoute m' path app' = Some h2) ∧
    (Forall literalSegment (JsString.segments pattern) →
     ∀ m' path,
       Bunwork.matchRoute m' path app' = Bunwork.matchRoute m' path app ∨
       ∃ params,
         Bunwork.matchRoute m' path app = Some (stored, params) ∧
         Bunwork.matchRoute m' path app' = Some (h2, params)).
Proof.
  intros app Hin Hadd.
  pose proof (configure_invariant calls m) as Hinv. fold app in Hinv.
  pose proof Hadd as (Hroutable & _ & _ & Hroot)%addRoute_routes.
  pose proof Hroutable as [own Hown]%routable_spec.
  set (c := root m (Bunwork.routes app)) in *.
  assert (is_Some (handlerAt own c)) as [stored Hstored].
  { apply (inv_handler _ _ Hinv). eauto. }
  assert (is_Some (nodeAt own c)) as Hnode.
  { unfold handlerAt in Hstored. by destruct (nodeAt own c). }
  pose proof (handlerAt_storeRoute pattern h2 c own Hown (inv_root _ _ Hinv)) as Hhandlers.
  assert (∀ keys, is_Some (nodeAt keys c) ↔ is_Some (nodeAt keys (storeRoute pattern h2 c)))
    as Hnodes.
  { intros keys.
    rewrite (nodeAt_storeRoute_is_Some pattern h2 c own Hown (inv_root _ _ Hinv)).
    split; [by left|]. intros [?|[Hne [more ->]]]; [done|].
    by apply (nodeAt_prefix_is_Some keys more). }
  split.
  - rewrite matchRoute_landing, (Hroot m), decide_True by done.
    destruct (invariant_pattern_matches (storeRoute pattern h2 c)
                (registered m calls ++ [pattern]) pattern)
      as (h' & params & keys & -> & Hkeys & Hh'); [| |done|].
    + apply routeInvariant_storeRoute; [done|]. by rewrite Hown.
    + apply elem_of_app. right. by left.
    + rewrite Hown in Hkeys. injection Hkeys as <-.
      rewrite Hhandlers, decide_True in Hh' by done. injection Hh' as <-. eauto.
  - exists stored, own. split; [done|]. split; [done|]. split.
    + intros m' path. rewrite !matchRoute_landing, (Hroot m').
      destruct (decide (m' = m)) as [->|]; [|by left]. fold c.
      apply (landing_same_nodes own stored h2); [done| |done|].
      * intros keys Hne. by rewrite Hhandlers, decide_False.
      * by rewrite Hhandlers, decide_True.
    + intros Hlit m' path. rewrite !matchRoute_landing, (Hroot m').
      destruct (decide (m' = m)) as [->|]; [|by left]. fold c.
      apply (landing_sameRoutes own stored h2); [|done|].
      * intros keys. split; [done|]. split.
        -- rewrite (paramNameAt_storeRoute pattern h2 c own Hown (inv_root _ _ Hinv))
             by (intros name; apply (routeInvariant_root_param _ _ _ Hinv)).
           destruct (decide (pattern = "/")); [done|]. by rewrite namedBy_literal.
        -- intros Hne. by rewrite Hhandlers, decide_False.
      * by rewrite Hhandlers, decide_True.
Qed.

(** X23 on the scenario of the three registrations: the request
    [/u/7/posts] keeps its handler, and [/u/:id] gets the new one. *)
Lemma reregistration_keeps_handlers_witness :
  (∃ params,
     Bunwork.matchRoute GET "/u/:id" (configure againCalls Bunwork.new) =
       Some (respond "second", params)) ∧
  fst <$> Bunwork.matchRoute GET "/u/7/posts" (configure againCalls Bunwork.new) =
    Some (echoParam "name").
Proof.
  destruct (reregistration_keeps_handlers firstCalls GET "/u/:id" (respond "second")
              (configure againCalls Bunwork.new)) as (Hnew & _).
  - vm_compute. left.
  - reflexivity.
  - split; [exact Hnew|reflexivity].
Defined.
